(** * Churn analyser: the patch parser and the line classifier of [api.js]

    A shallow embedding of the two pure algorithms of [src/api.js]:
    - [parsePatch] with its helpers [isBlankLine], [determineHunkType],
      [finalizeHunk] and [createEmptyHunk];
    - [classifyLine] with its helpers [extractCommitInfo] and
      [calculateDeltaDays].

    Modelling conventions.
    - A JavaScript string is the list of its UTF-16 code units ([jsstring]).
    - Line numbers are JavaScript numbers that only ever hold non-negative
      integers ([parseInt] of a digit run, [0], and [++]); they are modelled
      as [Z], which agrees with IEEE doubles below 2^53.
    - A [Date] is either a valid time value in milliseconds or the invalid
      date whose time value is not-a-number.  [new Date(string)] belongs to
      the JavaScript runtime, not to this repository: it is a parameter
      [dateParse] of the classifier.
    - [deltaDays] is the quotient of two integers; it is kept as an exact
      rational (or not-a-number), the idealisation of the double division. *)

From Stdlib Require Import String Ascii List Sorted ZArith NArith QArith Bool Lia.
Import ListNotations.

Local Open Scope Z_scope.

(* ------------------------------------------------------------------ *)
(** ** JavaScript strings *)

Definition jschar := N.
Definition jsstring := list jschar.

(** An ASCII literal as a JavaScript string. *)
Definition lit (s : string) : jsstring :=
  map N_of_ascii (list_ascii_of_string s).

Definition LF : jschar := 10%N.

(** [unlines] joins lines with a line feed; it is only used to write
    example patches. *)
Fixpoint unlines (ls : list jsstring) : jsstring :=
  match ls with
  | [] => []
  | [l] => l
  | l :: rest => l ++ LF :: unlines rest
  end.

(** [s.startsWith(p)] *)
Fixpoint startsWith (s p : jsstring) {struct p} : bool :=
  match p, s with
  | [], _ => true
  | c :: p', d :: s' => N.eqb c d && startsWith s' p'
  | _ :: _, [] => false
  end.

(** [s.substring(1)] *)
Definition substring1 (s : jsstring) : jsstring := tl s.

(** [s.split("\n")]: never empty, the empty string gives one empty line. *)
Fixpoint split_lines (s : jsstring) : list jsstring :=
  match s with
  | [] => [[]]
  | c :: s' =>
      if N.eqb c LF then [] :: split_lines s'
      else match split_lines s' with
           | l :: ls => (c :: l) :: ls
           | [] => [[c]]
           end
  end.

(** The class [\s] of an ECMAScript regular expression: WhiteSpace and
    LineTerminator code units. *)
Definition isWhiteSpace (c : jschar) : bool :=
  ((9 <=? c) && (c <=? 13) || (c =? 32) || (c =? 160) || (c =? 5760)
   || (8192 <=? c) && (c <=? 8202) || (c =? 8232) || (c =? 8233)
   || (c =? 8239) || (c =? 8287) || (c =? 12288) || (c =? 65279))%N.

(** The class [\d]: ASCII digits only. *)
Definition isDigit (c : jschar) : bool := ((48 <=? c) && (c <=? 57))%N.

(** [parseInt(digits, 10)] on a run of decimal digits. *)
Definition parseInt10 (digits : jsstring) : Z :=
  fold_left (fun acc c => 10 * acc + (Z.of_N c - 48)) digits 0.

(* ------------------------------------------------------------------ *)
(** ** The hunk header pattern
    [/@@ -(\d+)(?:,\d+)? \+(\d+)(?:,(\d+))? @@/]

    The pattern is matched piece by piece.  Each greedy piece is followed
    in the pattern by a literal that is not a digit and not a comma, so the
    longest choice is the only one that can succeed and no backtracking is
    lost by taking it. *)

Fixpoint stripPrefix (p s : jsstring) {struct p} : option jsstring :=
  match p, s with
  | [], _ => Some s
  | c :: p', d :: s' => if N.eqb c d then stripPrefix p' s' else None
  | _ :: _, [] => None
  end.

(** Longest run of digits at the head of [s], and what follows it. *)
Fixpoint spanDigits (s : jsstring) : jsstring * jsstring :=
  match s with
  | c :: s' =>
      if isDigit c then let (d, r) := spanDigits s' in (c :: d, r)
      else ([], s)
  | [] => ([], [])
  end.

(** [(\d+)] *)
Definition digits1 (s : jsstring) : option (jsstring * jsstring) :=
  match spanDigits s with
  | ([], _) => None
  | (d, r) => Some (d, r)
  end.

(** [(?:,\d+)?] *)
Definition optCommaDigits (s : jsstring) : jsstring :=
  match stripPrefix (lit ",") s with
  | Some s' => match digits1 s' with
               | Some (_, r) => r
               | None => s
               end
  | None => s
  end.

(** The pattern matched at the head of [s]: capture groups 1 and 2. *)
Definition headerMatchAt (s : jsstring) : option (jsstring * jsstring) :=
  match stripPrefix (lit "@@ -") s with
  | None => None
  | Some s1 =>
      match digits1 s1 with
      | None => None
      | Some (g1, s2) =>
          match stripPrefix (lit " +") (optCommaDigits s2) with
          | None => None
          | Some s3 =>
              match digits1 s3 with
              | None => None
              | Some (g2, s4) =>
                  match stripPrefix (lit " @@") (optCommaDigits s4) with
                  | None => None
                  | Some _ => Some (g1, g2)
                  end
              end
          end
      end
  end.

(** [regex.exec(line)]: the pattern is not anchored, the leftmost position
    where it matches wins. *)
Fixpoint execHeader (line : jsstring) : option (jsstring * jsstring) :=
  match headerMatchAt line with
  | Some m => Some m
  | None => match line with
            | [] => None
            | _ :: rest => execHeader rest
            end
  end.

(* ------------------------------------------------------------------ *)
(** ** Patch parsing *)

Inductive HunkType := ADD_ONLY | DELETE_ONLY | REPLACE.

Definition HunkType_eqb (a b : HunkType) : bool :=
  match a, b with
  | ADD_ONLY, ADD_ONLY | DELETE_ONLY, DELETE_ONLY | REPLACE, REPLACE => true
  | _, _ => false
  end.

(** An entry of a hunk buffer: [{ content, lineNum }]. *)
Module HunkLine.
Record t := mk { content : jsstring; lineNum : Z }.
End HunkLine.

(** The in-progress hunk. *)
Module Hunk.
Record t := mk {
  removedLines : list HunkLine.t;
  addedLines : list HunkLine.t;
  startNewLine : Z;
  startOldLine : Z
}.
End Hunk.

(** An output record: [{ line, number, hunkType, removedLines }]. *)
Module AddedLine.
Record t := mk {
  line : jsstring;
  number : Z;
  hunkType : HunkType;
  removedLines : list HunkLine.t
}.
End AddedLine.

(** [/^\s*$/.test(lineContent)] *)
Definition isBlankLine (lineContent : jsstring) : bool :=
  forallb isWhiteSpace lineContent.

Definition determineHunkType
    (removedLines addedLines allAddedLines : list HunkLine.t) : HunkType :=
  if ((length removedLines =? 0) && (0 <? length addedLines))%nat
  then ADD_ONLY
  else if ((0 <? length removedLines) && (length addedLines =? 0))%nat
  then DELETE_ONLY
  else if ((0 <? length removedLines) && (0 <? length addedLines))%nat
  then REPLACE
  else if (0 <? length allAddedLines)%nat then ADD_ONLY else DELETE_ONLY.

Definition createEmptyHunk : Hunk.t :=
  Hunk.mk [] [] 0 0.

Definition nonBlank (l : HunkLine.t) : bool :=
  negb (isBlankLine (HunkLine.content l)).

(** [finalizeHunk(currentHunk, addedLines)]: the array [addedLines] is
    extended in place by the source; here the extended array is returned
    next to the fresh hunk. *)
Definition finalizeHunk (currentHunk : Hunk.t) (addedLines : list AddedLine.t)
    : Hunk.t * list AddedLine.t :=
  if ((length (Hunk.addedLines currentHunk) =? 0)
      && (length (Hunk.removedLines currentHunk) =? 0))%nat
  then (createEmptyHunk, addedLines)
  else
    let nonBlankRemoved := filter nonBlank (Hunk.removedLines currentHunk) in
    let nonBlankAdded := filter nonBlank (Hunk.addedLines currentHunk) in
    let hunkType :=
      determineHunkType nonBlankRemoved nonBlankAdded
                        (Hunk.addedLines currentHunk) in
    (createEmptyHunk,
     addedLines ++
       map (fun added =>
              AddedLine.mk (HunkLine.content added) (HunkLine.lineNum added)
                hunkType
                (if HunkType_eqb hunkType REPLACE
                 then Hunk.removedLines currentHunk else []))
           (Hunk.addedLines currentHunk)).

(** The hunk type that [finalizeHunk] computes for a buffer (its local
    constant [hunkType]). *)
Definition hunkTypeOf (h : Hunk.t) : HunkType :=
  determineHunkType (filter nonBlank (Hunk.removedLines h))
                    (filter nonBlank (Hunk.addedLines h))
                    (Hunk.addedLines h).

(** The records that a call of [finalizeHunk] pushes: what the array holds
    after the call beyond what it held before. *)
Definition emitted (h : Hunk.t) (out : list AddedLine.t) : list AddedLine.t :=
  skipn (length out) (snd (finalizeHunk h out)).

(** The local variables of [parsePatch]. *)
Module Parser.
Record t := mk {
  addedLines : list AddedLine.t;
  newLineNum : Z;
  oldLineNum : Z;
  currentHunk : Hunk.t
}.
End Parser.

Definition parserInit : Parser.t :=
  Parser.mk [] 0 0 createEmptyHunk.

(** One iteration of the loop [for (const line of lines)]. *)
Definition parseLine (st : Parser.t) (line : jsstring) : Parser.t :=
  let '(Parser.mk addedLines newLineNum oldLineNum currentHunk) := st in
  if startsWith line (lit "@@") then
    let (currentHunk, addedLines) := finalizeHunk currentHunk addedLines in
    match execHeader line with
    | Some (g1, g2) =>
        let oldLineNum := parseInt10 g1 in
        let newLineNum := parseInt10 g2 in
        Parser.mk addedLines newLineNum oldLineNum
          (Hunk.mk (Hunk.removedLines currentHunk) (Hunk.addedLines currentHunk)
                   newLineNum oldLineNum)
    | None => Parser.mk addedLines 0 0 currentHunk
    end
  else if startsWith line (lit "+") && negb (startsWith line (lit "+++")) then
    let content := substring1 line in
    Parser.mk addedLines (newLineNum + 1) oldLineNum
      (Hunk.mk (Hunk.removedLines currentHunk)
               (Hunk.addedLines currentHunk ++ [HunkLine.mk content newLineNum])
               (Hunk.startNewLine currentHunk) (Hunk.startOldLine currentHunk))
  else if startsWith line (lit "-") && negb (startsWith line (lit "---")) then
    let content := substring1 line in
    Parser.mk addedLines newLineNum (oldLineNum + 1)
      (Hunk.mk (Hunk.removedLines currentHunk ++ [HunkLine.mk content oldLineNum])
               (Hunk.addedLines currentHunk)
               (Hunk.startNewLine currentHunk) (Hunk.startOldLine currentHunk))
  else if negb (startsWith line (lit "\")) then
    let (currentHunk, addedLines) :=
      if ((0 <? length (Hunk.addedLines currentHunk))
          || (0 <? length (Hunk.removedLines currentHunk)))%nat
      then finalizeHunk currentHunk addedLines
      else (currentHunk, addedLines) in
    Parser.mk addedLines (newLineNum + 1) (oldLineNum + 1) currentHunk
  else st.

(** The loop over the lines, then the last [finalizeHunk]. *)
Definition parseLines (st : Parser.t) (lines : list jsstring) : Parser.t :=
  fold_left parseLine lines st.

Definition parseEnd (st : Parser.t) : list AddedLine.t :=
  snd (finalizeHunk (Parser.currentHunk st) (Parser.addedLines st)).

Definition parsePatch (patch : jsstring) : list AddedLine.t :=
  parseEnd (parseLines parserInit (split_lines patch)).

(* ------------------------------------------------------------------ *)
(** ** Reference numbering of added lines

    The definitions of this part do not come from [parsePatch]: they restate
    the specification's line-number tracking (section 4.1) on the list of
    input lines, so that the parser can be compared with it. *)

(** The five ways the loop of [parsePatch] treats a line, by its prefix. *)
Inductive LineKind :=
| HeaderLine | AddedLineK | RemovedLineK | ContextLine | AnnotationLine.

Definition lineKind (line : jsstring) : LineKind :=
  if startsWith line (lit "@@") then HeaderLine
  else if startsWith line (lit "+") && negb (startsWith line (lit "+++"))
  then AddedLineK
  else if startsWith line (lit "-") && negb (startsWith line (lit "---"))
  then RemovedLineK
  else if negb (startsWith line (lit "\")) then ContextLine
  else AnnotationLine.

(** The new-file start that a header line declares; zero when the line does
    not match the header pattern. *)
Definition headerNewStart (line : jsstring) : Z :=
  match execHeader line with
  | Some (_, g2) => parseInt10 g2
  | None => 0
  end.

Definition headerOldStart (line : jsstring) : Z :=
  match execHeader line with
  | Some (g1, _) => parseInt10 g1
  | None => 0
  end.

(** The new-file position after one line, from the position before it. *)
Definition advance (pos : Z) (line : jsstring) : Z :=
  match lineKind line with
  | HeaderLine => headerNewStart line
  | AddedLineK | ContextLine => pos + 1
  | RemovedLineK | AnnotationLine => pos
  end.

(** The added lines of the input, each with its header-relative position. *)
Fixpoint headerRelativeNumbers (pos : Z) (lines : list jsstring)
    : list (jsstring * Z) :=
  match lines with
  | [] => []
  | l :: rest =>
      match lineKind l with
      | AddedLineK => (substring1 l, pos) :: headerRelativeNumbers (pos + 1) rest
      | _ => headerRelativeNumbers (advance pos l) rest
      end
  end.

Definition isKind (k : LineKind) (line : jsstring) : bool :=
  match k, lineKind line with
  | HeaderLine, HeaderLine | AddedLineK, AddedLineK
  | RemovedLineK, RemovedLineK | ContextLine, ContextLine
  | AnnotationLine, AnnotationLine => true
  | _, _ => false
  end.

(** How many lines of [lines] are added lines, and how many move the
    new-file position (added and context lines). *)
Definition countAdded (lines : list jsstring) : nat :=
  length (filter (isKind AddedLineK) lines).

Definition countAddedOrContext (lines : list jsstring) : nat :=
  length (filter (fun l => isKind AddedLineK l || isKind ContextLine l) lines).

(** No line of [lines] is a header line. *)
Definition headerFree (lines : list jsstring) : Prop :=
  Forall (fun l => isKind HeaderLine l = false) lines.

(** Every header line declares a new start that is not below the position
    reached when it is met. *)
Fixpoint headersAdvance (pos : Z) (lines : list jsstring) : bool :=
  match lines with
  | [] => true
  | l :: rest =>
      match lineKind l with
      | HeaderLine =>
          (pos <=? headerNewStart l) && headersAdvance (headerNewStart l) rest
      | _ => headersAdvance (advance pos l) rest
      end
  end.





(** [Number.MAX_SAFE_INTEGER], 2^53 - 1.  The counters of the parser are
    JavaScript numbers: [parseInt] of a digit run and [++] are exact, and
    agree with [parseInt10] and [+ 1] of this model, as long as the values
    they produce do not exceed it.  [newCounterSafe] and [oldCounterSafe]
    say that the new-file counter, respectively the old-file counter, stays
    within it from the state [st] through every line of [lines]. *)
Definition MAX_SAFE_INTEGER : Z := 9007199254740991.

Fixpoint newCounterSafe (st : Parser.t) (lines : list jsstring) : bool :=
  (Parser.newLineNum st <=? MAX_SAFE_INTEGER)
  && match lines with
     | [] => true
     | l :: rest => newCounterSafe (parseLine st l) rest
     end.

Fixpoint oldCounterSafe (st : Parser.t) (lines : list jsstring) : bool :=
  (Parser.oldLineNum st <=? MAX_SAFE_INTEGER)
  && match lines with
     | [] => true
     | l :: rest => oldCounterSafe (parseLine st l) rest
     end.

(** Content and number of a record, content and number of a buffer entry. *)
Definition recordKey (r : AddedLine.t) : jsstring * Z :=
  (AddedLine.line r, AddedLine.number r).

Definition entryKey (e : HunkLine.t) : jsstring * Z :=
  (HunkLine.content e, HunkLine.lineNum e).

(** What the parser has numbered so far: the records already pushed, then
    the added entries still in the buffer. *)
Definition numberedSoFar (st : Parser.t) : list (jsstring * Z) :=
  map recordKey (Parser.addedLines st)
  ++ map entryKey (Hunk.addedLines (Parser.currentHunk st)).

(* ------------------------------------------------------------------ *)
(** ** Line classification *)

Inductive Category := CHURN | REWORK | NEW_WORK | HELP_OTHERS.

(** A JavaScript number that holds a quantity of days: a rational or
    not-a-number.  Comparisons with not-a-number are false. *)
Inductive jsnum := Num (q : Q) | NaN.

Definition jsle (a b : jsnum) : bool :=
  match a, b with
  | Num x, Num y => Qle_bool x y
  | _, _ => false
  end.

Definition jsgt (a b : jsnum) : bool :=
  match a, b with
  | Num x, Num y => negb (Qle_bool x y)
  | _, _ => false
  end.

(** A [Date] object.  Every [Date] object is truthy, the invalid one too. *)
Inductive jsdate := ValidDate (ms : Z) | InvalidDate.

(** A blame range as the GraphQL query returns it:
    [{ startingLine, endingLine, commit: { oid, committedDate,
       author: { name } } }]; [None] is a field that is null or missing. *)
Module BlameAuthor.
Record t := mk { name : option jsstring }.
End BlameAuthor.

Module BlameCommit.
Record t := mk {
  oid : option jsstring;
  committedDate : option jsstring;
  author : option BlameAuthor.t
}.
End BlameCommit.

Module BlameRange.
Record t := mk {
  startingLine : Z;
  endingLine : Z;
  commit : option BlameCommit.t
}.
End BlameRange.

(** The argument [blameRanges]: an array, or any value for which
    [Array.isArray] is false. *)
Inductive BlameInput :=
| BlameArray (ranges : list BlameRange.t)
| NotAnArray.

Module CommitInfo.
Record t := mk {
  author : option jsstring;
  commitOid : option jsstring;
  date : option jsdate
}.
End CommitInfo.

Module Classification.
Record t := mk {
  category : Category;
  prevAuthor : option jsstring;
  prevCommit : option jsstring;
  deltaDays : option jsnum
}.
End Classification.

(** [s || null] on a string or null: the empty string is falsy. *)
Definition orNull (s : option jsstring) : option jsstring :=
  match s with
  | Some (c :: r) => Some (c :: r)
  | _ => None
  end.

Definition MILLISECONDS_PER_DAY : positive := 86400000.

(** [currentDate - previousDate] converts both dates to their time values;
    the difference is not-a-number as soon as one of them is invalid. *)
Definition calculateDeltaDays (currentDate previousDate : jsdate) : jsnum :=
  match currentDate, previousDate with
  | ValidDate c, ValidDate p => Num ((c - p) # MILLISECONDS_PER_DAY)
  | _, _ => NaN
  end.

Section Classifier.

(** The runtime's date parser: the time value of [new Date(s)], [None]
    when [s] does not parse (the invalid date). *)
Variable dateParse : jsstring -> option Z.

Definition newDate (s : jsstring) : jsdate :=
  match dateParse s with
  | Some ms => ValidDate ms
  | None => InvalidDate
  end.

Definition extractCommitInfo (range : BlameRange.t) : CommitInfo.t :=
  let commit := BlameRange.commit range in
  let author :=
    orNull (match commit with
            | Some c => match BlameCommit.author c with
                        | Some a => BlameAuthor.name a
                        | None => None
                        end
            | None => None
            end) in
  let commitOid :=
    orNull (match commit with Some c => BlameCommit.oid c | None => None end) in
  let dateStr :=
    orNull (match commit with
            | Some c => BlameCommit.committedDate c
            | None => None
            end) in
  let date :=
    match dateStr with
    | Some s => Some (newDate s)
    | None => None
    end in
  CommitInfo.mk author commitOid date.

(** The callback of [blameRanges.find]. *)
Definition inRange (lineNum : Z) (r : BlameRange.t) : bool :=
  (BlameRange.startingLine r <=? lineNum)
  && (lineNum <=? BlameRange.endingLine r).

(** [prevAuthor === currentAuthor] on strings or null. *)
Definition sameAuthor (a b : option jsstring) : bool :=
  match a, b with
  | Some x, Some y => if list_eq_dec N.eq_dec x y then true else false
  | None, None => true
  | _, _ => false
  end.

Definition classifyLine (lineNum : Z) (hunkType : HunkType)
    (blameRanges : BlameInput) (currentAuthor : option jsstring)
    (currentDate : jsdate) (maxDeltaDays : jsnum) : Classification.t :=
  let blameRanges :=
    match blameRanges with
    | BlameArray ranges => ranges
    | NotAnArray => []
    end in
  match hunkType with
  | ADD_ONLY => Classification.mk NEW_WORK None None None
  | REPLACE =>
      match find (inRange lineNum) blameRanges with
      | None => Classification.mk NEW_WORK None None None
      | Some range =>
          let '(CommitInfo.mk prevAuthor prevCommit prevDate) :=
            extractCommitInfo range in
          match prevDate with
          | None => Classification.mk NEW_WORK prevAuthor prevCommit None
          | Some prevDate =>
              let deltaDays := calculateDeltaDays currentDate prevDate in
              let category :=
                if sameAuthor prevAuthor currentAuthor
                then (if jsle deltaDays maxDeltaDays then CHURN else REWORK)
                else HELP_OTHERS in
              Classification.mk category prevAuthor prevCommit (Some deltaDays)
          end
      end
  | DELETE_ONLY => Classification.mk NEW_WORK None None None
  end.

End Classifier.

(* ------------------------------------------------------------------ *)
(** ** Sample inputs *)

Definition entry (s : string) (n : Z) : HunkLine.t := HunkLine.mk (lit s) n.

(** Two blank removals, one non-blank addition. *)
Definition hunk_blank_removals : Hunk.t :=
  Hunk.mk [entry "  " 4; entry "" 5] [entry "x = 1;" 4] 4 4.

(** One non-blank removal, one blank addition. *)
Definition hunk_blank_addition : Hunk.t :=
  Hunk.mk [entry "old();" 7] [entry " " 7] 7 7.

(** One non-blank removal, a non-blank and a blank addition. *)
Definition hunk_replace : Hunk.t :=
  Hunk.mk [entry "old();" 7] [entry "new();" 7; entry "" 8] 7 7.

(** Only blank lines, one of them added. *)
Definition hunk_blank_both : Hunk.t :=
  Hunk.mk [entry "" 2] [entry " " 2] 2 2.

(** Only blank removals. *)
Definition hunk_blank_removed_only : Hunk.t :=
  Hunk.mk [entry "" 2] [] 2 2.

(** The first record of [hunk_replace] and the record of
    [hunk_blank_removals]. *)
Definition record_replace : AddedLine.t :=
  AddedLine.mk (lit "new();") 7 REPLACE [entry "old();" 7].

Definition record_add_only : AddedLine.t :=
  AddedLine.mk (lit "x = 1;") 4 ADD_ONLY [].

(** A date parser that knows two ISO timestamps, three weeks apart, and
    rejects every other string. *)
Definition jsstring_eqb (a b : jsstring) : bool :=
  if list_eq_dec N.eq_dec a b then true else false.

Definition sampleDateParse (s : jsstring) : option Z :=
  if jsstring_eqb s (lit "2024-01-01T00:00:00Z") then Some 1704067200000
  else if jsstring_eqb s (lit "2024-01-22T00:00:00Z") then Some 1705881600000
  else None.

Definition blame (first last : Z) (id date name : string) : BlameRange.t :=
  BlameRange.mk first last
    (Some (BlameCommit.mk (Some (lit id)) (Some (lit date))
             (Some (BlameAuthor.mk (Some (lit name)))))).

Definition range_alice : BlameRange.t :=
  blame 1 20 "a1b2c3d" "2024-01-01T00:00:00Z" "Alice".

Definition range_bob : BlameRange.t :=
  blame 10 30 "e4f5a6b" "2024-01-01T00:00:00Z" "Bob".

Definition range_bad_date : BlameRange.t :=
  blame 1 20 "invalid1" "not-a-date" "Alice".

(** A range whose commit has no date and an empty identifier. *)
Definition range_empty_oid : BlameRange.t :=
  BlameRange.mk 1 20
    (Some (BlameCommit.mk (Some (lit "")) None
             (Some (BlameAuthor.mk (Some (lit "Bob")))))).

(** A range whose commit has an empty date. *)
Definition range_empty_date : BlameRange.t :=
  blame 1 20 "empty1" "" "Bob".

Definition jan22 : jsdate := ValidDate 1705881600000.

Definition patch_new_file : jsstring :=
  unlines [lit "@@ -0,0 +1,2 @@"; lit "+a"; lit "+b"; lit ""].

(** Two hunks, the second of which declares an earlier new start. *)
Definition patch_headers_backwards : jsstring :=
  unlines [lit "@@ -1 +5 @@"; lit "+a"; lit "@@ -1 +1 @@"; lit "+b"].

(** Two hunks with a context line in the first; the second header
    declares an earlier start. *)
Definition patch_two_stretches : jsstring :=
  unlines [lit "@@ -1,1 +5,3 @@"; lit "+a"; lit " x"; lit "+b";
           lit "@@ -1 +1,2 @@"; lit "+c"; lit "+d"].

(** Two hunks in file order, with a line that begins with three minus
    signs in the first. *)
Definition patch_two_hunks : jsstring :=
  unlines [lit "@@ -3,2 +3,3 @@"; lit "+a"; lit "--- x"; lit "+b";
           lit "@@ -20,0 +21,1 @@"; lit "+c"].

(** An added line with no header before it. *)
Definition patch_no_header : jsstring := lit "+a".

(** A header that the pattern rejects, between two added lines. *)
Definition patch_bad_header : jsstring :=
  unlines [lit "@@ -3,2 +7,3 @@"; lit "+a"; lit "@@ broken"; lit "+b"].

(** An added line whose content starts with two plus signs. *)
Definition patch_plus_plus : jsstring :=
  unlines [lit "@@ -1,1 +1,3 @@"; lit "+a"; lit "+++i;"; lit "+c"].

(** The parser after the first two lines of [patch_plus_plus]. *)
Definition state_after_one_added : Parser.t :=
  Parser.mk [] 2 1 (Hunk.mk [] [entry "a" 1] 1 1).

(* ------------------------------------------------------------------ *)
(** ** Blame retrieval: [getFileBlameFiltered]

    The GraphQL call is the only effect of the function.  Its outcome is
    either an exception or a response; of the response the function reads
    [res?.repository?.object], its [__typename] and [blame?.ranges]. *)

Module GitObject.
Record t := mk {
  typename : jsstring;
  (** [obj.blame?.ranges], [None] when [blame] or [ranges] is missing. *)
  blameRanges : option (list BlameRange.t)
}.
End GitObject.

Inductive GraphqlOutcome :=
| GraphqlThrows
| GraphqlResponse (object : option GitObject.t).

(** The client: owner, repository, commit expression and path of the query
    variables. *)
Definition GraphqlClient : Type :=
  jsstring -> jsstring -> jsstring -> jsstring -> GraphqlOutcome.

Module BlameResult.
Record t := mk { ranges : list BlameRange.t; filteredCount : Z }.
End BlameResult.

(** [prShas.has(oid)] for a set of strings and a string or null. *)
Definition setHas (prShas : list jsstring) (oid : option jsstring) : bool :=
  match oid with
  | Some s => existsb (jsstring_eqb s) prShas
  | None => false
  end.

(** The callback of [ranges.filter]:
    [r => !(r.commit && prShas.has(r.commit.oid))]. *)
Definition notFromPR (prShas : list jsstring) (r : BlameRange.t) : bool :=
  negb (match BlameRange.commit r with
        | Some c => setHas prShas (BlameCommit.oid c)
        | None => false
        end).

Definition getFileBlameFiltered (graphqlClient : GraphqlClient)
    (filePath baseRef : jsstring) (prShas : list jsstring)
    (owner repo : jsstring) : BlameResult.t :=
  match graphqlClient owner repo baseRef filePath with
  | GraphqlThrows => BlameResult.mk [] 0
  | GraphqlResponse None => BlameResult.mk [] 0
  | GraphqlResponse (Some obj) =>
      if negb (jsstring_eqb (GitObject.typename obj) (lit "Commit"))
      then BlameResult.mk [] 0
      else
        let ranges :=
          match GitObject.blameRanges obj with
          | Some ranges => ranges
          | None => []
          end in
        let filtered := filter (notFromPR prShas) ranges in
        let filteredCount :=
          Z.of_nat (length ranges) - Z.of_nat (length filtered) in
        BlameResult.mk filtered filteredCount
  end.

(* ------------------------------------------------------------------ *)
(** ** Last commit per file: [extractCommitAuthorAndDate] and
    [buildLastCommitByFile] *)

(** What the code reads of the details of a commit:
    [commit?.author?.name], [commit?.author?.date] and the file names of
    [files]. *)
Module CommitDetails.
Record t := mk {
  authorName : option jsstring;
  authorDate : option jsstring;
  files : option (list jsstring)
}.
End CommitDetails.

(** An entry of the commit list of the pull request: [sha] and
    [author?.login]. *)
Module CommitSummary.
Record t := mk { sha : jsstring; authorLogin : option jsstring }.
End CommitSummary.

Module LastCommit.
Record t := mk { author : jsstring; date : jsdate; sha : jsstring }.
End LastCommit.

(** [a || b] on strings or null. *)
Definition orElse (a b : option jsstring) : option jsstring :=
  match orNull a with
  | Some s => Some s
  | None => orNull b
  end.

(** [a || "unknown"] *)
Definition orUnknown (a : option jsstring) : jsstring :=
  match orNull a with
  | Some s => s
  | None => lit "unknown"
  end.

(** A JavaScript [Map] with string keys, in insertion order. *)
Definition jsmap (V : Type) : Type := list (jsstring * V).

Fixpoint mapGet {V : Type} (k : jsstring) (m : jsmap V) : option V :=
  match m with
  | [] => None
  | (k', v) :: rest => if jsstring_eqb k' k then Some v else mapGet k rest
  end.

Definition mapHas {V : Type} (k : jsstring) (m : jsmap V) : bool :=
  match mapGet k m with
  | Some _ => true
  | None => false
  end.

Fixpoint mapSet {V : Type} (k : jsstring) (v : V) (m : jsmap V) : jsmap V :=
  match m with
  | [] => [(k, v)]
  | (k', v') :: rest =>
      if jsstring_eqb k' k then (k', v) :: rest
      else (k', v') :: mapSet k v rest
  end.

Section LastCommits.

(** The runtime's date parser, the reading of the clock ([new Date()]),
    taken as one value for the run, and the outcome of
    [fetchCommitDetails] for a commit: the details, or [None] for the null
    it returns when the request fails.  The service is taken to answer the
    same for the same commit. *)
Variable dateParse : jsstring -> option Z.
Variable now : jsdate.
Variable fetchCommitDetails : jsstring -> option CommitDetails.t.

Definition extractCommitAuthorAndDate (commitDetails : option CommitDetails.t)
    (commitSummary : CommitSummary.t) (fallbackAuthor : option jsstring)
    : jsstring * jsdate :=
  let author :=
    orUnknown
      (orElse
         (orElse (match commitDetails with
                  | Some d => CommitDetails.authorName d
                  | None => None
                  end)
                 (CommitSummary.authorLogin commitSummary))
         fallbackAuthor) in
  let date :=
    match orNull (match commitDetails with
                  | Some d => CommitDetails.authorDate d
                  | None => None
                  end) with
    | Some s => newDate dateParse s
    | None => now
    end in
  (author, date).

(** The inner loop [for (const file of files)]. *)
Definition recordFiles (entry : LastCommit.t) (files : list jsstring)
    (lastCommitByFile : jsmap LastCommit.t) : jsmap LastCommit.t :=
  fold_left
    (fun m filename => if mapHas filename m then m else mapSet filename entry m)
    files lastCommitByFile.

(** One iteration of the outer loop, on the map and the cache. *)
Definition lastCommitStep (prAuthor : option jsstring)
    (st : jsmap LastCommit.t * jsmap CommitDetails.t)
    (commitSummary : CommitSummary.t)
    : jsmap LastCommit.t * jsmap CommitDetails.t :=
  let (lastCommitByFile, commitDetailsCache) := st in
  let sha := CommitSummary.sha commitSummary in
  let fetched :=
    match mapGet sha commitDetailsCache with
    | Some d => Some (d, commitDetailsCache)
    | None =>
        match fetchCommitDetails sha with
        | Some d => Some (d, mapSet sha d commitDetailsCache)
        | None => None
        end
    end in
  match fetched with
  | None => st
  | Some (commitDetails, commitDetailsCache) =>
      let (author, date) :=
        extractCommitAuthorAndDate (Some commitDetails) commitSummary prAuthor in
      let files :=
        match CommitDetails.files commitDetails with
        | Some files => files
        | None => []
        end in
      (recordFiles (LastCommit.mk author date sha) files lastCommitByFile,
       commitDetailsCache)
  end.

(** The commits come oldest first and are walked from the last one down. *)
Definition buildLastCommitByFile (prCommits : list CommitSummary.t)
    (prAuthor : option jsstring) : jsmap LastCommit.t :=
  fst (fold_left (lastCommitStep prAuthor) (rev prCommits) ([], [])).

End LastCommits.

(* ------------------------------------------------------------------ *)
(** ** File analysis: [analyzeFile] and the accumulation of [main] *)

Definition Category_eqb (a b : Category) : bool :=
  match a, b with
  | CHURN, CHURN | REWORK, REWORK | NEW_WORK, NEW_WORK
  | HELP_OTHERS, HELP_OTHERS => true
  | _, _ => false
  end.

(** A summary object: its category keys with their counts, in insertion
    order. *)
Definition Summary : Type := list (Category * Z).

Fixpoint summaryGet (c : Category) (s : Summary) : option Z :=
  match s with
  | [] => None
  | (k, v) :: rest => if Category_eqb k c then Some v else summaryGet c rest
  end.

(** [summary[c] = (summary[c] || 0) + n] *)
Fixpoint summaryAdd (c : Category) (n : Z) (s : Summary) : Summary :=
  match s with
  | [] => [(c, 0 + n)]
  | (k, v) :: rest =>
      if Category_eqb k c then (k, v + n) :: rest
      else (k, v) :: summaryAdd c n rest
  end.

(** A file of the pull request: [filename] and [patch]. *)
Module PRFile.
Record t := mk { filename : jsstring; patch : option jsstring }.
End PRFile.

Module Detail.
Record t := mk {
  archivo : jsstring;
  linea : Z;
  contenido : jsstring;
  tipoHunk : HunkType;
  categoria : Category;
  autorActual : jsstring;
  autorPrevio : option jsstring;
  commitPrevio : option jsstring;
  deltaDias : option jsnum
}.
End Detail.

Module FileAnalysis.
Record t := mk { summary : Summary; details : list Detail.t }.
End FileAnalysis.

Section Analysis.

Variable dateParse : jsstring -> option Z.

(** The body of the loop [for (const addedLine of addedLines)]. *)
Definition analyzeLine (filename : jsstring) (blameRanges : list BlameRange.t)
    (currentAuthor : jsstring) (currentDate : jsdate) (maxDeltaDays : jsnum)
    (acc : FileAnalysis.t) (addedLine : AddedLine.t) : FileAnalysis.t :=
  let result :=
    classifyLine dateParse (AddedLine.number addedLine)
      (AddedLine.hunkType addedLine) (BlameArray blameRanges)
      (Some currentAuthor) currentDate maxDeltaDays in
  FileAnalysis.mk
    (summaryAdd (Classification.category result) 1 (FileAnalysis.summary acc))
    (FileAnalysis.details acc
     ++ [Detail.mk filename (AddedLine.number addedLine)
           (AddedLine.line addedLine) (AddedLine.hunkType addedLine)
           (Classification.category result) currentAuthor
           (Classification.prevAuthor result)
           (Classification.prevCommit result)
           (Classification.deltaDays result)]).

Definition analyzeFile (file : PRFile.t) (graphqlClient : GraphqlClient)
    (baseRef : jsstring) (prShas : list jsstring)
    (lastCommitByFile : jsmap LastCommit.t) (prAuthor : option jsstring)
    (prDate : jsdate) (maxDeltaDays : jsnum) (owner repo : jsstring)
    : FileAnalysis.t :=
  match orNull (PRFile.patch file) with
  | None => FileAnalysis.mk [] []
  | Some patch =>
      let addedLines := parsePatch patch in
      let blameRanges :=
        BlameResult.ranges
          (getFileBlameFiltered graphqlClient (PRFile.filename file) baseRef
             prShas owner repo) in
      let lastCommit := mapGet (PRFile.filename file) lastCommitByFile in
      let currentAuthor :=
        orUnknown (orElse (option_map LastCommit.author lastCommit) prAuthor) in
      let currentDate :=
        match lastCommit with
        | Some c => LastCommit.date c
        | None => prDate
        end in
      fold_left
        (analyzeLine (PRFile.filename file) blameRanges currentAuthor
           currentDate maxDeltaDays)
        addedLines (FileAnalysis.mk [] [])
  end.

(** The summary of [main] before the first file. *)
Definition initialSummary : Summary :=
  [(CHURN, 0); (REWORK, 0); (NEW_WORK, 0); (HELP_OTHERS, 0)].

(** The loop [for (const file of prFiles)] of [main]. *)
Definition analyzeFiles (prFiles : list PRFile.t)
    (graphqlClient : GraphqlClient) (baseRef : jsstring)
    (prShas : list jsstring) (lastCommitByFile : jsmap LastCommit.t)
    (prAuthor : option jsstring) (prDate : jsdate) (maxDeltaDays : jsnum)
    (owner repo : jsstring) : Summary * list Detail.t :=
  fold_left
    (fun (acc : Summary * list Detail.t) file =>
       let (summary, allDetails) := acc in
       let r := analyzeFile file graphqlClient baseRef prShas lastCommitByFile
                  prAuthor prDate maxDeltaDays owner repo in
       (fold_left (fun s (e : Category * Z) => summaryAdd (fst e) (snd e) s)
          (FileAnalysis.summary r) summary,
        allDetails ++ FileAnalysis.details r))
    prFiles (initialSummary, []).

End Analysis.

(* ------------------------------------------------------------------ *)
(** ** Configuration: [loadConfiguration] and [loadPrivateKey] *)

(** [parseInt(s, 10)]: leading white space is skipped, a sign is read, then
    the longest run of decimal digits; [None] is not-a-number, the result
    when there is no digit.  The value is exact below 2^53. *)
Fixpoint trimStart (s : jsstring) : jsstring :=
  match s with
  | c :: rest => if isWhiteSpace c then trimStart rest else s
  | [] => []
  end.

Definition parseIntJS (s : jsstring) : option Z :=
  let t := trimStart s in
  let (negative, body) :=
    match t with
    | c :: rest =>
        if N.eqb c 45 then (true, rest)
        else if N.eqb c 43 then (false, rest)
        else (false, t)
    | [] => (false, t)
    end in
  match spanDigits body with
  | ([], _) => None
  | (digits, _) =>
      Some (if negative then - parseInt10 digits else parseInt10 digits)
  end.

(** The environment variables that the program reads; [None] is a variable
    that is not set. *)
Module Env.
Record t := mk {
  APP_ID : option jsstring;
  PRIVATE_KEY_PATH : option jsstring;
  PRIVATE_KEY : option jsstring;
  INSTALLATION_ID : option jsstring;
  REPO_OWNER : option jsstring;
  REPO_NAME : option jsstring;
  PR_NUMBER : option jsstring;
  MAX_DELTA_DAYS : option jsstring;
  OUTPUT_JSON : option jsstring;
  OUTPUT_DIR : option jsstring
}.
End Env.

(** A number that came out of [parseInt], or undefined. *)
Inductive jsint := IntNum (n : Z) | IntNaN | IntUndefined.

Module Config.
Record t := mk {
  appId : option jsstring;
  privateKeyPath : option jsstring;
  privateKeyRaw : option jsstring;
  installationId : option jsstring;
  owner : option jsstring;
  repo : option jsstring;
  prNumber : jsint;
  maxDeltaDays : jsint;
  outputPath : option jsstring;
  outputDir : jsstring
}.
End Config.

Definition DEFAULT_MAX_DELTA_DAYS : jsstring := lit "21".
Definition DEFAULT_OUTPUT_DIR : jsstring := lit "output".

Definition parseIntNum (s : jsstring) : jsint :=
  match parseIntJS s with
  | Some n => IntNum n
  | None => IntNaN
  end.

(** Truthiness of a string or undefined, and of a number or undefined. *)
Definition truthyStr (s : option jsstring) : bool :=
  match orNull s with
  | Some _ => true
  | None => false
  end.

Definition truthyInt (n : jsint) : bool :=
  match n with
  | IntNum n => negb (n =? 0)
  | IntNaN | IntUndefined => false
  end.

(** [loadConfiguration()]; [None] is the exit of the process with status 1. *)
Definition loadConfiguration (env : Env.t) : option Config.t :=
  let config :=
    Config.mk (Env.APP_ID env) (Env.PRIVATE_KEY_PATH env)
      (Env.PRIVATE_KEY env) (Env.INSTALLATION_ID env) (Env.REPO_OWNER env)
      (Env.REPO_NAME env)
      (match orNull (Env.PR_NUMBER env) with
       | Some s => parseIntNum s
       | None => IntUndefined
       end)
      (parseIntNum
         (match orNull (Env.MAX_DELTA_DAYS env) with
          | Some s => s
          | None => DEFAULT_MAX_DELTA_DAYS
          end))
      (Env.OUTPUT_JSON env)
      (match orNull (Env.OUTPUT_DIR env) with
       | Some s => s
       | None => DEFAULT_OUTPUT_DIR
       end) in
  if negb (truthyStr (Config.appId config))
     || (negb (truthyStr (Config.privateKeyPath config))
         && negb (truthyStr (Config.privateKeyRaw config)))
     || negb (truthyStr (Config.installationId config))
     || negb (truthyStr (Config.owner config))
     || negb (truthyStr (Config.repo config))
     || negb (truthyInt (Config.prNumber config))
  then None
  else Some config.

(** The threshold as [classifyLine] receives it from [main]. *)
Definition thresholdOf (n : jsint) : jsnum :=
  match n with
  | IntNum n => Num (inject_Z n)
  | IntNaN | IntUndefined => NaN
  end.

(** [raw.replace(/\\n/g, "\n")]: every backslash followed by the letter n
    becomes a line feed. *)
Fixpoint unescapeNewlines (raw : jsstring) : jsstring :=
  match raw with
  | [] => []
  | c :: rest =>
      match rest with
      | d :: rest' =>
          if N.eqb c 92 && N.eqb d 110 then LF :: unescapeNewlines rest'
          else c :: unescapeNewlines rest
      | [] => [c]
      end
  end.

(** The ways [loadPrivateKey] ends: with the key, with the exit of the
    process after a failed read, or with the type error of calling
    [replace] on undefined. *)
Inductive KeyOutcome :=
| KeyLoaded (key : jsstring)
| KeyExit
| KeyTypeError.

Section PrivateKey.

(** [fs.readFileSync(path, "utf8")]: the content, or [None] when it
    throws. *)
Variable readFileSync : jsstring -> option jsstring.

Definition loadPrivateKey (privateKeyPath privateKeyRaw : option jsstring)
    : KeyOutcome :=
  match orNull privateKeyPath with
  | Some path =>
      match readFileSync path with
      | Some content => KeyLoaded content
      | None => KeyExit
      end
  | None =>
      match privateKeyRaw with
      | Some raw => KeyLoaded (unescapeNewlines raw)
      | None => KeyTypeError
      end
  end.

End PrivateKey.

(* ------------------------------------------------------------------ *)
(** ** More sample inputs *)

(** A blank line added where a line of code was removed. *)
Definition patch_blank_for_code : jsstring :=
  unlines [lit "@@ -3,1 +3,1 @@"; lit "-return x;"; lit "+  "].

(** Two blank lines removed, one line added, then a context line. *)
Definition patch_blank_removals : jsstring :=
  unlines [lit "@@ -4,3 +4,2 @@"; lit "-"; lit "-  "; lit "+y"; lit " z"].

(** A range whose commit belongs to the pull request, and the identifiers
    of the commits of the pull request. *)
Definition range_pr : BlameRange.t :=
  blame 21 30 "feedbeef" "2024-01-22T00:00:00Z" "Alice".

Definition range_no_commit : BlameRange.t := BlameRange.mk 40 50 None.

Definition sample_prShas : list jsstring := [lit "feedbeef"; lit "0ddba11"].

(** A client that answers with three ranges for [src/app.js], with a tree
    for [docs], and throws for every other path. *)
Definition sampleClient : GraphqlClient :=
  fun owner repo baseRef path =>
    if jsstring_eqb path (lit "src/app.js")
    then GraphqlResponse
           (Some (GitObject.mk (lit "Commit")
                    (Some [range_alice; range_pr; range_no_commit])))
    else if jsstring_eqb path (lit "docs")
    then GraphqlResponse (Some (GitObject.mk (lit "Tree") None))
    else GraphqlThrows.

(** Three commits of a pull request, oldest first.  The first two touch
    [src/app.js]; the details of the third cannot be fetched. *)
Definition sample_commits : list CommitSummary.t :=
  [CommitSummary.mk (lit "0ddba11") (Some (lit "alice-gh"));
   CommitSummary.mk (lit "feedbeef") (Some (lit "bob-gh"));
   CommitSummary.mk (lit "deadc0de") None].

Definition sampleFetch (sha : jsstring) : option CommitDetails.t :=
  if jsstring_eqb sha (lit "0ddba11")
  then Some (CommitDetails.mk (Some (lit "Alice"))
               (Some (lit "2024-01-01T00:00:00Z"))
               (Some [lit "src/app.js"; lit "README.md"]))
  else if jsstring_eqb sha (lit "feedbeef")
  then Some (CommitDetails.mk (Some (lit "")) None
               (Some [lit "src/app.js"; lit "src/app.js"]))
  else None.

(** Two files of a pull request: one with a replace hunk and an added
    line, one without a patch. *)
Definition file_app : PRFile.t :=
  PRFile.mk (lit "src/app.js")
    (Some (unlines [lit "@@ -20,1 +20,1 @@"; lit "-old();"; lit "+new();";
                    lit " keep();"; lit "+extra();"])).

Definition file_binary : PRFile.t := PRFile.mk (lit "logo.png") None.

(** A file whose blame query throws. *)
Definition file_other : PRFile.t :=
  PRFile.mk (lit "lib/util.js")
    (Some (unlines [lit "@@ -1,1 +1,1 @@"; lit "-a"; lit "+b"])).

Definition sample_lastCommits : jsmap LastCommit.t :=
  buildLastCommitByFile sampleDateParse jan22 sampleFetch sample_commits
    (Some (lit "carol")).

(** An environment with every required variable, a pull request number
    followed by other characters, and a threshold that is not a number. *)
Definition sample_env : Env.t :=
  Env.mk (Some (lit "12345")) None (Some (lit "-----BEGIN\nKEY\n-----END"))
    (Some (lit "678")) (Some (lit "octo")) (Some (lit "repo"))
    (Some (lit " 42abc")) (Some (lit "three weeks")) None (Some (lit "")).

(** The same environment without the pull request number. *)
Definition env_without_pr : Env.t :=
  Env.mk (Some (lit "12345")) None (Some (lit "key"))
    (Some (lit "678")) (Some (lit "octo")) (Some (lit "repo"))
    (Some (lit "0")) None None None.

(** A file system with one readable file. *)
Definition sampleReadFile (path : jsstring) : option jsstring :=
  if jsstring_eqb path (lit "key.pem") then Some (lit "PEM") else None.

(* ================================================================== *)
(** * Properties of the hunk classifier *)

Definition blankEntry (l : HunkLine.t) : Prop :=
  isBlankLine (HunkLine.content l) = true.

Definition nonBlankEntry (l : HunkLine.t) : Prop :=
  isBlankLine (HunkLine.content l) = false.

Section HunkFacts.

Lemma isBlankLine_spec (s : jsstring) :
  isBlankLine s = true <-> Forall (fun c => isWhiteSpace c = true) s.
Proof.
  unfold isBlankLine. rewrite forallb_forall, Forall_forall. reflexivity.
Qed.

Lemma filter_nonBlank_nil (l : list HunkLine.t) :
  filter nonBlank l = [] <-> Forall blankEntry l.
Proof.
  induction l as [|x l IH]; simpl.
  - split; [constructor | reflexivity].
  - unfold nonBlank at 1, blankEntry.
    destruct (isBlankLine (HunkLine.content x)) eqn:E; simpl.
    + rewrite IH. split; intro H.
      * constructor; assumption.
      * inversion H; assumption.
    + split; [discriminate|]. intro H. inversion H; subst.
      unfold blankEntry in *. congruence.
Qed.

Lemma filter_nonBlank_cons (l : list HunkLine.t) :
  filter nonBlank l <> [] <-> Exists nonBlankEntry l.
Proof.
  induction l as [|x l IH]; simpl.
  - split; [congruence | intro H; inversion H].
  - unfold nonBlank at 1, nonBlankEntry.
    destruct (isBlankLine (HunkLine.content x)) eqn:E; simpl.
    + rewrite IH. split; intro H.
      * right; assumption.
      * inversion H; subst; [congruence | assumption].
    + split; [intros _; left; assumption | discriminate].
Qed.

Lemma Forall_blank_not_Exists (l : list HunkLine.t) :
  Forall blankEntry l -> Exists nonBlankEntry l -> False.
Proof.
  intros HF HE. apply filter_nonBlank_nil in HF.
  apply filter_nonBlank_cons in HE. contradiction.
Qed.

Lemma determineHunkType_cases (r a all : list HunkLine.t) :
  determineHunkType r a all =
    match r, a with
    | [], _ :: _ => ADD_ONLY
    | _ :: _, [] => DELETE_ONLY
    | _ :: _, _ :: _ => REPLACE
    | [], [] => match all with [] => DELETE_ONLY | _ :: _ => ADD_ONLY end
    end.
Proof. destruct r, a, all; reflexivity. Qed.

Lemma finalizeHunk_snd (h : Hunk.t) (out : list AddedLine.t) :
  snd (finalizeHunk h out) =
    out ++ map (fun added =>
                  AddedLine.mk (HunkLine.content added)
                    (HunkLine.lineNum added) (hunkTypeOf h)
                    (if HunkType_eqb (hunkTypeOf h) REPLACE
                     then Hunk.removedLines h else []))
               (Hunk.addedLines h).
Proof.
  unfold finalizeHunk, hunkTypeOf.
  destruct (Hunk.addedLines h) as [|a l] eqn:Ea; simpl.
  - destruct (length (Hunk.removedLines h) =? 0)%nat; simpl;
      rewrite app_nil_r; reflexivity.
  - reflexivity.
Qed.

Lemma finalizeHunk_fst (h : Hunk.t) (out : list AddedLine.t) :
  fst (finalizeHunk h out) = createEmptyHunk.
Proof.
  unfold finalizeHunk.
  destruct ((length (Hunk.addedLines h) =? 0)%nat
            && (length (Hunk.removedLines h) =? 0)%nat); reflexivity.
Qed.

Lemma emitted_eq (h : Hunk.t) (out : list AddedLine.t) :
  emitted h out =
    map (fun added =>
           AddedLine.mk (HunkLine.content added)
             (HunkLine.lineNum added) (hunkTypeOf h)
             (if HunkType_eqb (hunkTypeOf h) REPLACE
              then Hunk.removedLines h else []))
        (Hunk.addedLines h).
Proof.
  unfold emitted. rewrite finalizeHunk_snd.
  rewrite skipn_app, skipn_all, Nat.sub_diag. reflexivity.
Qed.

Lemma finalizeHunk_parts (h : Hunk.t)
    (out : list AddedLine.t) :
  fst (finalizeHunk h out) = createEmptyHunk
  /\ snd (finalizeHunk h out) = out ++ emitted h out.
Proof.
  split; [apply finalizeHunk_fst|].
  rewrite emitted_eq. apply finalizeHunk_snd.
Qed.

End HunkFacts.

(** The types of the records that [finalizeHunk] pushes: the type of the
    buffer, once for each raw added line. *)
Lemma emitted_types (h : Hunk.t) (out : list AddedLine.t) :
  map AddedLine.hunkType (emitted h out)
  = repeat (hunkTypeOf h) (length (Hunk.addedLines h)).
Proof.
  rewrite emitted_eq, map_map. cbn [AddedLine.hunkType].
  induction (Hunk.addedLines h) as [|a l IH]; [reflexivity|].
  cbn [map length repeat]. rewrite IH. reflexivity.
Qed.

(** C3. The hunk type is read off the non-blank removed and added lines of
    the buffer, a line being blank when every code unit of it is white
    space: no non-blank removal and some non-blank addition is add-only;
    some non-blank removal and no non-blank addition is delete-only; both
    is replace; neither is add-only when a line was added at all and
    delete-only otherwise.  [finalizeHunk] appends to the output one record
    for each raw added line of the buffer, and every one of them carries
    that type. *)
Theorem hunk_type_by_nonblank_lines (h : Hunk.t) (out : list AddedLine.t) :
  (forall s : jsstring,
      isBlankLine s = true <-> Forall (fun c => isWhiteSpace c = true) s)
  /\ snd (finalizeHunk h out) = out ++ emitted h out
  /\ length (emitted h out) = length (Hunk.addedLines h)
  /\ (Forall blankEntry (Hunk.removedLines h) ->
      Exists nonBlankEntry (Hunk.addedLines h) ->
      hunkTypeOf h = ADD_ONLY
      /\ map AddedLine.hunkType (emitted h out)
         = repeat ADD_ONLY (length (Hunk.addedLines h)))
  /\ (Exists nonBlankEntry (Hunk.removedLines h) ->
      Forall blankEntry (Hunk.addedLines h) ->
      hunkTypeOf h = DELETE_ONLY
      /\ map AddedLine.hunkType (emitted h out)
         = repeat DELETE_ONLY (length (Hunk.addedLines h)))
  /\ (Exists nonBlankEntry (Hunk.removedLines h) ->
      Exists nonBlankEntry (Hunk.addedLines h) ->
      hunkTypeOf h = REPLACE
      /\ map AddedLine.hunkType (emitted h out)
         = repeat REPLACE (length (Hunk.addedLines h)))
  /\ (Forall blankEntry (Hunk.removedLines h) ->
      Forall blankEntry (Hunk.addedLines h) ->
      Hunk.addedLines h <> [] ->
      hunkTypeOf h = ADD_ONLY
      /\ map AddedLine.hunkType (emitted h out)
         = repeat ADD_ONLY (length (Hunk.addedLines h)))
  /\ (Forall blankEntry (Hunk.removedLines h) ->
      Forall blankEntry (Hunk.addedLines h) ->
      Hunk.addedLines h = [] ->
      hunkTypeOf h = DELETE_ONLY /\ emitted h out = [])
  /\ Forall (fun r => AddedLine.hunkType r = hunkTypeOf h) (emitted h out).
Proof.
  split; [exact isBlankLine_spec|].
  split; [apply finalizeHunk_parts|].
  split; [rewrite emitted_eq; apply length_map|].
  assert (Hadd : Forall blankEntry (Hunk.removedLines h) ->
                 Exists nonBlankEntry (Hunk.addedLines h) ->
                 hunkTypeOf h = ADD_ONLY).
  { intros HR HA. unfold hunkTypeOf. rewrite determineHunkType_cases.
    apply filter_nonBlank_nil in HR. apply filter_nonBlank_cons in HA.
    rewrite HR. destruct (filter nonBlank (Hunk.addedLines h)); congruence. }
  assert (Hdel : Exists nonBlankEntry (Hunk.removedLines h) ->
                 Forall blankEntry (Hunk.addedLines h) ->
                 hunkTypeOf h = DELETE_ONLY).
  { intros HR HA. unfold hunkTypeOf. rewrite determineHunkType_cases.
    apply filter_nonBlank_cons in HR. apply filter_nonBlank_nil in HA.
    rewrite HA. destruct (filter nonBlank (Hunk.removedLines h)); congruence. }
  assert (Hrep : Exists nonBlankEntry (Hunk.removedLines h) ->
                 Exists nonBlankEntry (Hunk.addedLines h) ->
                 hunkTypeOf h = REPLACE).
  { intros HR HA. unfold hunkTypeOf. rewrite determineHunkType_cases.
    apply filter_nonBlank_cons in HR. apply filter_nonBlank_cons in HA.
    destruct (filter nonBlank (Hunk.removedLines h)); [congruence|].
    destruct (filter nonBlank (Hunk.addedLines h)); congruence. }
  assert (Hblank : Forall blankEntry (Hunk.removedLines h) ->
                   Forall blankEntry (Hunk.addedLines h) ->
                   hunkTypeOf h
                   = match Hunk.addedLines h with
                     | [] => DELETE_ONLY
                     | _ :: _ => ADD_ONLY
                     end).
  { intros HR HA. unfold hunkTypeOf. rewrite determineHunkType_cases.
    apply filter_nonBlank_nil in HR. apply filter_nonBlank_nil in HA.
    rewrite HR, HA. reflexivity. }
  split.
  { intros HR HA. rewrite emitted_types, (Hadd HR HA). split; reflexivity. }
  split.
  { intros HR HA. rewrite emitted_types, (Hdel HR HA). split; reflexivity. }
  split.
  { intros HR HA. rewrite emitted_types, (Hrep HR HA). split; reflexivity. }
  split.
  { intros HR HA Hne. rewrite emitted_types, (Hblank HR HA).
    destruct (Hunk.addedLines h); [congruence | split; reflexivity]. }
  split.
  { intros HR HA He. rewrite emitted_eq, (Hblank HR HA), He.
    split; reflexivity. }
  rewrite emitted_eq, Forall_map. apply Forall_forall. intros x _. reflexivity.
Qed.

(** [finalizeHunk] on the five sample buffers: the types of the records it
    appends to an empty output. *)
Lemma hunk_type_by_nonblank_lines_witness :
  map AddedLine.hunkType (snd (finalizeHunk hunk_blank_removals []))
  = [ADD_ONLY]
  /\ map AddedLine.hunkType (snd (finalizeHunk hunk_blank_addition []))
     = [DELETE_ONLY]
  /\ map AddedLine.hunkType (snd (finalizeHunk hunk_replace []))
     = [REPLACE; REPLACE]
  /\ map AddedLine.hunkType (snd (finalizeHunk hunk_blank_both []))
     = [ADD_ONLY]
  /\ (hunkTypeOf hunk_blank_removed_only = DELETE_ONLY
      /\ snd (finalizeHunk hunk_blank_removed_only []) = []).
Proof.
  split; [|split; [|split; [|split]]].
  - destruct (hunk_type_by_nonblank_lines hunk_blank_removals [])
      as (_ & Hs & _ & H & _).
    rewrite Hs. cbn [app].
    apply H; [repeat constructor | left; reflexivity].
  - destruct (hunk_type_by_nonblank_lines hunk_blank_addition [])
      as (_ & Hs & _ & _ & H & _).
    rewrite Hs. cbn [app].
    apply H; [left; reflexivity | repeat constructor].
  - destruct (hunk_type_by_nonblank_lines hunk_replace [])
      as (_ & Hs & _ & _ & _ & H & _).
    rewrite Hs. cbn [app].
    apply H; left; reflexivity.
  - destruct (hunk_type_by_nonblank_lines hunk_blank_both [])
      as (_ & Hs & _ & _ & _ & _ & H & _).
    rewrite Hs. cbn [app].
    apply H; [repeat constructor | repeat constructor | discriminate].
  - destruct (hunk_type_by_nonblank_lines hunk_blank_removed_only [])
      as (_ & Hs & _ & _ & _ & _ & _ & H & _).
    rewrite Hs. cbn [app].
    apply H; [repeat constructor | constructor | reflexivity].
Defined.

(** C5. Finalizing a hunk buffer always leaves a fresh empty buffer.  A
    buffer with no added and no removed line leaves the output untouched.
    Otherwise one record is pushed per raw added line, blank ones included,
    in order, with that line's content and number; all records of the hunk
    carry the same hunk type; the field [removedLines] of a record is the
    raw removed list of the buffer when the type is replace and the empty
    list when it is not. *)
Theorem finalizeHunk_emits_added_lines (h : Hunk.t) (out : list AddedLine.t) :
  fst (finalizeHunk h out) = createEmptyHunk
  /\ (Hunk.addedLines h = [] -> Hunk.removedLines h = [] ->
      finalizeHunk h out = (createEmptyHunk, out))
  /\ snd (finalizeHunk h out) = out ++ emitted h out
  /\ length (emitted h out) = length (Hunk.addedLines h)
  /\ map AddedLine.line (emitted h out)
     = map HunkLine.content (Hunk.addedLines h)
  /\ map AddedLine.number (emitted h out)
     = map HunkLine.lineNum (Hunk.addedLines h)
  /\ (forall r r', In r (emitted h out) -> In r' (emitted h out) ->
      AddedLine.hunkType r = AddedLine.hunkType r')
  /\ (forall r, In r (emitted h out) ->
      (AddedLine.hunkType r = REPLACE ->
       AddedLine.removedLines r = Hunk.removedLines h)
      /\ (AddedLine.hunkType r <> REPLACE -> AddedLine.removedLines r = [])).
Proof.
  split; [apply finalizeHunk_fst|].
  split.
  { intros Ha Hr. unfold finalizeHunk. rewrite Ha, Hr. reflexivity. }
  split.
  { rewrite emitted_eq. apply finalizeHunk_snd. }
  rewrite emitted_eq.
  split; [apply length_map|].
  split; [rewrite map_map; reflexivity|].
  split; [rewrite map_map; reflexivity|].
  split.
  - intros r r' Hr Hr'. apply in_map_iff in Hr as (a & <- & _).
    apply in_map_iff in Hr' as (a' & <- & _). reflexivity.
  - intros r Hr. apply in_map_iff in Hr as (a & <- & _). simpl.
    destruct (hunkTypeOf h); simpl; split; congruence.
Qed.

Lemma finalizeHunk_emits_added_lines_witness :
  finalizeHunk createEmptyHunk [] = (createEmptyHunk, [])
  /\ In record_replace (emitted hunk_replace [])
  /\ AddedLine.removedLines record_replace = Hunk.removedLines hunk_replace
  /\ In record_add_only (emitted hunk_blank_removals [])
  /\ AddedLine.removedLines record_add_only = [].
Proof.
  assert (H1 : In record_replace (emitted hunk_replace []))
    by (left; reflexivity).
  assert (H2 : In record_add_only (emitted hunk_blank_removals []))
    by (left; reflexivity).
  split; [|split; [exact H1|split; [|split; [exact H2|]]]].
  - destruct (finalizeHunk_emits_added_lines createEmptyHunk [])
      as (_ & H & _).
    apply H; reflexivity.
  - destruct (finalizeHunk_emits_added_lines hunk_replace [])
      as (_ & _ & _ & _ & _ & _ & _ & H).
    apply (H _ H1). reflexivity.
  - destruct (finalizeHunk_emits_added_lines hunk_blank_removals [])
      as (_ & _ & _ & _ & _ & _ & _ & H).
    apply (H _ H2). discriminate.
Defined.

(* ================================================================== *)
(** * Properties of the line classifier *)

(** The line number lies within the bounds of the range, both included. *)
Definition covers (lineNum : Z) (r : BlameRange.t) : Prop :=
  BlameRange.startingLine r <= lineNum <= BlameRange.endingLine r.

(** The fields of a range that the classifier reads, [None] when the field
    or an object on the way to it is missing. *)
Definition rangeAuthorName (r : BlameRange.t) : option jsstring :=
  match BlameRange.commit r with
  | Some c => match BlameCommit.author c with
              | Some a => BlameAuthor.name a
              | None => None
              end
  | None => None
  end.

Definition rangeCommitId (r : BlameRange.t) : option jsstring :=
  match BlameRange.commit r with
  | Some c => BlameCommit.oid c
  | None => None
  end.

Definition rangeCommittedDate (r : BlameRange.t) : option jsstring :=
  match BlameRange.commit r with
  | Some c => BlameCommit.committedDate c
  | None => None
  end.

Definition noEvidence : Classification.t :=
  Classification.mk NEW_WORK None None None.

Section ClassifierFacts.

Variable dateParse : jsstring -> option Z.

Lemma inRange_covers (lineNum : Z) (r : BlameRange.t) :
  inRange lineNum r = true <-> covers lineNum r.
Proof. unfold inRange, covers. rewrite andb_true_iff. lia. Qed.

Lemma find_first_match (lineNum : Z) (pre post : list BlameRange.t)
    (r : BlameRange.t) :
  Forall (fun x => ~ covers lineNum x) pre ->
  covers lineNum r ->
  find (inRange lineNum) (pre ++ r :: post) = Some r.
Proof.
  intros Hpre Hr. induction Hpre as [|x pre Hx _ IH]; simpl.
  - apply inRange_covers in Hr. rewrite Hr. reflexivity.
  - destruct (inRange lineNum x) eqn:E; [|exact IH].
    apply inRange_covers in E. contradiction.
Qed.

Lemma find_no_match (lineNum : Z) (ranges : list BlameRange.t) :
  Forall (fun x => ~ covers lineNum x) ranges ->
  find (inRange lineNum) ranges = None.
Proof.
  induction 1 as [|x l Hx _ IH]; simpl; [reflexivity|].
  destruct (inRange lineNum x) eqn:E; [|exact IH].
  apply inRange_covers in E. contradiction.
Qed.

Lemma sameAuthor_eq (a b : option jsstring) :
  sameAuthor a b = true <-> a = b.
Proof.
  destruct a as [x|], b as [y|]; simpl;
    try (split; congruence).
  destruct (list_eq_dec N.eq_dec x y); split; congruence.
Qed.

(** The replace branch once [find] has returned a range. *)
Lemma classifyLine_matched (lineNum : Z) (ranges : list BlameRange.t)
    (r : BlameRange.t) (cur : option jsstring) (curDate : jsdate)
    (thr : jsnum) :
  find (inRange lineNum) ranges = Some r ->
  classifyLine dateParse lineNum REPLACE (BlameArray ranges) cur curDate thr
  = let info := extractCommitInfo dateParse r in
    match CommitInfo.date info with
    | None =>
        Classification.mk NEW_WORK (CommitInfo.author info)
          (CommitInfo.commitOid info) None
    | Some prevDate =>
        Classification.mk
          (if sameAuthor (CommitInfo.author info) cur
           then (if jsle (calculateDeltaDays curDate prevDate) thr
                 then CHURN else REWORK)
           else HELP_OTHERS)
          (CommitInfo.author info) (CommitInfo.commitOid info)
          (Some (calculateDeltaDays curDate prevDate))
    end.
Proof.
  intros Hf. unfold classifyLine. rewrite Hf.
  destruct (extractCommitInfo dateParse r) as [a c [d|]]; reflexivity.
Qed.

End ClassifierFacts.

(** What [extractCommitInfo] returns, field by field. *)
Lemma extractCommitInfo_fields (dateParse : jsstring -> option Z)
    (r : BlameRange.t) :
  extractCommitInfo dateParse r
  = CommitInfo.mk (orNull (rangeAuthorName r)) (orNull (rangeCommitId r))
      (option_map (newDate dateParse) (orNull (rangeCommittedDate r))).
Proof.
  unfold extractCommitInfo, rangeAuthorName, rangeCommitId, rangeCommittedDate.
  destruct (BlameRange.commit r) as [c|]; [|reflexivity].
  destruct (orNull (BlameCommit.committedDate c)); reflexivity.
Qed.

Lemma orNull_present (o : option jsstring) (s : jsstring) :
  o = Some s -> s <> [] -> orNull o = Some s.
Proof. intros -> Hs. destruct s; [congruence | reflexivity]. Qed.

Lemma orNull_absent (o : option jsstring) :
  o = None \/ o = Some [] -> orNull o = None.
Proof. intros [-> | ->]; reflexivity. Qed.

(** C7. A line of an add-only or of a delete-only hunk is New Work with no
    previous author, no previous commit and no delta, whatever the blame
    ranges are. *)
Theorem classify_non_replace_is_new_work (dateParse : jsstring -> option Z)
    (lineNum : Z) (blameRanges : BlameInput) (currentAuthor : option jsstring)
    (currentDate : jsdate) (maxDeltaDays : jsnum) :
  classifyLine dateParse lineNum ADD_ONLY blameRanges currentAuthor
    currentDate maxDeltaDays = noEvidence
  /\ classifyLine dateParse lineNum DELETE_ONLY blameRanges currentAuthor
       currentDate maxDeltaDays = noEvidence.
Proof. split; reflexivity. Qed.

(** A range that covers the line does not change the answer for an
    add-only hunk. *)
Example add_only_ignores_covering_range :
  covers 10 range_alice
  /\ classifyLine sampleDateParse 10 ADD_ONLY (BlameArray [range_alice])
       (Some (lit "Alice")) jan22 (Num 21) = noEvidence.
Proof. split; [unfold covers; simpl; lia | reflexivity]. Qed.

(** C2. In a replace hunk the ranges are scanned in order and the first
    one whose bounds, both included, hold the line number is selected: the
    result is built from that range and from no other (its author name and
    commit identifier, its date for the delta and the category), whatever
    ranges come before and after it.  When no range holds the line number
    the line is New Work without evidence; a blame argument that is not an
    array behaves as the empty array. *)
Theorem replace_first_covering_range (dateParse : jsstring -> option Z)
    (lineNum : Z) (currentAuthor : option jsstring) (currentDate : jsdate)
    (maxDeltaDays : jsnum) :
  (forall r, inRange lineNum r = true <->
             BlameRange.startingLine r <= lineNum <= BlameRange.endingLine r)
  /\ (forall pre r post,
         Forall (fun x => ~ covers lineNum x) pre ->
         covers lineNum r ->
         find (inRange lineNum) (pre ++ r :: post) = Some r
         /\ classifyLine dateParse lineNum REPLACE
              (BlameArray (pre ++ r :: post)) currentAuthor currentDate
              maxDeltaDays
            = classifyLine dateParse lineNum REPLACE (BlameArray [r])
                currentAuthor currentDate maxDeltaDays
         /\ Classification.prevAuthor
              (classifyLine dateParse lineNum REPLACE
                 (BlameArray (pre ++ r :: post)) currentAuthor currentDate
                 maxDeltaDays)
            = orNull (rangeAuthorName r)
         /\ Classification.prevCommit
              (classifyLine dateParse lineNum REPLACE
                 (BlameArray (pre ++ r :: post)) currentAuthor currentDate
                 maxDeltaDays)
            = orNull (rangeCommitId r)
         /\ (orNull (rangeCommittedDate r) = None ->
             Classification.category
               (classifyLine dateParse lineNum REPLACE
                  (BlameArray (pre ++ r :: post)) currentAuthor currentDate
                  maxDeltaDays) = NEW_WORK
             /\ Classification.deltaDays
                  (classifyLine dateParse lineNum REPLACE
                     (BlameArray (pre ++ r :: post)) currentAuthor
                     currentDate maxDeltaDays) = None)
         /\ (forall s,
                orNull (rangeCommittedDate r) = Some s ->
                Classification.deltaDays
                  (classifyLine dateParse lineNum REPLACE
                     (BlameArray (pre ++ r :: post)) currentAuthor
                     currentDate maxDeltaDays)
                = Some (calculateDeltaDays currentDate (newDate dateParse s))
                /\ Classification.category
                     (classifyLine dateParse lineNum REPLACE
                        (BlameArray (pre ++ r :: post)) currentAuthor
                        currentDate maxDeltaDays)
                   = if sameAuthor (orNull (rangeAuthorName r)) currentAuthor
                     then (if jsle (calculateDeltaDays currentDate
                                      (newDate dateParse s)) maxDeltaDays
                           then CHURN else REWORK)
                     else HELP_OTHERS))
  /\ (forall ranges,
         Forall (fun x => ~ covers lineNum x) ranges ->
         classifyLine dateParse lineNum REPLACE (BlameArray ranges)
           currentAuthor currentDate maxDeltaDays = noEvidence)
  /\ (forall hunkType,
         classifyLine dateParse lineNum hunkType NotAnArray currentAuthor
           currentDate maxDeltaDays
         = classifyLine dateParse lineNum hunkType (BlameArray [])
             currentAuthor currentDate maxDeltaDays)
  /\ classifyLine dateParse lineNum REPLACE NotAnArray currentAuthor
       currentDate maxDeltaDays = noEvidence.
Proof.
  split; [intro r; apply inRange_covers|].
  split.
  { intros pre r post Hpre Hr.
    pose proof (find_first_match lineNum pre post r Hpre Hr) as Hf.
    split; [exact Hf|].
    split.
    { rewrite (classifyLine_matched dateParse _ _ r _ _ _ Hf).
      rewrite (classifyLine_matched dateParse _ [r] r); [reflexivity|].
      simpl. apply inRange_covers in Hr. rewrite Hr. reflexivity. }
    rewrite (classifyLine_matched dateParse _ _ r _ _ _ Hf).
    rewrite extractCommitInfo_fields. cbv zeta.
    cbn [CommitInfo.date CommitInfo.author CommitInfo.commitOid].
    destruct (orNull (rangeCommittedDate r)) as [s|];
      cbn [option_map Classification.prevAuthor Classification.prevCommit
           Classification.category Classification.deltaDays].
    - split; [reflexivity|]. split; [reflexivity|].
      split; [discriminate|].
      intros s' [= <-]. split; reflexivity.
    - split; [reflexivity|]. split; [reflexivity|].
      split; [intros _; split; reflexivity | discriminate]. }
  split.
  { intros ranges Hno. unfold classifyLine.
    rewrite (find_no_match _ _ Hno). reflexivity. }
  split; [intros []; reflexivity | reflexivity].
Qed.

(** Line 10 lies in the ranges of Bob and of Alice; the range of Bob comes
    first and decides: the line of Alice is Help Others with Bob as the
    previous author.  With the two ranges swapped it is Churn. *)
Lemma replace_first_covering_range_witness :
  classifyLine sampleDateParse 10 REPLACE
    (BlameArray ([blame 1 9 "0000001" "2024-01-22T00:00:00Z" "Carol"]
                   ++ range_bob :: [range_alice]))
    (Some (lit "Alice")) jan22 (Num 21)
  = Classification.mk HELP_OTHERS (Some (lit "Bob")) (Some (lit "e4f5a6b"))
      (Some (Num ((1705881600000 - 1704067200000) # MILLISECONDS_PER_DAY)))
  /\ Classification.category
       (classifyLine sampleDateParse 10 REPLACE
          (BlameArray ([] ++ range_alice :: [range_bob]))
          (Some (lit "Alice")) jan22 (Num 21)) = CHURN
  /\ classifyLine sampleDateParse 31 REPLACE
       (BlameArray [range_alice; range_bob])
       (Some (lit "Alice")) jan22 (Num 21) = noEvidence.
Proof.
  destruct (replace_first_covering_range sampleDateParse 10
              (Some (lit "Alice")) jan22 (Num 21)) as (_ & H & _).
  destruct (replace_first_covering_range sampleDateParse 31
              (Some (lit "Alice")) jan22 (Num 21)) as (_ & _ & H' & _).
  split; [|split].
  - destruct (H [blame 1 9 "0000001" "2024-01-22T00:00:00Z" "Carol"]
                range_bob [range_alice])
      as (_ & _ & Ha & Hc & _ & Hd).
    + constructor; [unfold covers; simpl; lia | constructor].
    + unfold covers; simpl; lia.
    + destruct (Hd (lit "2024-01-01T00:00:00Z") eq_refl) as [Hdelta Hcat].
      destruct (classifyLine sampleDateParse 10 REPLACE
                  (BlameArray
                     ([blame 1 9 "0000001" "2024-01-22T00:00:00Z" "Carol"]
                        ++ range_bob :: [range_alice]))
                  (Some (lit "Alice")) jan22 (Num 21))
        as [cat pa pc dd].
      cbn [Classification.prevAuthor Classification.prevCommit
           Classification.category Classification.deltaDays] in *.
      rewrite Ha, Hc, Hdelta, Hcat. reflexivity.
  - destruct (H [] range_alice [range_bob])
      as (_ & _ & _ & _ & _ & Hd).
    + constructor.
    + unfold covers; simpl; lia.
    + destruct (Hd (lit "2024-01-01T00:00:00Z") eq_refl) as [_ Hcat].
      rewrite Hcat. reflexivity.
  - apply H'. repeat constructor; unfold covers; simpl; lia.
Defined.

(** C1. In a replace hunk whose matched range gives a previous author and
    a previous date: when the previous author is the current author
    (equality of strings, code unit by code unit), the category is Churn
    if the delta in days is at most the threshold, a delta equal to the
    threshold included, and Rework if it is above (Rework, too, whenever
    the comparison [deltaDays <= maxDeltaDays] is false); when the authors
    differ, a missing current author included, it is Help Others whatever
    the delta. *)
Theorem replace_author_and_threshold (dateParse : jsstring -> option Z)
    (lineNum : Z) (ranges : list BlameRange.t) (r : BlameRange.t)
    (currentAuthor : option jsstring) (currentDate : jsdate)
    (maxDeltaDays : jsnum) (a : jsstring) (d : jsdate) :
  find (inRange lineNum) ranges = Some r ->
  CommitInfo.author (extractCommitInfo dateParse r) = Some a ->
  CommitInfo.date (extractCommitInfo dateParse r) = Some d ->
  Classification.prevAuthor
    (classifyLine dateParse lineNum REPLACE (BlameArray ranges)
       currentAuthor currentDate maxDeltaDays) = Some a
  /\ Classification.deltaDays
       (classifyLine dateParse lineNum REPLACE (BlameArray ranges)
          currentAuthor currentDate maxDeltaDays)
     = Some (calculateDeltaDays currentDate d)
  /\ (forall q t,
         currentAuthor = Some a ->
         calculateDeltaDays currentDate d = Num q ->
         maxDeltaDays = Num t ->
         (q <= t)%Q ->
         Classification.category
           (classifyLine dateParse lineNum REPLACE (BlameArray ranges)
              currentAuthor currentDate maxDeltaDays) = CHURN)
  /\ (forall q t,
         currentAuthor = Some a ->
         calculateDeltaDays currentDate d = Num q ->
         maxDeltaDays = Num t ->
         (q == t)%Q ->
         Classification.category
           (classifyLine dateParse lineNum REPLACE (BlameArray ranges)
              currentAuthor currentDate maxDeltaDays) = CHURN)
  /\ (forall q t,
         currentAuthor = Some a ->
         calculateDeltaDays currentDate d = Num q ->
         maxDeltaDays = Num t ->
         (t < q)%Q ->
         Classification.category
           (classifyLine dateParse lineNum REPLACE (BlameArray ranges)
              currentAuthor currentDate maxDeltaDays) = REWORK)
  /\ (currentAuthor = Some a ->
      Classification.category
        (classifyLine dateParse lineNum REPLACE (BlameArray ranges)
           currentAuthor currentDate maxDeltaDays)
      = if jsle (calculateDeltaDays currentDate d) maxDeltaDays
        then CHURN else REWORK)
  /\ (currentAuthor <> Some a ->
      Classification.category
        (classifyLine dateParse lineNum REPLACE (BlameArray ranges)
           currentAuthor currentDate maxDeltaDays) = HELP_OTHERS).
Proof.
  intros Hf Ha Hd.
  rewrite (classifyLine_matched dateParse _ _ r _ _ _ Hf).
  cbv zeta. rewrite Hd, Ha.
  cbn [Classification.prevAuthor Classification.deltaDays
       Classification.category].
  assert (Hle : forall q t,
             currentAuthor = Some a ->
             calculateDeltaDays currentDate d = Num q ->
             maxDeltaDays = Num t ->
             (q <= t)%Q ->
             (if sameAuthor (Some a) currentAuthor
              then if jsle (calculateDeltaDays currentDate d) maxDeltaDays
                   then CHURN else REWORK
              else HELP_OTHERS) = CHURN).
  { intros q t Hc Hq Ht Hqt.
    rewrite (proj2 (sameAuthor_eq (Some a) currentAuthor) (eq_sym Hc)).
    rewrite Hq, Ht. simpl.
    rewrite (proj2 (Qle_bool_iff q t) Hqt). reflexivity. }
  repeat split.
  - exact Hle.
  - intros q t Hc Hq Ht Hqt. apply (Hle q t Hc Hq Ht).
    rewrite Hqt. apply Qle_refl.
  - intros q t Hc Hq Ht Hqt.
    rewrite (proj2 (sameAuthor_eq (Some a) currentAuthor) (eq_sym Hc)).
    rewrite Hq, Ht. simpl.
    destruct (Qle_bool q t) eqn:E; [|reflexivity].
    apply Qle_bool_iff in E. exfalso. apply (Qlt_not_le _ _ Hqt E).
  - intros Hc.
    rewrite (proj2 (sameAuthor_eq (Some a) currentAuthor) (eq_sym Hc)).
    reflexivity.
  - intros Hne.
    destruct (sameAuthor (Some a) currentAuthor) eqn:E; [|reflexivity].
    apply sameAuthor_eq in E. congruence.
Qed.

(** Alice reworks her own line exactly three weeks later: Churn at a
    threshold of 21 days, Rework at 20; for "alice" the line is Help
    Others. *)
Lemma replace_author_and_threshold_witness :
  Classification.category
    (classifyLine sampleDateParse 20 REPLACE (BlameArray [range_alice])
       (Some (lit "Alice")) jan22 (Num 21)) = CHURN
  /\ Classification.category
       (classifyLine sampleDateParse 20 REPLACE (BlameArray [range_alice])
          (Some (lit "Alice")) jan22 (Num 20)) = REWORK
  /\ Classification.category
       (classifyLine sampleDateParse 20 REPLACE (BlameArray [range_alice])
          (Some (lit "alice")) jan22 (Num 21)) = HELP_OTHERS.
Proof.
  split; [|split].
  - destruct (replace_author_and_threshold sampleDateParse 20 [range_alice]
                range_alice (Some (lit "Alice")) jan22 (Num 21)
                (lit "Alice") (ValidDate 1704067200000)
                eq_refl eq_refl eq_refl) as (_ & _ & _ & H & _).
    apply (H ((1705881600000 - 1704067200000) # MILLISECONDS_PER_DAY) 21%Q);
      reflexivity.
  - destruct (replace_author_and_threshold sampleDateParse 20 [range_alice]
                range_alice (Some (lit "Alice")) jan22 (Num 20)
                (lit "Alice") (ValidDate 1704067200000)
                eq_refl eq_refl eq_refl) as (_ & _ & _ & _ & H & _).
    apply (H ((1705881600000 - 1704067200000) # MILLISECONDS_PER_DAY) 20%Q);
      reflexivity.
  - destruct (replace_author_and_threshold sampleDateParse 20 [range_alice]
                range_alice (Some (lit "alice")) jan22 (Num 21)
                (lit "Alice") (ValidDate 1704067200000)
                eq_refl eq_refl eq_refl) as (_ & _ & _ & _ & _ & _ & H).
    apply H. discriminate.
Defined.

(** C8, as the code has it.  In a replace hunk whose matched range has no
    commit date, or an empty one, the line is New Work with no delta; the
    previous author is the author name of the range when that is present
    and not empty, and the previous commit is the commit identifier of the
    range when that is present and not empty; each is absent otherwise. *)
Theorem replace_missing_date_is_new_work (dateParse : jsstring -> option Z)
    (lineNum : Z) (ranges : list BlameRange.t) (r : BlameRange.t)
    (currentAuthor : option jsstring) (currentDate : jsdate)
    (maxDeltaDays : jsnum) :
  find (inRange lineNum) ranges = Some r ->
  rangeCommittedDate r = None \/ rangeCommittedDate r = Some [] ->
  Classification.category
    (classifyLine dateParse lineNum REPLACE (BlameArray ranges)
       currentAuthor currentDate maxDeltaDays) = NEW_WORK
  /\ Classification.deltaDays
       (classifyLine dateParse lineNum REPLACE (BlameArray ranges)
          currentAuthor currentDate maxDeltaDays) = None
  /\ (forall s, rangeAuthorName r = Some s -> s <> [] ->
      Classification.prevAuthor
        (classifyLine dateParse lineNum REPLACE (BlameArray ranges)
           currentAuthor currentDate maxDeltaDays) = Some s)
  /\ (rangeAuthorName r = None \/ rangeAuthorName r = Some [] ->
      Classification.prevAuthor
        (classifyLine dateParse lineNum REPLACE (BlameArray ranges)
           currentAuthor currentDate maxDeltaDays) = None)
  /\ (forall s, rangeCommitId r = Some s -> s <> [] ->
      Classification.prevCommit
        (classifyLine dateParse lineNum REPLACE (BlameArray ranges)
           currentAuthor currentDate maxDeltaDays) = Some s)
  /\ (rangeCommitId r = None \/ rangeCommitId r = Some [] ->
      Classification.prevCommit
        (classifyLine dateParse lineNum REPLACE (BlameArray ranges)
           currentAuthor currentDate maxDeltaDays) = None).
Proof.
  intros Hf Hd.
  rewrite (classifyLine_matched dateParse _ _ r _ _ _ Hf).
  rewrite extractCommitInfo_fields. cbv zeta.
  cbn [CommitInfo.date CommitInfo.author CommitInfo.commitOid].
  rewrite (orNull_absent _ Hd). cbn [option_map].
  cbn [Classification.category Classification.deltaDays
       Classification.prevAuthor Classification.prevCommit].
  repeat split.
  - intros s Hs Hne. apply (orNull_present _ _ Hs Hne).
  - apply orNull_absent.
  - intros s Hs Hne. apply (orNull_present _ _ Hs Hne).
  - apply orNull_absent.
Qed.

Lemma replace_missing_date_is_new_work_witness :
  Classification.category
    (classifyLine sampleDateParse 1 REPLACE (BlameArray [range_empty_date])
       (Some (lit "Bob")) jan22 (Num 21)) = NEW_WORK
  /\ Classification.prevAuthor
       (classifyLine sampleDateParse 1 REPLACE (BlameArray [range_empty_date])
          (Some (lit "Bob")) jan22 (Num 21)) = Some (lit "Bob")
  /\ Classification.prevCommit
       (classifyLine sampleDateParse 1 REPLACE (BlameArray [range_empty_date])
          (Some (lit "Bob")) jan22 (Num 21)) = Some (lit "empty1")
  /\ Classification.prevCommit
       (classifyLine sampleDateParse 1 REPLACE (BlameArray [range_empty_oid])
          (Some (lit "Bob")) jan22 (Num 21)) = None.
Proof.
  destruct (replace_missing_date_is_new_work sampleDateParse 1
              [range_empty_date] range_empty_date (Some (lit "Bob")) jan22
              (Num 21) eq_refl (or_intror eq_refl))
    as (H1 & _ & H2 & _ & H3 & _).
  destruct (replace_missing_date_is_new_work sampleDateParse 1
              [range_empty_oid] range_empty_oid (Some (lit "Bob")) jan22
              (Num 21) eq_refl (or_introl eq_refl))
    as (_ & _ & _ & _ & _ & H4).
  split; [exact H1|].
  split; [apply H2; [reflexivity | discriminate]|].
  split; [apply H3; [reflexivity | discriminate]|].
  apply H4. right. reflexivity.
Defined.

(** C8 as the specification words it fails on a commit identifier that is
    present and empty: the matched range has no date, its identifier is the
    empty string, and the result reports no previous commit instead of that
    identifier. *)
Lemma empty_commit_id_reported_absent :
  find (inRange 10) [range_empty_oid] = Some range_empty_oid
  /\ rangeCommittedDate range_empty_oid = None
  /\ rangeCommitId range_empty_oid = Some (lit "")
  /\ Classification.prevCommit
       (classifyLine sampleDateParse 10 REPLACE (BlameArray [range_empty_oid])
          (Some (lit "Alice")) jan22 (Num 21)) = None
  /\ Classification.prevCommit
       (classifyLine sampleDateParse 10 REPLACE (BlameArray [range_empty_oid])
          (Some (lit "Alice")) jan22 (Num 21))
     <> rangeCommitId range_empty_oid.
Proof. repeat split; discriminate. Qed.

(** C4, what the code does.  In a replace hunk whose matched range has a
    commit date that is present, not empty and rejected by the date parser,
    the delta is not-a-number and the line is never New Work: it is Rework
    when the previous author is the current author, whatever the threshold,
    and Help Others when it is not. *)
Theorem replace_unparseable_date_is_classified
    (dateParse : jsstring -> option Z)
    (lineNum : Z) (ranges : list BlameRange.t) (r : BlameRange.t)
    (currentAuthor : option jsstring) (currentDate : jsdate)
    (maxDeltaDays : jsnum) (s : jsstring) :
  find (inRange lineNum) ranges = Some r ->
  rangeCommittedDate r = Some s ->
  s <> [] ->
  dateParse s = None ->
  Classification.deltaDays
    (classifyLine dateParse lineNum REPLACE (BlameArray ranges)
       currentAuthor currentDate maxDeltaDays) = Some NaN
  /\ Classification.category
       (classifyLine dateParse lineNum REPLACE (BlameArray ranges)
          currentAuthor currentDate maxDeltaDays)
     = (if sameAuthor (orNull (rangeAuthorName r)) currentAuthor
        then REWORK else HELP_OTHERS)
  /\ Classification.category
       (classifyLine dateParse lineNum REPLACE (BlameArray ranges)
          currentAuthor currentDate maxDeltaDays) <> NEW_WORK.
Proof.
  intros Hf Hs Hne Hp.
  rewrite (classifyLine_matched dateParse _ _ r _ _ _ Hf).
  rewrite extractCommitInfo_fields. cbv zeta.
  cbn [CommitInfo.date CommitInfo.author CommitInfo.commitOid].
  rewrite (orNull_present _ _ Hs Hne). cbn [option_map].
  unfold newDate. rewrite Hp.
  cbn [Classification.category Classification.deltaDays].
  assert (HN : calculateDeltaDays currentDate InvalidDate = NaN)
    by (destruct currentDate; reflexivity).
  rewrite HN. cbn [jsle].
  split; [reflexivity|]. split; [reflexivity|].
  destruct (sameAuthor (orNull (rangeAuthorName r)) currentAuthor);
    discriminate.
Qed.

(** Alice's own line with the commit date "not-a-date" comes out as Rework
    with a delta that is not a number. *)
Lemma replace_unparseable_date_is_classified_witness :
  classifyLine sampleDateParse 10 REPLACE (BlameArray [range_bad_date])
    (Some (lit "Alice")) jan22 (Num 21)
  = Classification.mk REWORK (Some (lit "Alice")) (Some (lit "invalid1"))
      (Some NaN)
  /\ Classification.category
       (classifyLine sampleDateParse 10 REPLACE (BlameArray [range_bad_date])
          (Some (lit "Alice")) jan22 (Num 21)) <> NEW_WORK.
Proof.
  split; [reflexivity|].
  apply (replace_unparseable_date_is_classified sampleDateParse 10
           [range_bad_date] range_bad_date (Some (lit "Alice")) jan22 (Num 21)
           (lit "not-a-date")); try reflexivity.
  discriminate.
Defined.

(* ================================================================== *)
(** * Properties of the patch parser *)

Section ParserSteps.

Variable st : Parser.t.
Variable line : jsstring.

Lemma lineKind_header :
  lineKind line = HeaderLine <-> startsWith line (lit "@@") = true.
Proof.
  unfold lineKind.
  destruct (startsWith line (lit "@@")); [split; reflexivity|].
  destruct (startsWith line (lit "+") && negb (startsWith line (lit "+++")));
    [split; discriminate|].
  destruct (startsWith line (lit "-") && negb (startsWith line (lit "---")));
    [split; discriminate|].
  destruct (negb (startsWith line (lit "\"))); split; discriminate.
Qed.

(** A header line: the buffer is finalized, both counters are set from
    the header, or to zero when the pattern does not match. *)
Lemma parseLine_header :
  lineKind line = HeaderLine ->
  parseLine st line =
    Parser.mk (snd (finalizeHunk (Parser.currentHunk st) (Parser.addedLines st)))
      (headerNewStart line) (headerOldStart line)
      (Hunk.mk [] [] (headerNewStart line) (headerOldStart line)).
Proof.
  intros Hk. apply lineKind_header in Hk.
  destruct st as [out n o h]. unfold parseLine. rewrite Hk.
  cbn [Parser.currentHunk Parser.addedLines].
  pose proof (finalizeHunk_fst h out) as Hfst.
  destruct (finalizeHunk h out) as [h' out']. simpl in Hfst. subst h'.
  unfold headerNewStart, headerOldStart.
  destruct (execHeader line) as [[g1 g2]|]; reflexivity.
Qed.

Lemma parseLine_added :
  lineKind line = AddedLineK ->
  parseLine st line =
    Parser.mk (Parser.addedLines st) (Parser.newLineNum st + 1)
      (Parser.oldLineNum st)
      (Hunk.mk (Hunk.removedLines (Parser.currentHunk st))
         (Hunk.addedLines (Parser.currentHunk st)
            ++ [HunkLine.mk (substring1 line) (Parser.newLineNum st)])
         (Hunk.startNewLine (Parser.currentHunk st))
         (Hunk.startOldLine (Parser.currentHunk st))).
Proof.
  destruct st as [out n o h]. unfold lineKind, parseLine.
  destruct (startsWith line (lit "@@")); [discriminate|].
  destruct (startsWith line (lit "+") && negb (startsWith line (lit "+++")));
    [reflexivity|].
  destruct (startsWith line (lit "-") && negb (startsWith line (lit "---")));
    [discriminate|].
  destruct (negb (startsWith line (lit "\"))); discriminate.
Qed.

Lemma parseLine_removed :
  lineKind line = RemovedLineK ->
  parseLine st line =
    Parser.mk (Parser.addedLines st) (Parser.newLineNum st)
      (Parser.oldLineNum st + 1)
      (Hunk.mk
         (Hunk.removedLines (Parser.currentHunk st)
            ++ [HunkLine.mk (substring1 line) (Parser.oldLineNum st)])
         (Hunk.addedLines (Parser.currentHunk st))
         (Hunk.startNewLine (Parser.currentHunk st))
         (Hunk.startOldLine (Parser.currentHunk st))).
Proof.
  destruct st as [out n o h]. unfold lineKind, parseLine.
  destruct (startsWith line (lit "@@")); [discriminate|].
  destruct (startsWith line (lit "+") && negb (startsWith line (lit "+++")));
    [discriminate|].
  destruct (startsWith line (lit "-") && negb (startsWith line (lit "---")));
    [reflexivity|].
  destruct (negb (startsWith line (lit "\"))); discriminate.
Qed.

(** A context line: the buffer is finalized when it holds a line, and
    both counters move by one. *)
Lemma parseLine_context :
  lineKind line = ContextLine ->
  parseLine st line =
    Parser.mk (snd (finalizeHunk (Parser.currentHunk st) (Parser.addedLines st)))
      (Parser.newLineNum st + 1) (Parser.oldLineNum st + 1)
      (match Hunk.addedLines (Parser.currentHunk st),
             Hunk.removedLines (Parser.currentHunk st) with
       | [], [] => Parser.currentHunk st
       | _, _ => createEmptyHunk
       end).
Proof.
  destruct st as [out n o h]. unfold lineKind, parseLine.
  destruct (startsWith line (lit "@@")); [discriminate|].
  destruct (startsWith line (lit "+") && negb (startsWith line (lit "+++")));
    [discriminate|].
  destruct (startsWith line (lit "-") && negb (startsWith line (lit "---")));
    [discriminate|].
  destruct (negb (startsWith line (lit "\"))); [|discriminate].
  intros _. simpl.
  pose proof (finalizeHunk_fst h out) as Hfst.
  unfold finalizeHunk in *.
  destruct (Hunk.addedLines h) as [|a l], (Hunk.removedLines h) as [|r l'];
    simpl in *; try reflexivity.
Qed.

Lemma parseLine_annotation :
  lineKind line = AnnotationLine -> parseLine st line = st.
Proof.
  destruct st as [out n o h]. unfold lineKind, parseLine.
  destruct (startsWith line (lit "@@")); [discriminate|].
  destruct (startsWith line (lit "+") && negb (startsWith line (lit "+++")));
    [discriminate|].
  destruct (startsWith line (lit "-") && negb (startsWith line (lit "---")));
    [discriminate|].
  destruct (negb (startsWith line (lit "\"))); [discriminate|reflexivity].
Qed.

End ParserSteps.

Section ParserInvariant.

Lemma finalizeHunk_keys (h : Hunk.t) (out : list AddedLine.t) :
  map recordKey (snd (finalizeHunk h out))
  = map recordKey out ++ map entryKey (Hunk.addedLines h).
Proof.
  rewrite finalizeHunk_snd, map_app, map_map. reflexivity.
Qed.

Lemma parseLine_numbered (st : Parser.t) (line : jsstring) :
  numberedSoFar (parseLine st line)
  = numberedSoFar st
    ++ headerRelativeNumbers (Parser.newLineNum st) [line]
  /\ Parser.newLineNum (parseLine st line)
     = advance (Parser.newLineNum st) line.
Proof.
  unfold numberedSoFar, advance. simpl.
  destruct (lineKind line) eqn:Hk.
  - rewrite (parseLine_header st line Hk). simpl.
    rewrite finalizeHunk_keys, !app_nil_r. split; reflexivity.
  - rewrite (parseLine_added st line Hk). simpl.
    rewrite map_app, app_assoc. split; reflexivity.
  - rewrite (parseLine_removed st line Hk). simpl.
    rewrite app_nil_r. split; reflexivity.
  - rewrite (parseLine_context st line Hk). simpl.
    rewrite finalizeHunk_keys, app_nil_r. split; [|reflexivity].
    destruct (Hunk.addedLines (Parser.currentHunk st)) as [|a l] eqn:Ea,
             (Hunk.removedLines (Parser.currentHunk st)) as [|r l'];
      simpl; rewrite ?Ea, ?app_nil_r; reflexivity.
  - rewrite (parseLine_annotation st line Hk), app_nil_r.
    split; reflexivity.
Qed.

Lemma headerRelativeNumbers_cons (pos : Z) (l : jsstring)
    (rest : list jsstring) :
  headerRelativeNumbers pos (l :: rest)
  = headerRelativeNumbers pos [l]
    ++ headerRelativeNumbers (advance pos l) rest.
Proof.
  simpl. unfold advance. destruct (lineKind l); reflexivity.
Qed.

Lemma parseLines_numbered (lines : list jsstring) :
  forall st,
    numberedSoFar (parseLines st lines)
    = numberedSoFar st
      ++ headerRelativeNumbers (Parser.newLineNum st) lines.
Proof.
  induction lines as [|l rest IH]; intro st.
  - simpl. rewrite app_nil_r. reflexivity.
  - unfold parseLines in *. simpl fold_left. rewrite IH.
    destruct (parseLine_numbered st l) as [-> ->].
    rewrite <- app_assoc, <- headerRelativeNumbers_cons. reflexivity.
Qed.

Lemma parseEnd_numbered (st : Parser.t) :
  map recordKey (parseEnd st) = numberedSoFar st.
Proof. unfold parseEnd. apply finalizeHunk_keys. Qed.

(** The parser numbers the added lines as the reference does. *)
Lemma parsePatch_numbered (patch : jsstring) :
  map recordKey (parsePatch patch)
  = headerRelativeNumbers 0 (split_lines patch).
Proof.
  unfold parsePatch. rewrite parseEnd_numbered, parseLines_numbered.
  reflexivity.
Qed.

End ParserInvariant.

Section HeaderPattern.


Lemma spanDigits_digits (s : jsstring) :
  Forall (fun c => isDigit c = true) (fst (spanDigits s)).
Proof.
  induction s as [|c s IH]; simpl; [constructor|].
  destruct (isDigit c) eqn:E; [|constructor].
  destruct (spanDigits s) as [d r]. simpl in *. constructor; assumption.
Qed.

Lemma digits1_digits (s d r : jsstring) :
  digits1 s = Some (d, r) -> Forall (fun c => isDigit c = true) d.
Proof.
  unfold digits1. pose proof (spanDigits_digits s) as H.
  destruct (spanDigits s) as [[|c d'] r']; [discriminate|].
  intros [= <- <-]. exact H.
Qed.

Lemma headerMatchAt_digits (s g1 g2 : jsstring) :
  headerMatchAt s = Some (g1, g2) ->
  Forall (fun c => isDigit c = true) g1
  /\ Forall (fun c => isDigit c = true) g2.
Proof.
  unfold headerMatchAt.
  destruct (stripPrefix (lit "@@ -") s) as [s1|]; [|discriminate].
  destruct (digits1 s1) as [[d1 s2]|] eqn:E1; [|discriminate].
  destruct (stripPrefix (lit " +") (optCommaDigits s2)) as [s3|];
    [|discriminate].
  destruct (digits1 s3) as [[d2 s4]|] eqn:E2; [|discriminate].
  destruct (stripPrefix (lit " @@") (optCommaDigits s4)); [|discriminate].
  intros [= <- <-].
  split; [apply (digits1_digits _ _ _ E1) | apply (digits1_digits _ _ _ E2)].
Qed.

Lemma execHeader_cons (c : jschar) (line : jsstring) :
  execHeader (c :: line)
  = match headerMatchAt (c :: line) with
    | Some m => Some m
    | None => execHeader line
    end.
Proof. reflexivity. Qed.


Lemma execHeader_digits (line g1 g2 : jsstring) :
  execHeader line = Some (g1, g2) ->
  Forall (fun c => isDigit c = true) g1
  /\ Forall (fun c => isDigit c = true) g2.
Proof.
  induction line as [|c line IH].
  - intros H. vm_compute in H. discriminate.
  - rewrite execHeader_cons.
    destruct (headerMatchAt (c :: line)) as [m|] eqn:E; [|exact IH].
    intros [= ->]. apply (headerMatchAt_digits _ _ _ E).
Qed.

Lemma parseInt10_nonneg (digits : jsstring) :
  Forall (fun c => isDigit c = true) digits -> 0 <= parseInt10 digits.
Proof.
  unfold parseInt10. intros H.
  assert (G : forall acc, 0 <= acc ->
            0 <= fold_left (fun a c => 10 * a + (Z.of_N c - 48)) digits acc).
  { induction H as [|c l Hc _ IH]; intros acc Hacc; cbn [fold_left];
      [exact Hacc|].
    apply IH. unfold isDigit in Hc. apply andb_true_iff in Hc.
    destruct Hc as [Hlo _]. apply N.leb_le in Hlo. lia. }
  apply G. lia.
Qed.

Lemma headerNewStart_nonneg (line : jsstring) : 0 <= headerNewStart line.
Proof.
  unfold headerNewStart.
  destruct (execHeader line) as [[g1 g2]|] eqn:E; [|lia].
  apply parseInt10_nonneg. apply (execHeader_digits _ _ _ E).
Qed.






End HeaderPattern.

Section ReferenceNumbering.

Lemma isKind_iff (k : LineKind) (l : jsstring) :
  isKind k l = true <-> lineKind l = k.
Proof.
  unfold isKind. destruct k, (lineKind l); split; congruence.
Qed.

Lemma isKind_false (k : LineKind) (l : jsstring) :
  isKind k l = false <-> lineKind l <> k.
Proof.
  unfold isKind. destruct k, (lineKind l); split; congruence.
Qed.

Lemma numbers_length (lines : list jsstring) :
  forall pos, length (headerRelativeNumbers pos lines) = countAdded lines.
Proof.
  unfold countAdded.
  induction lines as [|l rest IH]; intro pos; simpl; [reflexivity|].
  unfold isKind at 1.
  destruct (lineKind l); simpl; rewrite IH; reflexivity.
Qed.

Lemma numbers_app (pre seg : list jsstring) :
  forall pos,
    headerRelativeNumbers pos (pre ++ seg)
    = headerRelativeNumbers pos pre
      ++ headerRelativeNumbers (fold_left advance pre pos) seg.
Proof.
  induction pre as [|l pre IH]; intro pos; [reflexivity|].
  rewrite <- app_comm_cons, headerRelativeNumbers_cons, IH.
  rewrite (headerRelativeNumbers_cons pos l pre), <- app_assoc.
  reflexivity.
Qed.

Lemma advance_headerFree (seg : list jsstring) :
  headerFree seg ->
  forall pos,
    fold_left advance seg pos = pos + Z.of_nat (countAddedOrContext seg).
Proof.
  unfold countAddedOrContext.
  induction 1 as [|l seg Hl _ IH]; intro pos; simpl; [lia|].
  rewrite IH. apply isKind_false in Hl. unfold advance, isKind.
  destruct (lineKind l); simpl; try lia. congruence.
Qed.

Lemma numbers_nonneg (lines : list jsstring) :
  forall pos, 0 <= pos ->
    Forall (fun n => 0 <= n) (map snd (headerRelativeNumbers pos lines)).
Proof.
  induction lines as [|l rest IH]; intros pos Hpos; simpl; [constructor|].
  pose proof (headerNewStart_nonneg l) as Hh.
  unfold advance.
  destruct (lineKind l); simpl; try constructor; try apply IH; lia.
Qed.

(** Where every header keeps the position from going back, the numbers
    start at the current position or later and increase strictly. *)
Lemma numbers_sorted (lines : list jsstring) :
  forall pos, headersAdvance pos lines = true ->
    StronglySorted Z.lt (map snd (headerRelativeNumbers pos lines))
    /\ Forall (fun n => pos <= n) (map snd (headerRelativeNumbers pos lines)).
Proof.
  induction lines as [|l rest IH]; intros pos H; simpl in *.
  - split; constructor.
  - unfold advance in *.
    destruct (lineKind l); simpl.
    + apply andb_true_iff in H as [Hle Hrest]. apply Z.leb_le in Hle.
      destruct (IH _ Hrest) as [Hs Hf]. split; [exact Hs|].
      eapply Forall_impl; [|exact Hf]. simpl. intros; lia.
    + destruct (IH _ H) as [Hs Hf]. split.
      * constructor; [exact Hs|].
        eapply Forall_impl; [|exact Hf]. simpl. intros; lia.
      * constructor; [lia|].
        eapply Forall_impl; [|exact Hf]. simpl. intros; lia.
    + apply (IH _ H).
    + destruct (IH _ H) as [Hs Hf]. split; [exact Hs|].
      eapply Forall_impl; [|exact Hf]. simpl. intros; lia.
    + apply (IH _ H).
Qed.

Lemma headerFree_headersAdvance (seg : list jsstring) :
  headerFree seg -> forall pos, headersAdvance pos seg = true.
Proof.
  induction 1 as [|l seg Hl _ IH]; intro pos; simpl; [reflexivity|].
  apply isKind_false in Hl.
  destruct (lineKind l); try apply IH. congruence.
Qed.

Lemma sorted_NoDup (l : list Z) : StronglySorted Z.lt l -> NoDup l.
Proof.
  induction 1 as [|x l _ IH Hx]; constructor; [|exact IH].
  intro Hin. rewrite Forall_forall in Hx. specialize (Hx x Hin). lia.
Qed.

(** The added line that follows a header-free stretch is numbered from
    the position at the start of the stretch. *)
Lemma numbers_nth (mid post : list jsstring) (l : jsstring) :
  headerFree mid ->
  lineKind l = AddedLineK ->
  forall pos,
    nth_error (headerRelativeNumbers pos (mid ++ l :: post)) (countAdded mid)
    = Some (substring1 l, pos + Z.of_nat (countAddedOrContext mid)).
Proof.
  intros Hmid Hl pos.
  rewrite numbers_app, nth_error_app2; rewrite numbers_length; [|lia].
  rewrite Nat.sub_diag, (advance_headerFree _ Hmid).
  simpl. rewrite Hl. reflexivity.
Qed.

Lemma numbers_of_records (records : list AddedLine.t) :
  map AddedLine.number records = map snd (map recordKey records).
Proof. rewrite map_map. reflexivity. Qed.

End ReferenceNumbering.

(** C6, as the code has it.  For every diff text on which the new-file
    counter stays within the safe integers, the records carry, in order,
    the content and the header-relative position of each added line: the
    new start of the latest header line before it (zero when that line does
    not match the header pattern, and zero when no header line precedes),
    plus one for each added or context line met since, a context line
    being every line that is not taken as a header, an added, a removed or
    an annotation line (a line that begins with three plus or three minus
    signs is one).  The numbers are never negative.  They increase strictly
    over the records of any stretch of the input that holds no header line,
    and over the whole file (hence without repetition) when every header
    declares a new start that is not below the position already reached. *)
Theorem numbers_are_header_relative (patch : jsstring) :
  newCounterSafe parserInit (split_lines patch) = true ->
  map recordKey (parsePatch patch)
  = headerRelativeNumbers 0 (split_lines patch)
  /\ Forall (fun r => 0 <= AddedLine.number r) (parsePatch patch)
  /\ (forall pre h mid l post,
         split_lines patch = pre ++ h :: mid ++ l :: post ->
         lineKind h = HeaderLine ->
         headerFree mid ->
         lineKind l = AddedLineK ->
         nth_error (map recordKey (parsePatch patch))
                   (countAdded pre + countAdded mid)
         = Some (substring1 l,
                 headerNewStart h + Z.of_nat (countAddedOrContext mid)))
  /\ (forall mid l post,
         split_lines patch = mid ++ l :: post ->
         headerFree mid ->
         lineKind l = AddedLineK ->
         nth_error (map recordKey (parsePatch patch)) (countAdded mid)
         = Some (substring1 l, Z.of_nat (countAddedOrContext mid)))
  /\ (forall pre seg post,
         split_lines patch = pre ++ seg ++ post ->
         headerFree seg ->
         StronglySorted Z.lt
           (firstn (countAdded seg)
              (skipn (countAdded pre)
                 (map AddedLine.number (parsePatch patch)))))
  /\ (headersAdvance 0 (split_lines patch) = true ->
      StronglySorted Z.lt (map AddedLine.number (parsePatch patch))
      /\ NoDup (map AddedLine.number (parsePatch patch))).
Proof.
  intros _.
  pose proof (parsePatch_numbered patch) as Hnum.
  split; [exact Hnum|].
  split.
  { apply Forall_map with (f := AddedLine.number) (P := fun n => 0 <= n).
    rewrite numbers_of_records, Hnum. apply numbers_nonneg. lia. }
  split.
  { intros pre h mid l post Hsplit Hh Hmid Hl.
    rewrite Hnum, Hsplit, numbers_app.
    rewrite nth_error_app2; rewrite numbers_length; [|lia].
    replace (countAdded pre + countAdded mid - countAdded pre)%nat
      with (countAdded mid) by lia.
    simpl headerRelativeNumbers at 1. rewrite Hh.
    unfold advance at 1. rewrite Hh.
    apply (numbers_nth mid post l Hmid Hl). }
  split.
  { intros mid l post Hsplit Hmid Hl.
    rewrite Hnum, Hsplit. apply (numbers_nth mid post l Hmid Hl 0). }
  split.
  { intros pre seg post Hsplit Hseg.
    rewrite numbers_of_records, Hnum, Hsplit, !numbers_app, !map_app.
    rewrite skipn_app, skipn_all2; rewrite length_map, numbers_length; [|lia].
    rewrite Nat.sub_diag. cbn [skipn app].
    rewrite firstn_app, firstn_all2; rewrite length_map, numbers_length;
      [|lia].
    rewrite Nat.sub_diag. cbn [firstn]. rewrite app_nil_r.
    apply numbers_sorted. apply (headerFree_headersAdvance _ Hseg). }
  intros Hadv. rewrite numbers_of_records, Hnum.
  destruct (numbers_sorted _ _ Hadv) as [Hs _].
  split; [exact Hs | apply (sorted_NoDup _ Hs)].
Qed.

(** On [patch_bad_header] the line after the unrecognized header is
    numbered from zero.  On [patch_two_stretches] the numbers are 5, 7, 1,
    2: each hunk is a stretch with increasing numbers.  On
    [patch_two_hunks] the headers advance and the numbers 3, 5, 21 increase
    over the whole file. *)
Lemma numbers_are_header_relative_witness :
  nth_error (map recordKey (parsePatch patch_bad_header)) 0
  = Some (lit "a", 7)
  /\ nth_error (map recordKey (parsePatch patch_bad_header)) 1
     = Some (lit "b", 0)
  /\ nth_error (map recordKey (parsePatch patch_no_header)) 0
     = Some (lit "a", 0)
  /\ map AddedLine.number (parsePatch patch_two_stretches) = [5; 7; 1; 2]
  /\ StronglySorted Z.lt
       (firstn 2 (skipn 0
          (map AddedLine.number (parsePatch patch_two_stretches))))
  /\ StronglySorted Z.lt
       (firstn 2 (skipn 2
          (map AddedLine.number (parsePatch patch_two_stretches))))
  /\ map AddedLine.number (parsePatch patch_two_hunks) = [3; 5; 21]
  /\ StronglySorted Z.lt (map AddedLine.number (parsePatch patch_two_hunks))
  /\ NoDup (map AddedLine.number (parsePatch patch_two_hunks)).
Proof.
  split; [|split; [|split; [|split; [|split; [|split; [|split]]]]]].
  - destruct (numbers_are_header_relative patch_bad_header eq_refl)
      as (_ & _ & H & _).
    apply (H [] (lit "@@ -3,2 +7,3 @@") [] (lit "+a")
             [lit "@@ broken"; lit "+b"]);
      [reflexivity | reflexivity | constructor | reflexivity].
  - destruct (numbers_are_header_relative patch_bad_header eq_refl)
      as (_ & _ & H & _).
    apply (H [lit "@@ -3,2 +7,3 @@"; lit "+a"] (lit "@@ broken") []
             (lit "+b") []);
      [reflexivity | reflexivity | constructor | reflexivity].
  - destruct (numbers_are_header_relative patch_no_header eq_refl)
      as (_ & _ & _ & H & _).
    apply (H [] (lit "+a") []); [reflexivity | constructor | reflexivity].
  - reflexivity.
  - destruct (numbers_are_header_relative patch_two_stretches eq_refl)
      as (_ & _ & _ & _ & H & _).
    apply (H [lit "@@ -1,1 +5,3 @@"] [lit "+a"; lit " x"; lit "+b"]
             [lit "@@ -1 +1,2 @@"; lit "+c"; lit "+d"]);
      [reflexivity | repeat constructor].
  - destruct (numbers_are_header_relative patch_two_stretches eq_refl)
      as (_ & _ & _ & _ & H & _).
    apply (H [lit "@@ -1,1 +5,3 @@"; lit "+a"; lit " x"; lit "+b";
              lit "@@ -1 +1,2 @@"]
             [lit "+c"; lit "+d"] []);
      [reflexivity | repeat constructor].
  - reflexivity.
  - destruct (numbers_are_header_relative patch_two_hunks eq_refl)
      as (_ & _ & _ & _ & _ & H).
    split; apply H; reflexivity.
Defined.

(** C6 as the specification words it fails: with a second header that
    declares an earlier start the numbers go down, and an added line with no
    header before it gets the number zero. *)
Lemma numbers_not_increasing_nor_positive :
  map AddedLine.number (parsePatch patch_headers_backwards) = [5; 1]
  /\ ~ StronglySorted Z.lt
         (map AddedLine.number (parsePatch patch_headers_backwards))
  /\ map AddedLine.number (parsePatch patch_no_header) = [0]
  /\ ~ Forall (fun r => 0 < AddedLine.number r) (parsePatch patch_no_header).
Proof.
  split; [reflexivity|]. split.
  - intro H. vm_compute in H. inversion H as [|a l Hs Hf]; subst.
    inversion Hf as [|x l' Hx _]; subst. discriminate Hx.
  - split; [reflexivity|].
    intro H. vm_compute in H. inversion H as [|a l Hx _]; subst.
    discriminate Hx.
Qed.

Section TripleSigns.

Lemma startsWith_cons (c : jschar) (p s : jsstring) :
  startsWith s (c :: p) = true ->
  exists s', s = c :: s' /\ startsWith s' p = true.
Proof.
  destruct s as [|d s']; simpl; [discriminate|].
  intros H. apply andb_true_iff in H as [Hc Hp].
  apply N.eqb_eq in Hc. subst d. exists s'. split; [reflexivity|exact Hp].
Qed.

Lemma triple_plus_is_context (line : jsstring) :
  startsWith line (lit "+++") = true -> lineKind line = ContextLine.
Proof.
  change (lit "+++") with [43%N; 43%N; 43%N]. intros H.
  apply startsWith_cons in H as (s1 & -> & H).
  apply startsWith_cons in H as (s2 & -> & H).
  apply startsWith_cons in H as (s3 & -> & _).
  reflexivity.
Qed.

Lemma triple_minus_is_context (line : jsstring) :
  startsWith line (lit "---") = true -> lineKind line = ContextLine.
Proof.
  change (lit "---") with [45%N; 45%N; 45%N]. intros H.
  apply startsWith_cons in H as (s1 & -> & H).
  apply startsWith_cons in H as (s2 & -> & H).
  apply startsWith_cons in H as (s3 & -> & _).
  reflexivity.
Qed.

End TripleSigns.

(** C10. A line that begins with three plus signs or three minus signs is
    treated as a context line: the step is the one taken for the empty
    line, nothing is put into the hunk buffer, the buffer is finalized when
    it holds a line and kept when it holds none, and both counters move by
    one.  The set of numbered added lines does not grow, so an added line
    whose content begins with two plus signs leaves no record. *)
Theorem triple_sign_line_is_context (st : Parser.t) (line : jsstring) :
  startsWith line (lit "+++") = true \/ startsWith line (lit "---") = true ->
  lineKind line = ContextLine
  /\ parseLine st line = parseLine st []
  /\ Parser.newLineNum (parseLine st line) = Parser.newLineNum st + 1
  /\ Parser.oldLineNum (parseLine st line) = Parser.oldLineNum st + 1
  /\ Parser.addedLines (parseLine st line)
     = Parser.addedLines st
       ++ emitted (Parser.currentHunk st) (Parser.addedLines st)
  /\ Hunk.addedLines (Parser.currentHunk (parseLine st line)) = []
  /\ Hunk.removedLines (Parser.currentHunk (parseLine st line)) = []
  /\ (Hunk.addedLines (Parser.currentHunk st) <> []
      \/ Hunk.removedLines (Parser.currentHunk st) <> [] ->
      (Parser.currentHunk (parseLine st line),
       Parser.addedLines (parseLine st line))
      = finalizeHunk (Parser.currentHunk st) (Parser.addedLines st))
  /\ (Hunk.addedLines (Parser.currentHunk st) = [] ->
      Hunk.removedLines (Parser.currentHunk st) = [] ->
      Parser.currentHunk (parseLine st line) = Parser.currentHunk st
      /\ Parser.addedLines (parseLine st line) = Parser.addedLines st)
  /\ numberedSoFar (parseLine st line) = numberedSoFar st.
Proof.
  intros H.
  assert (Hk : lineKind line = ContextLine)
    by (destruct H; [apply triple_plus_is_context
                    | apply triple_minus_is_context]; assumption).
  split; [exact Hk|].
  split.
  { rewrite (parseLine_context st line Hk).
    rewrite (parseLine_context st [] eq_refl). reflexivity. }
  destruct (parseLine_numbered st line) as [Hnum _].
  simpl in Hnum. rewrite Hk, app_nil_r in Hnum.
  rewrite (parseLine_context st line Hk) in *.
  cbn [Parser.newLineNum Parser.oldLineNum Parser.addedLines
       Parser.currentHunk].
  destruct (finalizeHunk_parts (Parser.currentHunk st)
              (Parser.addedLines st)) as [Hfst Hsnd].
  split; [reflexivity|]. split; [reflexivity|]. split; [exact Hsnd|].
  destruct (Hunk.addedLines (Parser.currentHunk st)) as [|a la] eqn:Ea,
           (Hunk.removedLines (Parser.currentHunk st)) as [|r lr] eqn:Er.
  - repeat split; try assumption; try reflexivity.
    + intros [Hc | Hc]; congruence.
    + unfold finalizeHunk. rewrite Ea, Er. reflexivity.
  - repeat split; try reflexivity; try assumption; try congruence.
    intros _. rewrite <- Hfst. symmetry. apply surjective_pairing.
  - repeat split; try reflexivity; try assumption; try congruence.
    intros _. rewrite <- Hfst. symmetry. apply surjective_pairing.
  - repeat split; try reflexivity; try assumption; try congruence.
    intros _. rewrite <- Hfst. symmetry. apply surjective_pairing.
Qed.

Lemma triple_sign_line_is_context_witness :
  parseLines parserInit [lit "@@ -1,1 +1,3 @@"; lit "+a"]
  = state_after_one_added
  /\ parseLine state_after_one_added (lit "+++i;")
     = Parser.mk [AddedLine.mk (lit "a") 1 ADD_ONLY []] 3 2 createEmptyHunk
  /\ numberedSoFar (parseLine state_after_one_added (lit "+++i;"))
     = [(lit "a", 1)]
  /\ map recordKey (parsePatch patch_plus_plus) = [(lit "a", 1); (lit "c", 3)].
Proof.
  destruct (triple_sign_line_is_context state_after_one_added (lit "+++i;")
              (or_introl eq_refl))
    as (_ & H1 & _ & _ & _ & _ & _ & _ & _ & H2).
  split; [reflexivity|].
  split; [rewrite H1; reflexivity|].
  split; [rewrite H2; reflexivity | reflexivity].
Defined.



(* ------------------------------------------------------------------ *)
(** ** The scenarios of the specification, run on the model *)

(** A new file of two lines: numbers 1 and 2, both add-only. *)
Example scenario_new_file :
  parsePatch patch_new_file
  = [AddedLine.mk (lit "a") 1 ADD_ONLY []; AddedLine.mk (lit "b") 2 ADD_ONLY []].
Proof. reflexivity. Qed.

(** One line replaced by another: a replace hunk that keeps the removed
    line. *)
Example scenario_replace :
  parsePatch (unlines [lit "@@ -4,1 +4,1 @@"; lit "-x"; lit "+y"])
  = [AddedLine.mk (lit "y") 4 REPLACE [entry "x" 4]].
Proof. reflexivity. Qed.

(** Two blank lines removed and one line added: add-only. *)
Example scenario_blank_removals :
  parsePatch (unlines [lit "@@ -4,2 +4,1 @@"; lit "-"; lit "-  "; lit "+y"])
  = [AddedLine.mk (lit "y") 4 ADD_ONLY []].
Proof. reflexivity. Qed.

(** The annotation line of a missing final newline moves no counter. *)
Example scenario_annotation :
  map recordKey
    (parsePatch (unlines [lit "@@ -1 +1,2 @@"; lit "+a";
                          lit "\ No newline at end of file"; lit "+b"]))
  = [(lit "a", 1); (lit "b", 2)].
Proof. reflexivity. Qed.

(** The header pattern is searched for anywhere in the line. *)
Example header_pattern_unanchored :
  execHeader (lit "@@ -x @@ -12,6 +13 @@ f()") = Some (lit "12", lit "13")
  /\ execHeader (lit "@@ -12, +13 @@") = None.
Proof. split; reflexivity. Qed.

(** The same author five and forty days later, then another author on the
    same day. *)
Example scenario_categories :
  Classification.category
    (classifyLine sampleDateParse 4 REPLACE (BlameArray [range_alice])
       (Some (lit "Alice")) (ValidDate (1704067200000 + 5 * 86400000))
       (Num 21)) = CHURN
  /\ Classification.category
       (classifyLine sampleDateParse 4 REPLACE (BlameArray [range_alice])
          (Some (lit "Alice")) (ValidDate (1704067200000 + 40 * 86400000))
          (Num 21)) = REWORK
  /\ Classification.category
       (classifyLine sampleDateParse 4 REPLACE (BlameArray [range_alice])
          (Some (lit "Bob")) (ValidDate 1704067200000) (Num 21))
     = HELP_OTHERS.
Proof. repeat split. Qed.

(* ================================================================== *)
(** * Further properties of the patch parser *)

Section ParserInvariants.

(** [P] holds of the records, [H] of the hunk buffer, [L] of the lines. *)
Variable P : AddedLine.t -> Prop.
Variable H : Hunk.t -> Prop.
Variable L : jsstring -> Prop.

Hypothesis H_empty : forall a b, H (Hunk.mk [] [] a b).
Hypothesis H_added :
  forall h l n, H h -> L l -> lineKind l = AddedLineK ->
    H (Hunk.mk (Hunk.removedLines h)
         (Hunk.addedLines h ++ [HunkLine.mk (substring1 l) n])
         (Hunk.startNewLine h) (Hunk.startOldLine h)).
Hypothesis H_removed :
  forall h l n, H h -> L l -> lineKind l = RemovedLineK ->
    H (Hunk.mk (Hunk.removedLines h ++ [HunkLine.mk (substring1 l) n])
         (Hunk.addedLines h)
         (Hunk.startNewLine h) (Hunk.startOldLine h)).
Hypothesis P_emitted : forall h out, H h -> Forall P (emitted h out).

Lemma finalizeHunk_keeps (h : Hunk.t) (out : list AddedLine.t) :
  H h -> Forall P out -> Forall P (snd (finalizeHunk h out)).
Proof.
  intros Hh Hout. destruct (finalizeHunk_parts h out) as [_ ->].
  apply Forall_app. split; [exact Hout | apply P_emitted; exact Hh].
Qed.

Lemma parseLine_keeps (st : Parser.t) (l : jsstring) :
  L l ->
  H (Parser.currentHunk st) -> Forall P (Parser.addedLines st) ->
  H (Parser.currentHunk (parseLine st l))
  /\ Forall P (Parser.addedLines (parseLine st l)).
Proof.
  intros Hl Hh Hout. destruct (lineKind l) eqn:Hk.
  - rewrite (parseLine_header st l Hk). simpl.
    split; [apply H_empty | apply finalizeHunk_keeps; assumption].
  - rewrite (parseLine_added st l Hk). simpl.
    split; [apply H_added; assumption | exact Hout].
  - rewrite (parseLine_removed st l Hk). simpl.
    split; [apply H_removed; assumption | exact Hout].
  - rewrite (parseLine_context st l Hk). simpl.
    split; [|apply finalizeHunk_keeps; assumption].
    destruct (Hunk.addedLines (Parser.currentHunk st)),
             (Hunk.removedLines (Parser.currentHunk st));
      try apply H_empty. exact Hh.
  - rewrite (parseLine_annotation st l Hk). split; assumption.
Qed.

Lemma parseLines_keeps (lines : list jsstring) :
  Forall L lines ->
  forall st,
    H (Parser.currentHunk st) -> Forall P (Parser.addedLines st) ->
    H (Parser.currentHunk (parseLines st lines))
    /\ Forall P (Parser.addedLines (parseLines st lines)).
Proof.
  induction 1 as [|l lines Hl _ IH]; intros st Hh Hout.
  - split; assumption.
  - destruct (parseLine_keeps st l Hl Hh Hout) as [Hh' Hout'].
    apply (IH _ Hh' Hout').
Qed.

Lemma parsePatch_keeps (patch : jsstring) :
  Forall L (split_lines patch) -> Forall P (parsePatch patch).
Proof.
  intros Hlines. unfold parsePatch, parseEnd.
  destruct (parseLines_keeps _ Hlines parserInit) as [Hh Hout].
  - apply H_empty.
  - constructor.
  - apply finalizeHunk_keeps; assumption.
Qed.

End ParserInvariants.

(** What the hunk type of a record says about the record. *)
Definition recordWellTyped (r : AddedLine.t) : Prop :=
  match AddedLine.hunkType r with
  | ADD_ONLY => AddedLine.removedLines r = []
  | DELETE_ONLY =>
      AddedLine.removedLines r = [] /\ isBlankLine (AddedLine.line r) = true
  | REPLACE => Exists nonBlankEntry (AddedLine.removedLines r)
  end.

Lemma emitted_wellTyped (h : Hunk.t) (out : list AddedLine.t) :
  Forall recordWellTyped (emitted h out).
Proof.
  rewrite emitted_eq. apply Forall_forall. intros r Hr.
  apply in_map_iff in Hr as (a & <- & Ha).
  unfold recordWellTyped. cbn [AddedLine.hunkType AddedLine.removedLines
                                 AddedLine.line].
  unfold hunkTypeOf. rewrite determineHunkType_cases.
  destruct (filter nonBlank (Hunk.removedLines h)) as [|x lx] eqn:Er,
           (filter nonBlank (Hunk.addedLines h)) as [|y ly] eqn:Ea;
    cbn [HunkType_eqb].
  - destruct (Hunk.addedLines h) as [|b lb] eqn:E0; [|reflexivity].
    destruct Ha.
  - reflexivity.
  - split; [reflexivity|].
    apply filter_nonBlank_nil in Ea. rewrite Forall_forall in Ea.
    apply (Ea a Ha).
  - apply filter_nonBlank_cons. rewrite Er. discriminate.
Qed.

(** X1. The records of [parsePatch] are consistent with their type: an
    add-only record carries no removed lines; a delete-only record carries
    none either and its own content is blank; a replace record carries at
    least one removed line that is not blank. *)
Theorem parsePatch_records_well_typed (patch : jsstring) (r : AddedLine.t) :
  In r (parsePatch patch) ->
  (AddedLine.hunkType r = ADD_ONLY -> AddedLine.removedLines r = [])
  /\ (AddedLine.hunkType r = DELETE_ONLY ->
      AddedLine.removedLines r = [] /\ isBlankLine (AddedLine.line r) = true)
  /\ (AddedLine.hunkType r = REPLACE ->
      Exists nonBlankEntry (AddedLine.removedLines r))
  /\ (isBlankLine (AddedLine.line r) = false ->
      AddedLine.hunkType r <> DELETE_ONLY).
Proof.
  intros Hr.
  assert (Hall : Forall recordWellTyped (parsePatch patch)).
  { apply (parsePatch_keeps recordWellTyped (fun _ => True) (fun _ => True));
      try (intros; exact I).
    - intros h out _. apply emitted_wellTyped.
    - apply Forall_forall. intros; exact I. }
  rewrite Forall_forall in Hall. specialize (Hall r Hr).
  unfold recordWellTyped in Hall.
  destruct (AddedLine.hunkType r); repeat split; try discriminate;
    try (intros _; tauto); try tauto.
  destruct Hall as [_ Hb]. congruence.
Qed.

Lemma parsePatch_records_well_typed_witness :
  In (AddedLine.mk (lit "  ") 3 DELETE_ONLY []) (parsePatch patch_blank_for_code)
  /\ isBlankLine (lit "  ") = true
  /\ In (AddedLine.mk (lit "y") 4 REPLACE [entry "x" 4])
        (parsePatch (unlines [lit "@@ -4,1 +4,1 @@"; lit "-x"; lit "+y"]))
  /\ Exists nonBlankEntry [entry "x" 4].
Proof.
  assert (H1 : In (AddedLine.mk (lit "  ") 3 DELETE_ONLY [])
                  (parsePatch patch_blank_for_code)) by (left; reflexivity).
  assert (H2 : In (AddedLine.mk (lit "y") 4 REPLACE [entry "x" 4])
                  (parsePatch
                     (unlines [lit "@@ -4,1 +4,1 @@"; lit "-x"; lit "+y"])))
    by (left; reflexivity).
  split; [exact H1|]. split.
  - apply (parsePatch_records_well_typed _ _ H1). reflexivity.
  - split; [exact H2|].
    apply (parsePatch_records_well_typed _ _ H2). reflexivity.
Defined.

Lemma emitted_add_only (h : Hunk.t) (out : list AddedLine.t) :
  Forall blankEntry (Hunk.removedLines h) ->
  Forall (fun r => AddedLine.hunkType r = ADD_ONLY
                   /\ AddedLine.removedLines r = [])
         (emitted h out).
Proof.
  intros Hr. apply filter_nonBlank_nil in Hr.
  rewrite emitted_eq. apply Forall_forall. intros r Hin.
  apply in_map_iff in Hin as (a & <- & Ha).
  cbn [AddedLine.hunkType AddedLine.removedLines].
  assert (Ht : hunkTypeOf h = ADD_ONLY).
  { unfold hunkTypeOf. rewrite determineHunkType_cases, Hr.
    destruct (filter nonBlank (Hunk.addedLines h)); [|reflexivity].
    destruct (Hunk.addedLines h); [destruct Ha | reflexivity]. }
  rewrite Ht. split; reflexivity.
Qed.

Lemma blank_removals_only_add (patch : jsstring) :
  Forall (fun l => lineKind l = RemovedLineK ->
                   isBlankLine (substring1 l) = true)
         (split_lines patch) ->
  Forall (fun r => AddedLine.hunkType r = ADD_ONLY) (parsePatch patch).
Proof.
  apply (parsePatch_keeps
           (fun r => AddedLine.hunkType r = ADD_ONLY)
           (fun h => Forall blankEntry (Hunk.removedLines h))).
  - intros a b. constructor.
  - intros h l n Hh _ _. exact Hh.
  - intros h l n Hh Hl Hk. cbn [Hunk.removedLines].
    apply Forall_app. split; [exact Hh|].
    constructor; [|constructor]. apply (Hl Hk).
  - intros h out Hh. eapply Forall_impl; [|apply (emitted_add_only h out Hh)].
    intros r Hr. apply Hr.
Qed.

(** X2. When every removed line of the diff text is blank (in particular
    when it removes nothing), every record is add-only and carries no
    removed lines. *)
Theorem blank_removals_give_add_only (patch : jsstring) :
  Forall (fun l => lineKind l = RemovedLineK ->
                   isBlankLine (substring1 l) = true)
         (split_lines patch) ->
  Forall (fun r => AddedLine.hunkType r = ADD_ONLY
                   /\ AddedLine.removedLines r = [])
         (parsePatch patch).
Proof.
  apply (parsePatch_keeps
           (fun r => AddedLine.hunkType r = ADD_ONLY
                     /\ AddedLine.removedLines r = [])
           (fun h => Forall blankEntry (Hunk.removedLines h))).
  - intros a b. constructor.
  - intros h l n Hh _ _. exact Hh.
  - intros h l n Hh Hl Hk. cbn [Hunk.removedLines].
    apply Forall_app. split; [exact Hh|].
    constructor; [|constructor]. apply (Hl Hk).
  - intros h out Hh. apply emitted_add_only. exact Hh.
Qed.

Lemma blank_removals_give_add_only_witness :
  Forall (fun r => AddedLine.hunkType r = ADD_ONLY
                   /\ AddedLine.removedLines r = [])
         (parsePatch patch_blank_removals)
  /\ length (parsePatch patch_blank_removals) = 1%nat.
Proof.
  split; [|reflexivity].
  apply blank_removals_give_add_only.
  repeat constructor; intros; try discriminate; reflexivity.
Defined.

(* ================================================================== *)
(** * Further properties of the line classifier *)

Section ClassifierShape.

Variable dateParse : jsstring -> option Z.

Lemma orNull_not_empty (o : option jsstring) : orNull o <> Some [].
Proof. destruct o as [[|c s]|]; simpl; congruence. Qed.

Lemma orNull_some (o : option jsstring) (s : jsstring) :
  orNull o = Some s -> o = Some s /\ s <> [].
Proof.
  destruct o as [[|c r]|]; simpl; try discriminate.
  intros [= <-]. split; [reflexivity | discriminate].
Qed.

Lemma find_some_in {A} (f : A -> bool) (l : list A) (x : A) :
  find f l = Some x -> In x l /\ f x = true.
Proof. apply find_some. Qed.

(** The result of [classifyLine] in all cases. *)
Lemma classifyLine_cases (lineNum : Z) (hunkType : HunkType)
    (blameRanges : BlameInput) (cur : option jsstring) (curDate : jsdate)
    (thr : jsnum) :
  classifyLine dateParse lineNum hunkType blameRanges cur curDate thr
  = noEvidence
  \/ exists ranges r,
       hunkType = REPLACE
       /\ blameRanges = BlameArray ranges
       /\ find (inRange lineNum) ranges = Some r
       /\ classifyLine dateParse lineNum hunkType blameRanges cur curDate thr
          = match option_map (newDate dateParse)
                    (orNull (rangeCommittedDate r)) with
            | None =>
                Classification.mk NEW_WORK (orNull (rangeAuthorName r))
                  (orNull (rangeCommitId r)) None
            | Some prevDate =>
                Classification.mk
                  (if sameAuthor (orNull (rangeAuthorName r)) cur
                   then (if jsle (calculateDeltaDays curDate prevDate) thr
                         then CHURN else REWORK)
                   else HELP_OTHERS)
                  (orNull (rangeAuthorName r)) (orNull (rangeCommitId r))
                  (Some (calculateDeltaDays curDate prevDate))
            end.
Proof.
  destruct hunkType; try (left; reflexivity).
  destruct blameRanges as [ranges|]; [|left; reflexivity].
  destruct (find (inRange lineNum) ranges) as [r|] eqn:Hf.
  - right. exists ranges, r. repeat split; try assumption.
    rewrite (classifyLine_matched dateParse _ _ r _ _ _ Hf).
    rewrite extractCommitInfo_fields. reflexivity.
  - left. unfold classifyLine. rewrite Hf. reflexivity.
Qed.

End ClassifierShape.

(** The delta is absent exactly for New Work. *)
Lemma classification_evidence_parts (dateParse : jsstring -> option Z)
    (lineNum : Z) (hunkType : HunkType) (blameRanges : BlameInput)
    (cur : option jsstring) (curDate : jsdate) (thr : jsnum) :
  Classification.category
    (classifyLine dateParse lineNum hunkType blameRanges cur curDate thr)
  = NEW_WORK
  <-> Classification.deltaDays
        (classifyLine dateParse lineNum hunkType blameRanges cur curDate thr)
      = None.
Proof.
  destruct (classifyLine_cases dateParse lineNum hunkType blameRanges cur
              curDate thr) as [-> | (ranges & r & _ & _ & _ & ->)].
  - split; reflexivity.
  - destruct (option_map (newDate dateParse) (orNull (rangeCommittedDate r)));
      cbn [Classification.category Classification.deltaDays];
      [|split; reflexivity].
    split; [|discriminate].
    destruct (sameAuthor (orNull (rangeAuthorName r)) cur);
      [destruct (jsle _ _)|]; discriminate.
Qed.

(** X3. The evidence of a result agrees with its category.  The delta is
    present exactly when the category is not New Work.  A category other
    than New Work arises only in a replace hunk, from a range of the blame
    array that covers the line and has a commit date that is not empty.  A
    previous author or commit that is reported is never the empty string,
    and is reported only when some range covers the line. *)
Theorem classification_evidence (dateParse : jsstring -> option Z)
    (lineNum : Z) (hunkType : HunkType) (blameRanges : BlameInput)
    (currentAuthor : option jsstring) (currentDate : jsdate)
    (maxDeltaDays : jsnum) (res : Classification.t) :
  res = classifyLine dateParse lineNum hunkType blameRanges currentAuthor
          currentDate maxDeltaDays ->
  (Classification.category res = NEW_WORK
   <-> Classification.deltaDays res = None)
  /\ (Classification.category res <> NEW_WORK ->
      hunkType = REPLACE
      /\ exists ranges r s,
           blameRanges = BlameArray ranges /\ In r ranges
           /\ covers lineNum r
           /\ rangeCommittedDate r = Some s /\ s <> [])
  /\ Classification.prevAuthor res <> Some []
  /\ Classification.prevCommit res <> Some []
  /\ (Classification.prevAuthor res <> None
      \/ Classification.prevCommit res <> None ->
      hunkType = REPLACE
      /\ exists ranges r,
           blameRanges = BlameArray ranges /\ In r ranges
           /\ covers lineNum r).
Proof.
  intros ->.
  destruct (classifyLine_cases dateParse lineNum hunkType blameRanges
              currentAuthor currentDate maxDeltaDays)
    as [-> | (ranges & r & -> & -> & Hf & ->)].
  - unfold noEvidence.
    cbn [Classification.category Classification.deltaDays
         Classification.prevAuthor Classification.prevCommit].
    split; [split; reflexivity|]. split; [congruence|].
    split; [discriminate|]. split; [discriminate|].
    intros [Hc | Hc]; congruence.
  - apply find_some_in in Hf as [Hin Hcov]. apply inRange_covers in Hcov.
    destruct (orNull (rangeCommittedDate r)) as [s|] eqn:Hd;
      cbn [option_map Classification.category Classification.deltaDays
           Classification.prevAuthor Classification.prevCommit].
    + apply orNull_some in Hd as [Hd Hne].
      split.
      { split; [|discriminate].
        destruct (sameAuthor (orNull (rangeAuthorName r)) currentAuthor);
          [destruct (jsle _ _)|]; discriminate. }
      split.
      { intros _. split; [reflexivity|].
        exists ranges, r, s.
        split; [reflexivity|]. split; [exact Hin|]. split; [exact Hcov|].
        split; assumption. }
      split; [apply orNull_not_empty|].
      split; [apply orNull_not_empty|].
      intros _. split; [reflexivity|].
      exists ranges, r.
      split; [reflexivity|]. split; [exact Hin | exact Hcov].
    + split; [split; reflexivity|].
      split; [congruence|].
      split; [apply orNull_not_empty|].
      split; [apply orNull_not_empty|].
      intros _. split; [reflexivity|].
      exists ranges, r.
      split; [reflexivity|]. split; [exact Hin | exact Hcov].
Qed.

Lemma classification_evidence_witness :
  Classification.deltaDays
    (classifyLine sampleDateParse 12 REPLACE (BlameArray [range_bob])
       (Some (lit "Alice")) jan22 (Num 21)) <> None
  /\ Classification.prevCommit
       (classifyLine sampleDateParse 12 REPLACE (BlameArray [range_empty_oid])
          (Some (lit "Alice")) jan22 (Num 21)) <> Some [].
Proof.
  split.
  - destruct (classification_evidence sampleDateParse 12 REPLACE
                (BlameArray [range_bob]) (Some (lit "Alice")) jan22 (Num 21)
                _ eq_refl) as ([_ H] & _).
    intro Hd. apply H in Hd. discriminate Hd.
  - apply (classification_evidence sampleDateParse 12 REPLACE
             (BlameArray [range_empty_oid]) (Some (lit "Alice")) jan22
             (Num 21) _ eq_refl).
Defined.

(** The result of the replace branch for the range that [find] returned. *)
Definition classifyFound (dateParse : jsstring -> option Z) (r : BlameRange.t)
    (cur : option jsstring) (curDate : jsdate) (thr : jsnum)
    : Classification.t :=
  match option_map (newDate dateParse) (orNull (rangeCommittedDate r)) with
  | None =>
      Classification.mk NEW_WORK (orNull (rangeAuthorName r))
        (orNull (rangeCommitId r)) None
  | Some prevDate =>
      Classification.mk
        (if sameAuthor (orNull (rangeAuthorName r)) cur
         then (if jsle (calculateDeltaDays curDate prevDate) thr
               then CHURN else REWORK)
         else HELP_OTHERS)
        (orNull (rangeAuthorName r)) (orNull (rangeCommitId r))
        (Some (calculateDeltaDays curDate prevDate))
  end.

Section ClassifierForm.

Variable dateParse : jsstring -> option Z.

Lemma classifyLine_replace (lineNum : Z) (ranges : list BlameRange.t)
    (cur : option jsstring) (curDate : jsdate) (thr : jsnum) :
  classifyLine dateParse lineNum REPLACE (BlameArray ranges) cur curDate thr
  = match find (inRange lineNum) ranges with
    | Some r => classifyFound dateParse r cur curDate thr
    | None => noEvidence
    end.
Proof.
  destruct (find (inRange lineNum) ranges) as [r|] eqn:Hf.
  - rewrite (classifyLine_matched dateParse _ _ r _ _ _ Hf).
    rewrite extractCommitInfo_fields. reflexivity.
  - unfold classifyLine. rewrite Hf. reflexivity.
Qed.

(** Every result is the one without evidence or the one of a range. *)
Lemma classifyLine_form (lineNum : Z) (hunkType : HunkType)
    (blameRanges : BlameInput) (cur : option jsstring) (curDate : jsdate)
    (thr : jsnum) :
  (forall thr', classifyLine dateParse lineNum hunkType blameRanges cur
                  curDate thr' = noEvidence)
  \/ exists r, forall thr',
       classifyLine dateParse lineNum hunkType blameRanges cur curDate thr'
       = classifyFound dateParse r cur curDate thr'.
Proof.
  destruct hunkType; try (left; reflexivity).
  destruct blameRanges as [ranges|]; [|left; reflexivity].
  destruct (find (inRange lineNum) ranges) as [r|] eqn:Hf.
  - right. exists r. intro thr'. rewrite classifyLine_replace, Hf. reflexivity.
  - left. intro thr'. rewrite classifyLine_replace, Hf. reflexivity.
Qed.

Lemma jsle_raise (d : jsnum) (t t' : Q) :
  (t <= t')%Q -> jsle d (Num t) = true -> jsle d (Num t') = true.
Proof.
  destruct d as [q|]; simpl; [|discriminate].
  intros Htt Hq. apply Qle_bool_iff. apply Qle_bool_iff in Hq.
  apply (Qle_trans _ _ _ Hq Htt).
Qed.

Lemma find_filter_same {A} (f : A -> bool) (l : list A) :
  find f (filter f l) = find f l.
Proof.
  induction l as [|x l IH]; simpl; [reflexivity|].
  destruct (f x) eqn:E; simpl; [rewrite E; reflexivity | exact IH].
Qed.

End ClassifierForm.

(** X4. The threshold decides between Churn and Rework and nothing else:
    two thresholds give the same previous author, previous commit and
    delta, and categories that are equal or are Churn and Rework.  Raising
    the threshold never turns Churn into Rework.  With a threshold that is
    not a number no line is Churn. *)
Theorem threshold_splits_churn_and_rework (dateParse : jsstring -> option Z)
    (lineNum : Z) (hunkType : HunkType) (blameRanges : BlameInput)
    (currentAuthor : option jsstring) (currentDate : jsdate)
    (thr thr' : jsnum) (res res' : Classification.t) :
  res = classifyLine dateParse lineNum hunkType blameRanges currentAuthor
          currentDate thr ->
  res' = classifyLine dateParse lineNum hunkType blameRanges currentAuthor
           currentDate thr' ->
  Classification.prevAuthor res = Classification.prevAuthor res'
  /\ Classification.prevCommit res = Classification.prevCommit res'
  /\ Classification.deltaDays res = Classification.deltaDays res'
  /\ (Classification.category res = Classification.category res'
      \/ (Classification.category res = CHURN
          /\ Classification.category res' = REWORK)
      \/ (Classification.category res = REWORK
          /\ Classification.category res' = CHURN))
  /\ (forall t t', thr = Num t -> thr' = Num t' -> (t <= t')%Q ->
      Classification.category res = CHURN ->
      Classification.category res' = CHURN)
  /\ (thr = NaN -> Classification.category res <> CHURN).
Proof.
  intros -> ->.
  destruct (classifyLine_form dateParse lineNum hunkType blameRanges
              currentAuthor currentDate thr) as [Hn | [r Hr]].
  - rewrite !Hn. unfold noEvidence. simpl.
    repeat split; try (left; reflexivity); intros; discriminate.
  - rewrite !Hr. unfold classifyFound.
    destruct (option_map (newDate dateParse) (orNull (rangeCommittedDate r)))
      as [d|];
      cbn [Classification.category Classification.deltaDays
           Classification.prevAuthor Classification.prevCommit].
    + destruct (sameAuthor (orNull (rangeAuthorName r)) currentAuthor).
      * split; [reflexivity|]. split; [reflexivity|]. split; [reflexivity|].
        split.
        { destruct (jsle (calculateDeltaDays currentDate d) thr),
                   (jsle (calculateDeltaDays currentDate d) thr'); tauto. }
        split.
        { intros t t' -> -> Htt Hc.
          destruct (jsle (calculateDeltaDays currentDate d) (Num t)) eqn:E;
            [|discriminate].
          rewrite (jsle_raise _ _ _ Htt E). reflexivity. }
        intros ->.
        destruct (calculateDeltaDays currentDate d); discriminate.
      * repeat split; try (left; reflexivity); intros; discriminate.
    + repeat split; try (left; reflexivity); intros; discriminate.
Qed.

Lemma threshold_splits_churn_and_rework_witness :
  Classification.category
    (classifyLine sampleDateParse 20 REPLACE (BlameArray [range_alice])
       (Some (lit "Alice")) jan22 (Num 30)) = CHURN
  /\ Classification.category
       (classifyLine sampleDateParse 20 REPLACE (BlameArray [range_alice])
          (Some (lit "Alice")) jan22 NaN) <> CHURN.
Proof.
  split.
  - destruct (threshold_splits_churn_and_rework sampleDateParse 20 REPLACE
                (BlameArray [range_alice]) (Some (lit "Alice")) jan22
                (Num 21) (Num 30) _ _ eq_refl eq_refl)
      as (_ & _ & _ & _ & H & _).
    apply (H 21%Q 30%Q); try reflexivity. discriminate.
  - apply (threshold_splits_churn_and_rework sampleDateParse 20 REPLACE
             (BlameArray [range_alice]) (Some (lit "Alice")) jan22
             NaN NaN _ _ eq_refl eq_refl). reflexivity.
Defined.

(** X5. The result depends on the blame ranges only through the ranges
    that cover the line, taken in their order: two arrays with the same
    covering ranges give the same result, and dropping every range that
    does not cover the line changes nothing. *)
Theorem only_covering_ranges_matter (dateParse : jsstring -> option Z)
    (lineNum : Z) (hunkType : HunkType) (ranges ranges' : list BlameRange.t)
    (currentAuthor : option jsstring) (currentDate : jsdate)
    (maxDeltaDays : jsnum) :
  filter (inRange lineNum) ranges = filter (inRange lineNum) ranges' ->
  classifyLine dateParse lineNum hunkType (BlameArray ranges) currentAuthor
    currentDate maxDeltaDays
  = classifyLine dateParse lineNum hunkType (BlameArray ranges') currentAuthor
      currentDate maxDeltaDays
  /\ classifyLine dateParse lineNum hunkType (BlameArray ranges) currentAuthor
       currentDate maxDeltaDays
     = classifyLine dateParse lineNum hunkType
         (BlameArray (filter (inRange lineNum) ranges)) currentAuthor
         currentDate maxDeltaDays.
Proof.
  intros Hf. destruct hunkType; try (split; reflexivity).
  rewrite !classifyLine_replace. split.
  - rewrite <- (find_filter_same _ ranges), <- (find_filter_same _ ranges').
    rewrite Hf. reflexivity.
  - rewrite find_filter_same. reflexivity.
Qed.

Lemma only_covering_ranges_matter_witness :
  classifyLine sampleDateParse 25 REPLACE
    (BlameArray [range_alice; range_bob]) (Some (lit "Alice")) jan22 (Num 21)
  = classifyLine sampleDateParse 25 REPLACE
      (BlameArray [range_bob; range_empty_date]) (Some (lit "Alice")) jan22
      (Num 21).
Proof.
  apply (only_covering_ranges_matter sampleDateParse 25 REPLACE
           [range_alice; range_bob] [range_bob; range_empty_date]).
  reflexivity.
Defined.

(** X6. A previous commit dated at or after the current date gives a delta
    that is not positive and is not clamped; for the same author and a
    threshold that is not negative the line is then Churn. *)
Theorem later_previous_commit_is_churn (dateParse : jsstring -> option Z)
    (lineNum : Z) (ranges : list BlameRange.t) (r : BlameRange.t)
    (a s : jsstring) (c p : Z) (t : Q) :
  find (inRange lineNum) ranges = Some r ->
  rangeAuthorName r = Some a -> a <> [] ->
  rangeCommittedDate r = Some s -> s <> [] ->
  dateParse s = Some p ->
  c <= p ->
  (0 <= t)%Q ->
  Classification.deltaDays
    (classifyLine dateParse lineNum REPLACE (BlameArray ranges) (Some a)
       (ValidDate c) (Num t))
  = Some (Num ((c - p) # MILLISECONDS_PER_DAY))
  /\ ((c - p) # MILLISECONDS_PER_DAY <= 0)%Q
  /\ Classification.category
       (classifyLine dateParse lineNum REPLACE (BlameArray ranges) (Some a)
          (ValidDate c) (Num t)) = CHURN.
Proof.
  intros Hf Ha Hane Hs Hsne Hp Hcp Ht.
  rewrite classifyLine_replace, Hf. unfold classifyFound.
  rewrite (orNull_present _ _ Hs Hsne), (orNull_present _ _ Ha Hane).
  cbn [option_map]. unfold newDate. rewrite Hp.
  cbn [calculateDeltaDays Classification.deltaDays Classification.category].
  assert (Hq : ((c - p) # MILLISECONDS_PER_DAY <= 0)%Q).
  { unfold Qle. simpl. lia. }
  split; [reflexivity|]. split; [exact Hq|].
  rewrite (proj2 (sameAuthor_eq (Some a) (Some a)) eq_refl).
  cbn [jsle]. rewrite (proj2 (Qle_bool_iff _ _) (Qle_trans _ _ _ Hq Ht)).
  reflexivity.
Qed.

Lemma later_previous_commit_is_churn_witness :
  Classification.category
    (classifyLine sampleDateParse 12 REPLACE
       (BlameArray [blame 1 20 "f00d" "2024-01-22T00:00:00Z" "Alice"])
       (Some (lit "Alice")) (ValidDate 1704067200000) (Num 0)) = CHURN.
Proof.
  apply (later_previous_commit_is_churn sampleDateParse 12
           [blame 1 20 "f00d" "2024-01-22T00:00:00Z" "Alice"]
           (blame 1 20 "f00d" "2024-01-22T00:00:00Z" "Alice")
           (lit "Alice") (lit "2024-01-22T00:00:00Z")
           1704067200000 1705881600000 0%Q);
    try reflexivity; try discriminate.
Defined.

(** X7. A matched range with a date and no author name (missing or empty)
    reports no previous author.  The line is Help Others for every current
    author that is a string; with a current author that is null the two
    absent authors count as the same one and the threshold decides. *)
Theorem missing_previous_author (dateParse : jsstring -> option Z)
    (lineNum : Z) (ranges : list BlameRange.t) (r : BlameRange.t)
    (currentAuthor : option jsstring) (currentDate : jsdate)
    (maxDeltaDays : jsnum) (s : jsstring) :
  find (inRange lineNum) ranges = Some r ->
  rangeAuthorName r = None \/ rangeAuthorName r = Some [] ->
  rangeCommittedDate r = Some s -> s <> [] ->
  Classification.prevAuthor
    (classifyLine dateParse lineNum REPLACE (BlameArray ranges) currentAuthor
       currentDate maxDeltaDays) = None
  /\ (currentAuthor <> None ->
      Classification.category
        (classifyLine dateParse lineNum REPLACE (BlameArray ranges)
           currentAuthor currentDate maxDeltaDays) = HELP_OTHERS)
  /\ (currentAuthor = None ->
      Classification.category
        (classifyLine dateParse lineNum REPLACE (BlameArray ranges)
           currentAuthor currentDate maxDeltaDays)
      = if jsle (calculateDeltaDays currentDate (newDate dateParse s))
                maxDeltaDays
        then CHURN else REWORK).
Proof.
  intros Hf Ha Hs Hsne.
  rewrite classifyLine_replace, Hf. unfold classifyFound.
  rewrite (orNull_present _ _ Hs Hsne), (orNull_absent _ Ha).
  cbn [option_map Classification.prevAuthor Classification.category].
  split; [reflexivity|]. split.
  - intros Hc. destruct currentAuthor; [reflexivity | congruence].
  - intros ->. reflexivity.
Qed.

Lemma missing_previous_author_witness :
  Classification.category
    (classifyLine sampleDateParse 5 REPLACE
       (BlameArray [blame 1 20 "c0ffee" "2024-01-01T00:00:00Z" ""])
       (Some (lit "unknown")) jan22 (Num 21)) = HELP_OTHERS
  /\ Classification.category
       (classifyLine sampleDateParse 5 REPLACE
          (BlameArray [blame 1 20 "c0ffee" "2024-01-01T00:00:00Z" ""])
          None jan22 (Num 21)) = CHURN.
Proof.
  split.
  - apply (missing_previous_author sampleDateParse 5
             [blame 1 20 "c0ffee" "2024-01-01T00:00:00Z" ""]
             (blame 1 20 "c0ffee" "2024-01-01T00:00:00Z" "")
             (Some (lit "unknown")) jan22 (Num 21)
             (lit "2024-01-01T00:00:00Z"));
      try reflexivity; try discriminate. right. reflexivity.
  - destruct (missing_previous_author sampleDateParse 5
                [blame 1 20 "c0ffee" "2024-01-01T00:00:00Z" ""]
                (blame 1 20 "c0ffee" "2024-01-01T00:00:00Z" "")
                None jan22 (Num 21) (lit "2024-01-01T00:00:00Z")
                eq_refl (or_intror eq_refl) eq_refl)
      as (_ & _ & H); [discriminate|].
    rewrite (H eq_refl). reflexivity.
Defined.

(* ================================================================== *)
(** * Properties of the blame retrieval *)

(** The range points at a commit of the pull request. *)
Definition fromPR (prShas : list jsstring) (r : BlameRange.t) : Prop :=
  exists oid, rangeCommitId r = Some oid /\ In oid prShas.

Section BlameFilter.

Lemma jsstring_eqb_eq (a b : jsstring) : jsstring_eqb a b = true <-> a = b.
Proof.
  unfold jsstring_eqb. destruct (list_eq_dec N.eq_dec a b); split; congruence.
Qed.

Lemma setHas_In (prShas : list jsstring) (s : jsstring) :
  setHas prShas (Some s) = true <-> In s prShas.
Proof.
  simpl. rewrite existsb_exists. split.
  - intros (x & Hin & Hx). apply jsstring_eqb_eq in Hx. subst x. exact Hin.
  - intros Hin. exists s. split; [exact Hin | apply jsstring_eqb_eq; reflexivity].
Qed.

Lemma notFromPR_spec (prShas : list jsstring) (r : BlameRange.t) :
  notFromPR prShas r = true <-> ~ fromPR prShas r.
Proof.
  unfold notFromPR, fromPR, rangeCommitId.
  destruct (BlameRange.commit r) as [c|]; simpl.
  - destruct (BlameCommit.oid c) as [oid|]; simpl.
    + rewrite negb_true_iff. split.
      * intros Hn (oid' & [= <-] & Hin).
        apply (setHas_In prShas oid) in Hin. simpl in Hin. congruence.
      * intros Hn. destruct (existsb (jsstring_eqb oid) prShas) eqn:E;
          [|reflexivity].
        exfalso. apply Hn. exists oid. split; [reflexivity|].
        apply (setHas_In prShas oid). exact E.
    + split; [intros _ (oid & Hc & _); discriminate | reflexivity].
  - split; [intros _ (oid & Hc & _); discriminate | reflexivity].
Qed.

Lemma filter_length_le {A} (f : A -> bool) (l : list A) :
  (length (filter f l) <= length l)%nat.
Proof.
  induction l as [|x l IH]; simpl; [lia|]. destruct (f x); simpl; lia.
Qed.

(** The ranges of the result lie among the ranges of a response and do not
    point at the pull request. *)
Lemma getFileBlameFiltered_ranges (graphqlClient : GraphqlClient)
    (filePath baseRef : jsstring) (prShas : list jsstring)
    (owner repo : jsstring) (r : BlameRange.t) :
  In r (BlameResult.ranges
          (getFileBlameFiltered graphqlClient filePath baseRef prShas owner
             repo)) ->
  ~ fromPR prShas r.
Proof.
  unfold getFileBlameFiltered.
  destruct (graphqlClient owner repo baseRef filePath) as [|[obj|]];
    simpl; try tauto.
  destruct (negb (jsstring_eqb (GitObject.typename obj) (lit "Commit")));
    simpl; [tauto|].
  intros Hin. apply filter_In in Hin as [_ Hn].
  apply notFromPR_spec. exact Hn.
Qed.

End BlameFilter.

(** X8. From a response whose object is a commit, the blame retrieval
    keeps exactly the ranges that do not point at a commit of the pull
    request (ranges without a commit or without an identifier are kept),
    and [filteredCount] is the number of ranges it dropped.  When the query
    throws, the object is missing, or it is not a commit, the result is the
    empty list with a count of zero. *)
Theorem blame_filter_drops_pr_commits (graphqlClient : GraphqlClient)
    (filePath baseRef : jsstring) (prShas : list jsstring)
    (owner repo : jsstring) (res : BlameResult.t) :
  res = getFileBlameFiltered graphqlClient filePath baseRef prShas owner repo ->
  (forall r, In r (BlameResult.ranges res) -> ~ fromPR prShas r)
  /\ 0 <= BlameResult.filteredCount res
  /\ (forall obj all,
         graphqlClient owner repo baseRef filePath
         = GraphqlResponse (Some obj) ->
         GitObject.typename obj = lit "Commit" ->
         GitObject.blameRanges obj = Some all ->
         (forall r, In r (BlameResult.ranges res)
                    <-> In r all /\ ~ fromPR prShas r)
         /\ Z.of_nat (length (BlameResult.ranges res))
            + BlameResult.filteredCount res
            = Z.of_nat (length all)
         /\ (Forall (fun r => ~ fromPR prShas r) all ->
             BlameResult.ranges res = all
             /\ BlameResult.filteredCount res = 0))
  /\ ((graphqlClient owner repo baseRef filePath = GraphqlThrows
       \/ graphqlClient owner repo baseRef filePath = GraphqlResponse None
       \/ exists obj,
            graphqlClient owner repo baseRef filePath
            = GraphqlResponse (Some obj)
            /\ (GitObject.typename obj <> lit "Commit"
                \/ GitObject.blameRanges obj = None)) ->
      res = BlameResult.mk [] 0).
Proof.
  intros ->.
  split; [intros r; apply getFileBlameFiltered_ranges|].
  unfold getFileBlameFiltered.
  destruct (graphqlClient owner repo baseRef filePath) as [|[obj|]] eqn:Hg.
  - split; [simpl; lia|]. split; [intros; discriminate | reflexivity].
  - destruct (jsstring_eqb (GitObject.typename obj) (lit "Commit")) eqn:Ht;
      cbn [negb].
    + apply jsstring_eqb_eq in Ht.
      cbn [BlameResult.ranges BlameResult.filteredCount].
      split.
      { pose proof (filter_length_le (notFromPR prShas)
                      (match GitObject.blameRanges obj with
                       | Some ranges => ranges
                       | None => []
                       end)). lia. }
      split.
      { intros obj' all [= <-] _ Hall. rewrite Hall.
        split.
        { intro r. rewrite filter_In, notFromPR_spec. reflexivity. }
        split; [lia|].
        intros Hnone.
        assert (Hf : filter (notFromPR prShas) all = all).
        { clear Hall. induction Hnone as [|x l Hx _ IH]; simpl;
            [reflexivity|].
          rewrite (proj2 (notFromPR_spec prShas x) Hx), IH. reflexivity. }
        rewrite Hf. split; [reflexivity | lia]. }
      intros [Hc | [Hc | (obj' & [= <-] & [Hc | Hc])]]; try discriminate.
      * congruence.
      * rewrite Hc. reflexivity.
    + split; [simpl; lia|]. split.
      * intros obj' all [= <-] Hc. apply jsstring_eqb_eq in Hc. congruence.
      * reflexivity.
  - split; [simpl; lia|]. split; [intros; discriminate | reflexivity].
Qed.

Lemma blame_filter_drops_pr_commits_witness :
  BlameResult.ranges
    (getFileBlameFiltered sampleClient (lit "src/app.js") (lit "base")
       sample_prShas (lit "o") (lit "r"))
  = [range_alice; range_no_commit]
  /\ Z.of_nat 2
     + BlameResult.filteredCount
         (getFileBlameFiltered sampleClient (lit "src/app.js") (lit "base")
            sample_prShas (lit "o") (lit "r")) = Z.of_nat 3
  /\ getFileBlameFiltered sampleClient (lit "docs") (lit "base")
       sample_prShas (lit "o") (lit "r") = BlameResult.mk [] 0.
Proof.
  destruct (blame_filter_drops_pr_commits sampleClient (lit "src/app.js")
              (lit "base") sample_prShas (lit "o") (lit "r") _ eq_refl)
    as (_ & _ & H & _).
  destruct (H _ _ eq_refl eq_refl eq_refl) as (_ & Hcount & _).
  destruct (blame_filter_drops_pr_commits sampleClient (lit "docs")
              (lit "base") sample_prShas (lit "o") (lit "r") _ eq_refl)
    as (_ & _ & _ & H').
  split; [reflexivity|]. split; [exact Hcount|].
  symmetry. apply H'. right. right.
  eexists. split; [reflexivity|]. left. discriminate.
Defined.

(** A previous commit that is reported is the identifier of a range of
    the array. *)
Lemma prevCommit_of_range (dateParse : jsstring -> option Z)
    (lineNum : Z) (hunkType : HunkType) (ranges : list BlameRange.t)
    (currentAuthor : option jsstring) (currentDate : jsdate)
    (maxDeltaDays : jsnum) (oid : jsstring) :
  Classification.prevCommit
    (classifyLine dateParse lineNum hunkType (BlameArray ranges)
       currentAuthor currentDate maxDeltaDays) = Some oid ->
  exists r, In r ranges /\ rangeCommitId r = Some oid.
Proof.
  destruct (classifyLine_cases dateParse lineNum hunkType (BlameArray ranges)
              currentAuthor currentDate maxDeltaDays)
    as [-> | (ranges' & r & _ & [= <-] & Hf & ->)]; [discriminate|].
  apply find_some in Hf as [Hin _].
  intros Hc. exists r. split; [exact Hin|].
  destruct (option_map (newDate dateParse) (orNull (rangeCommittedDate r)));
    cbn [Classification.prevCommit] in Hc;
    apply orNull_some in Hc as [Hc _]; exact Hc.
Qed.

(** X9. Classified against the ranges that the blame retrieval returns, a
    line never reports a commit of the pull request as its previous
    commit. *)
Theorem previous_commit_is_not_from_pr (dateParse : jsstring -> option Z)
    (graphqlClient : GraphqlClient) (filePath baseRef : jsstring)
    (prShas : list jsstring) (owner repo : jsstring)
    (lineNum : Z) (hunkType : HunkType) (currentAuthor : option jsstring)
    (currentDate : jsdate) (maxDeltaDays : jsnum) (oid : jsstring) :
  Classification.prevCommit
    (classifyLine dateParse lineNum hunkType
       (BlameArray
          (BlameResult.ranges
             (getFileBlameFiltered graphqlClient filePath baseRef prShas
                owner repo)))
       currentAuthor currentDate maxDeltaDays) = Some oid ->
  ~ In oid prShas.
Proof.
  intros Hc Hoid.
  apply prevCommit_of_range in Hc as (r & Hin & Hr).
  apply getFileBlameFiltered_ranges in Hin.
  apply Hin. exists oid. split; assumption.
Qed.

Lemma previous_commit_is_not_from_pr_witness :
  Classification.prevCommit
    (classifyLine sampleDateParse 20 REPLACE
       (BlameArray
          (BlameResult.ranges
             (getFileBlameFiltered sampleClient (lit "src/app.js")
                (lit "base") sample_prShas (lit "o") (lit "r"))))
       (Some (lit "Alice")) jan22 (Num 21)) = Some (lit "a1b2c3d")
  /\ ~ In (lit "a1b2c3d") sample_prShas.
Proof.
  split; [reflexivity|].
  apply (previous_commit_is_not_from_pr sampleDateParse sampleClient
           (lit "src/app.js") (lit "base") sample_prShas (lit "o") (lit "r")
           20 REPLACE (Some (lit "Alice")) jan22 (Num 21)).
  reflexivity.
Defined.

(* ================================================================== *)
(** * Properties of the last-commit map *)

Section MapFacts.

Context {V : Type}.

Lemma jsstring_eqb_refl (a : jsstring) : jsstring_eqb a a = true.
Proof. apply jsstring_eqb_eq. reflexivity. Qed.

Lemma jsstring_eqb_neq (a b : jsstring) : jsstring_eqb a b = false <-> a <> b.
Proof.
  unfold jsstring_eqb. destruct (list_eq_dec N.eq_dec a b); split; congruence.
Qed.

Lemma mapGet_mapSet (k0 : jsstring) (v : V) (m : jsmap V) (k : jsstring) :
  mapGet k (mapSet k0 v m)
  = if jsstring_eqb k0 k then Some v else mapGet k m.
Proof.
  induction m as [|[k' v'] rest IH]; simpl; [reflexivity|].
  destruct (jsstring_eqb k' k0) eqn:E0; simpl.
  - apply jsstring_eqb_eq in E0. subst k'.
    destruct (jsstring_eqb k0 k); reflexivity.
  - rewrite IH. destruct (jsstring_eqb k' k) eqn:E1; [|reflexivity].
    destruct (jsstring_eqb k0 k) eqn:E2; [|reflexivity].
    apply jsstring_eqb_eq in E1. apply jsstring_eqb_eq in E2. subst.
    rewrite jsstring_eqb_refl in E0. discriminate.
Qed.

End MapFacts.

(** The files that the details of a commit list. *)
Definition filesOf (d : CommitDetails.t) : list jsstring :=
  match CommitDetails.files d with
  | Some files => files
  | None => []
  end.

Section LastCommitFacts.

Variable dateParse : jsstring -> option Z.
Variable now : jsdate.
Variable fetchCommitDetails : jsstring -> option CommitDetails.t.
Variable prAuthor : option jsstring.

(** The commit could be fetched and lists the file. *)
Definition touches (filename : jsstring) (c : CommitSummary.t) : Prop :=
  exists d, fetchCommitDetails (CommitSummary.sha c) = Some d
            /\ In filename (filesOf d).

Definition touchesb (filename : jsstring) (c : CommitSummary.t) : bool :=
  match fetchCommitDetails (CommitSummary.sha c) with
  | Some d => existsb (jsstring_eqb filename) (filesOf d)
  | None => false
  end.

(** The entry that the map gets for a commit and its details. *)
Definition entryOf (d : CommitDetails.t) (c : CommitSummary.t) : LastCommit.t :=
  LastCommit.mk
    (fst (extractCommitAuthorAndDate dateParse now (Some d) c prAuthor))
    (snd (extractCommitAuthorAndDate dateParse now (Some d) c prAuthor))
    (CommitSummary.sha c).

Definition entryOfCommit (c : CommitSummary.t) : option LastCommit.t :=
  match fetchCommitDetails (CommitSummary.sha c) with
  | Some d => Some (entryOf d c)
  | None => None
  end.

Lemma existsb_eqb_In (f : jsstring) (l : list jsstring) :
  existsb (jsstring_eqb f) l = true <-> In f l.
Proof.
  rewrite existsb_exists. split.
  - intros (x & Hin & Hx). apply jsstring_eqb_eq in Hx. subst x. exact Hin.
  - intros Hin. exists f. split; [exact Hin | apply jsstring_eqb_refl].
Qed.

Lemma touchesb_spec (f : jsstring) (c : CommitSummary.t) :
  touchesb f c = true <-> touches f c.
Proof.
  unfold touchesb, touches.
  destruct (fetchCommitDetails (CommitSummary.sha c)) as [d|].
  - rewrite existsb_eqb_In. split.
    + intros Hin. exists d. split; [reflexivity | exact Hin].
    + intros (d' & [= <-] & Hin). exact Hin.
  - split; [discriminate | intros (d & Hd & _); discriminate].
Qed.

Lemma recordFiles_get (e : LastCommit.t) (files : list jsstring)
    (f : jsstring) :
  forall m,
    mapGet f (recordFiles e files m)
    = match mapGet f m with
      | Some v => Some v
      | None => if existsb (jsstring_eqb f) files then Some e else None
      end.
Proof.
  unfold recordFiles.
  induction files as [|x files IH]; intro m; simpl.
  - destruct (mapGet f m); reflexivity.
  - rewrite IH. unfold mapHas.
    destruct (mapGet x m) as [vx|] eqn:Ex.
    + destruct (mapGet f m) as [vf|] eqn:Ef; [reflexivity|].
      destruct (jsstring_eqb f x) eqn:E; [|reflexivity].
      apply jsstring_eqb_eq in E. subst x. congruence.
    + rewrite mapGet_mapSet.
      destruct (jsstring_eqb x f) eqn:E.
      * apply jsstring_eqb_eq in E. subst x. rewrite Ex.
        rewrite jsstring_eqb_refl. reflexivity.
      * destruct (mapGet f m); [reflexivity|].
        destruct (jsstring_eqb f x) eqn:E'; [|reflexivity].
        apply jsstring_eqb_eq in E'. subst x.
        rewrite jsstring_eqb_refl in E. discriminate.
Qed.

(** The cache only ever holds what the service answered. *)
Definition cacheSound (cache : jsmap CommitDetails.t) : Prop :=
  forall sha d, mapGet sha cache = Some d -> fetchCommitDetails sha = Some d.

(** The step of the loop on the map alone. *)
Definition mapStep (m : jsmap LastCommit.t) (c : CommitSummary.t)
    : jsmap LastCommit.t :=
  match fetchCommitDetails (CommitSummary.sha c) with
  | Some d => recordFiles (entryOf d c) (filesOf d) m
  | None => m
  end.

Lemma lastCommitStep_map (m : jsmap LastCommit.t)
    (cache : jsmap CommitDetails.t) (c : CommitSummary.t) :
  cacheSound cache ->
  fst (lastCommitStep dateParse now fetchCommitDetails prAuthor (m, cache) c)
  = mapStep m c
  /\ cacheSound
       (snd (lastCommitStep dateParse now fetchCommitDetails prAuthor
               (m, cache) c)).
Proof.
  intros Hs. unfold lastCommitStep, mapStep.
  destruct (mapGet (CommitSummary.sha c) cache) as [d|] eqn:Ec.
  - rewrite (Hs _ _ Ec). split; [reflexivity | exact Hs].
  - destruct (fetchCommitDetails (CommitSummary.sha c)) as [d|] eqn:Ef.
    + split; [reflexivity|]. simpl. intros sha d' Hg.
      rewrite mapGet_mapSet in Hg.
      destruct (jsstring_eqb (CommitSummary.sha c) sha) eqn:E.
      * apply jsstring_eqb_eq in E. subst sha. congruence.
      * apply (Hs _ _ Hg).
    + split; [reflexivity | exact Hs].
Qed.

Lemma lastCommit_fold (l : list CommitSummary.t) :
  forall m cache,
    cacheSound cache ->
    fst (fold_left (lastCommitStep dateParse now fetchCommitDetails prAuthor)
           l (m, cache))
    = fold_left mapStep l m.
Proof.
  induction l as [|c l IH]; intros m cache Hs; [reflexivity|].
  cbn [fold_left].
  destruct (lastCommitStep_map m cache c Hs) as [Hm Hs'].
  destruct (lastCommitStep dateParse now fetchCommitDetails prAuthor
              (m, cache) c) as [m' cache'].
  simpl in Hm, Hs'. subst m'. apply (IH _ _ Hs').
Qed.

Lemma mapStep_get (f : jsstring) (m : jsmap LastCommit.t)
    (c : CommitSummary.t) :
  mapGet f (mapStep m c)
  = match mapGet f m with
    | Some v => Some v
    | None => if touchesb f c then entryOfCommit c else None
    end.
Proof.
  unfold mapStep, touchesb, entryOfCommit.
  destruct (fetchCommitDetails (CommitSummary.sha c)) as [d|].
  - rewrite recordFiles_get.
    destruct (mapGet f m); [reflexivity|].
    destruct (existsb (jsstring_eqb f) (filesOf d)); reflexivity.
  - destruct (mapGet f m); reflexivity.
Qed.

Lemma mapStep_fold_get (f : jsstring) (l : list CommitSummary.t) :
  forall m,
    mapGet f (fold_left mapStep l m)
    = match mapGet f m with
      | Some v => Some v
      | None => match find (touchesb f) l with
                | Some c => entryOfCommit c
                | None => None
                end
      end.
Proof.
  induction l as [|c l IH]; intro m; simpl.
  - destruct (mapGet f m); reflexivity.
  - rewrite IH, mapStep_get.
    destruct (mapGet f m) as [v|]; [reflexivity|].
    destruct (touchesb f c) eqn:Et; [|reflexivity].
    unfold entryOfCommit. unfold touchesb in Et.
    destruct (fetchCommitDetails (CommitSummary.sha c)); [reflexivity|].
    discriminate.
Qed.

(** The map entry of a file comes from the first commit, walking from the
    newest, that could be fetched and lists the file. *)
Lemma buildLastCommitByFile_get (prCommits : list CommitSummary.t)
    (f : jsstring) :
  mapGet f (buildLastCommitByFile dateParse now fetchCommitDetails prCommits
              prAuthor)
  = match find (touchesb f) (rev prCommits) with
    | Some c => entryOfCommit c
    | None => None
    end.
Proof.
  unfold buildLastCommitByFile.
  rewrite lastCommit_fold; [|intros sha d Hg; discriminate].
  rewrite mapStep_fold_get. reflexivity.
Qed.

Lemma find_app_first {A} (p : A -> bool) (pre post : list A) (x : A) :
  Forall (fun y => p y = false) pre -> p x = true ->
  find p (pre ++ x :: post) = Some x.
Proof.
  intros Hpre Hx. induction Hpre as [|y pre Hy _ IH]; simpl.
  - rewrite Hx. reflexivity.
  - rewrite Hy. exact IH.
Qed.

Lemma find_none_all {A} (p : A -> bool) (l : list A) :
  Forall (fun y => p y = false) l -> find p l = None.
Proof.
  induction 1 as [|y l Hy _ IH]; simpl; [reflexivity|].
  rewrite Hy. exact IH.
Qed.

Lemma not_touches_false (f : jsstring) (l : list CommitSummary.t) :
  Forall (fun c => ~ touches f c) l ->
  Forall (fun c => touchesb f c = false) l.
Proof.
  intros H. eapply Forall_impl; [|exact H]. intros c Hc. simpl in *.
  destruct (touchesb f c) eqn:E; [|reflexivity].
  apply touchesb_spec in E. contradiction.
Qed.

Lemma orUnknown_not_empty (a : option jsstring) : orUnknown a <> [].
Proof.
  unfold orUnknown. destruct (orNull a) as [s|] eqn:E; [|discriminate].
  apply orNull_some in E as [_ Hne]. exact Hne.
Qed.

End LastCommitFacts.

Lemma orNull_idem (o : option jsstring) : orNull (orNull o) = orNull o.
Proof. destruct o as [[|c s]|]; reflexivity. Qed.

Lemma orElse_left (a b : option jsstring) (s : jsstring) :
  orNull a = Some s -> orElse a b = Some s.
Proof. unfold orElse. intros ->. reflexivity. Qed.

Lemma orElse_right (a b : option jsstring) :
  orNull a = None -> orElse a b = orNull b.
Proof. unfold orElse. intros ->. reflexivity. Qed.

Lemma orNull_orElse (a b : option jsstring) :
  orNull (orElse a b) = orElse a b.
Proof.
  unfold orElse. destruct (orNull a) as [s|] eqn:E.
  - rewrite <- E. apply orNull_idem.
  - apply orNull_idem.
Qed.

Lemma orUnknown_orElse (a b : option jsstring) :
  orUnknown (orElse a b)
  = match orElse a b with
    | Some s => s
    | None => lit "unknown"
    end.
Proof. unfold orUnknown. rewrite orNull_orElse. reflexivity. Qed.

(** X10. The author that [extractCommitAuthorAndDate] returns is never the
    empty string: it is the first of the commit's author name, the login of
    the list entry and the fallback that is present and not empty, and
    "unknown" when none is.  The date is the reading of the clock when the
    commit carries no date or an empty one, and the parsed date otherwise,
    the invalid date when the string does not parse. *)
Theorem commit_author_is_never_empty (dateParse : jsstring -> option Z)
    (now : jsdate) (commitDetails : option CommitDetails.t)
    (commitSummary : CommitSummary.t) (fallbackAuthor : option jsstring)
    (name date : option jsstring) :
  name = match commitDetails with
         | Some d => CommitDetails.authorName d
         | None => None
         end ->
  date = match commitDetails with
         | Some d => CommitDetails.authorDate d
         | None => None
         end ->
  fst (extractCommitAuthorAndDate dateParse now commitDetails commitSummary
         fallbackAuthor) <> []
  /\ (forall s, orNull name = Some s ->
      fst (extractCommitAuthorAndDate dateParse now commitDetails
             commitSummary fallbackAuthor) = s)
  /\ (forall s, orNull name = None ->
      orNull (CommitSummary.authorLogin commitSummary) = Some s ->
      fst (extractCommitAuthorAndDate dateParse now commitDetails
             commitSummary fallbackAuthor) = s)
  /\ (forall s, orNull name = None ->
      orNull (CommitSummary.authorLogin commitSummary) = None ->
      orNull fallbackAuthor = Some s ->
      fst (extractCommitAuthorAndDate dateParse now commitDetails
             commitSummary fallbackAuthor) = s)
  /\ (orNull name = None ->
      orNull (CommitSummary.authorLogin commitSummary) = None ->
      orNull fallbackAuthor = None ->
      fst (extractCommitAuthorAndDate dateParse now commitDetails
             commitSummary fallbackAuthor) = lit "unknown")
  /\ (orNull date = None ->
      snd (extractCommitAuthorAndDate dateParse now commitDetails
             commitSummary fallbackAuthor) = now)
  /\ (forall s, orNull date = Some s -> dateParse s = None ->
      snd (extractCommitAuthorAndDate dateParse now commitDetails
             commitSummary fallbackAuthor) = InvalidDate).
Proof.
  intros -> ->. unfold extractCommitAuthorAndDate. cbn [fst snd].
  split; [apply orUnknown_not_empty|].
  set (n := match commitDetails with
            | Some d => CommitDetails.authorName d
            | None => None
            end).
  set (dt := match commitDetails with
             | Some d => CommitDetails.authorDate d
             | None => None
             end).
  rewrite orUnknown_orElse.
  split.
  { intros s Hn.
    rewrite (orElse_left _ fallbackAuthor s); [reflexivity|].
    rewrite orNull_orElse. apply orElse_left. exact Hn. }
  split.
  { intros s Hn Hl.
    rewrite (orElse_left _ fallbackAuthor s); [reflexivity|].
    rewrite orNull_orElse, (orElse_right _ _ Hn). exact Hl. }
  split.
  { intros s Hn Hl Hf.
    rewrite orElse_right, Hf; [reflexivity|].
    rewrite orNull_orElse, (orElse_right _ _ Hn). exact Hl. }
  split.
  { intros Hn Hl Hf.
    rewrite orElse_right, Hf; [reflexivity|].
    rewrite orNull_orElse, (orElse_right _ _ Hn). exact Hl. }
  split.
  { intros Hd. rewrite Hd. reflexivity. }
  intros s Hd Hp. rewrite Hd. unfold newDate. rewrite Hp. reflexivity.
Qed.

Lemma commit_author_is_never_empty_witness :
  fst (extractCommitAuthorAndDate sampleDateParse jan22
         (sampleFetch (lit "feedbeef"))
         (CommitSummary.mk (lit "feedbeef") (Some (lit "bob-gh")))
         (Some (lit "carol"))) = lit "bob-gh"
  /\ snd (extractCommitAuthorAndDate sampleDateParse jan22
            (sampleFetch (lit "feedbeef"))
            (CommitSummary.mk (lit "feedbeef") (Some (lit "bob-gh")))
            (Some (lit "carol"))) = jan22.
Proof.
  destruct (commit_author_is_never_empty sampleDateParse jan22
              (sampleFetch (lit "feedbeef"))
              (CommitSummary.mk (lit "feedbeef") (Some (lit "bob-gh")))
              (Some (lit "carol")) _ _ eq_refl eq_refl)
    as (_ & _ & H1 & _ & _ & H2 & _).
  split; [apply H1; reflexivity | apply H2; reflexivity].
Defined.

(** X11. The last-commit map gives, for a file, the entry of the newest
    commit of the pull request whose details could be fetched and list the
    file: its identifier, with the author and date extracted from it.  A
    file that no fetched commit lists has no entry.  Every entry has an
    author that is not empty and names a commit of the list that lists the
    file. *)
Theorem last_commit_is_the_newest (dateParse : jsstring -> option Z)
    (now : jsdate) (fetchCommitDetails : jsstring -> option CommitDetails.t)
    (prCommits : list CommitSummary.t) (prAuthor : option jsstring)
    (filename : jsstring) :
  (forall older c newer d,
      prCommits = older ++ c :: newer ->
      fetchCommitDetails (CommitSummary.sha c) = Some d ->
      In filename (filesOf d) ->
      Forall (fun c' => ~ touches fetchCommitDetails filename c') newer ->
      mapGet filename
        (buildLastCommitByFile dateParse now fetchCommitDetails prCommits
           prAuthor)
      = Some (LastCommit.mk
                (fst (extractCommitAuthorAndDate dateParse now (Some d) c
                        prAuthor))
                (snd (extractCommitAuthorAndDate dateParse now (Some d) c
                        prAuthor))
                (CommitSummary.sha c)))
  /\ (Forall (fun c => ~ touches fetchCommitDetails filename c) prCommits ->
      mapGet filename
        (buildLastCommitByFile dateParse now fetchCommitDetails prCommits
           prAuthor) = None)
  /\ (forall entry,
         mapGet filename
           (buildLastCommitByFile dateParse now fetchCommitDetails prCommits
              prAuthor) = Some entry ->
         LastCommit.author entry <> []
         /\ exists c, In c prCommits
                      /\ CommitSummary.sha c = LastCommit.sha entry
                      /\ touches fetchCommitDetails filename c).
Proof.
  rewrite buildLastCommitByFile_get.
  split.
  { intros older c newer d -> Hd Hin Hnewer.
    rewrite rev_app_distr. simpl rev. rewrite <- app_assoc. simpl app.
    rewrite (find_app_first _ (rev newer) (rev older) c).
    - unfold entryOfCommit. rewrite Hd. reflexivity.
    - apply Forall_rev. apply not_touches_false. exact Hnewer.
    - apply touchesb_spec. exists d. split; assumption. }
  split.
  { intros Hnone. rewrite find_none_all; [reflexivity|].
    apply Forall_rev. apply not_touches_false. exact Hnone. }
  intros entry He.
  destruct (find (touchesb fetchCommitDetails filename) (rev prCommits))
    as [c|] eqn:Hf; [|discriminate].
  apply find_some in Hf as [Hin Ht]. apply in_rev in Hin.
  apply touchesb_spec in Ht.
  unfold entryOfCommit in He.
  destruct (fetchCommitDetails (CommitSummary.sha c)) as [d|];
    [|discriminate].
  injection He as <-. unfold entryOf. cbn [LastCommit.author LastCommit.sha].
  split.
  - unfold extractCommitAuthorAndDate. cbn [fst]. apply orUnknown_not_empty.
  - exists c. split; [exact Hin|]. split; [reflexivity | exact Ht].
Qed.

Lemma last_commit_is_the_newest_witness :
  mapGet (lit "src/app.js")
    (buildLastCommitByFile sampleDateParse jan22 sampleFetch sample_commits
       (Some (lit "carol")))
  = Some (LastCommit.mk (lit "bob-gh") jan22 (lit "feedbeef"))
  /\ mapGet (lit "README.md")
       (buildLastCommitByFile sampleDateParse jan22 sampleFetch sample_commits
          (Some (lit "carol")))
     = Some (LastCommit.mk (lit "Alice") (ValidDate 1704067200000)
               (lit "0ddba11"))
  /\ mapGet (lit "LICENSE")
       (buildLastCommitByFile sampleDateParse jan22 sampleFetch sample_commits
          (Some (lit "carol"))) = None.
Proof.
  destruct (last_commit_is_the_newest sampleDateParse jan22 sampleFetch
              sample_commits (Some (lit "carol")) (lit "src/app.js"))
    as (H1 & _).
  destruct (last_commit_is_the_newest sampleDateParse jan22 sampleFetch
              sample_commits (Some (lit "carol")) (lit "LICENSE"))
    as (_ & H2 & _).
  split; [|split; [reflexivity|]].
  - rewrite (H1 [CommitSummary.mk (lit "0ddba11") (Some (lit "alice-gh"))]
               (CommitSummary.mk (lit "feedbeef") (Some (lit "bob-gh")))
               [CommitSummary.mk (lit "deadc0de") None]
               _ eq_refl eq_refl).
    + reflexivity.
    + left. reflexivity.
    + constructor; [|constructor].
      intros (d & Hd & _). discriminate Hd.
  - apply H2. unfold sample_commits.
    repeat constructor; intros (d & Hd & Hin); vm_compute in Hd;
      try discriminate Hd; injection Hd as <-; simpl in Hin;
      repeat (destruct Hin as [Hin | Hin]; [discriminate Hin|]);
      exact Hin.
Defined.

(* ================================================================== *)
(** * Properties of the file analysis *)

(** The detail record that the loop of [analyzeFile] pushes for a line. *)
Definition detailOf (dateParse : jsstring -> option Z) (filename : jsstring)
    (blameRanges : list BlameRange.t) (currentAuthor : jsstring)
    (currentDate : jsdate) (maxDeltaDays : jsnum) (addedLine : AddedLine.t)
    : Detail.t :=
  let result :=
    classifyLine dateParse (AddedLine.number addedLine)
      (AddedLine.hunkType addedLine) (BlameArray blameRanges)
      (Some currentAuthor) currentDate maxDeltaDays in
  Detail.mk filename (AddedLine.number addedLine) (AddedLine.line addedLine)
    (AddedLine.hunkType addedLine) (Classification.category result)
    currentAuthor (Classification.prevAuthor result)
    (Classification.prevCommit result) (Classification.deltaDays result).

(** How many of the details have the category. *)
Definition countCategory (c : Category) (details : list Detail.t) : Z :=
  Z.of_nat
    (length (filter (fun d => Category_eqb (Detail.categoria d) c) details)).

(** The current author and date that [analyzeFile] uses for a file. *)
Definition currentAuthorOf (file : PRFile.t)
    (lastCommitByFile : jsmap LastCommit.t) (prAuthor : option jsstring)
    : jsstring :=
  orUnknown
    (orElse (option_map LastCommit.author
               (mapGet (PRFile.filename file) lastCommitByFile))
            prAuthor).

Definition currentDateOf (file : PRFile.t)
    (lastCommitByFile : jsmap LastCommit.t) (prDate : jsdate) : jsdate :=
  match mapGet (PRFile.filename file) lastCommitByFile with
  | Some c => LastCommit.date c
  | None => prDate
  end.

Section SummaryFacts.

Lemma Category_eqb_eq (a b : Category) : Category_eqb a b = true <-> a = b.
Proof. destruct a, b; simpl; split; congruence. Qed.

Lemma Category_eqb_refl (a : Category) : Category_eqb a a = true.
Proof. destruct a; reflexivity. Qed.

Lemma summaryGet_summaryAdd (c' : Category) (n : Z) (s : Summary)
    (c : Category) :
  summaryGet c (summaryAdd c' n s)
  = if Category_eqb c' c
    then Some (match summaryGet c s with Some v => v | None => 0 end + n)
    else summaryGet c s.
Proof.
  induction s as [|[k v] rest IH]; simpl.
  - destruct (Category_eqb c' c); reflexivity.
  - destruct (Category_eqb k c') eqn:E; simpl.
    + apply Category_eqb_eq in E. subst k.
      destruct (Category_eqb c' c); reflexivity.
    + rewrite IH. destruct (Category_eqb k c) eqn:E1; [|reflexivity].
      destruct (Category_eqb c' c) eqn:E2; [|reflexivity].
      apply Category_eqb_eq in E1. apply Category_eqb_eq in E2. subst.
      rewrite Category_eqb_refl in E. discriminate.
Qed.

(** The summary after counting a list of categories one by one. *)
Lemma summary_counts (cats : list Category) (c : Category) :
  forall s,
    summaryGet c (fold_left (fun s c' => summaryAdd c' 1 s) cats s)
    = match summaryGet c s,
            length (filter (fun c' => Category_eqb c' c) cats) with
      | None, O => None
      | Some v, n => Some (v + Z.of_nat n)
      | None, n => Some (Z.of_nat n)
      end.
Proof.
  induction cats as [|c' cats IH]; intro s; simpl.
  - destruct (summaryGet c s) as [v|]; [f_equal; lia | reflexivity].
  - rewrite IH, summaryGet_summaryAdd.
    destruct (Category_eqb c' c) eqn:E; simpl.
    + destruct (summaryGet c s) as [v|]; f_equal; lia.
    + reflexivity.
Qed.

End SummaryFacts.

Section AnalysisFacts.

Variable dateParse : jsstring -> option Z.

Lemma analyzeLine_fold (filename : jsstring) (blameRanges : list BlameRange.t)
    (currentAuthor : jsstring) (currentDate : jsdate) (maxDeltaDays : jsnum)
    (lines : list AddedLine.t) :
  forall acc,
    fold_left (analyzeLine dateParse filename blameRanges currentAuthor
                 currentDate maxDeltaDays) lines acc
    = FileAnalysis.mk
        (fold_left (fun s c => summaryAdd c 1 s)
           (map (fun l => Detail.categoria
                            (detailOf dateParse filename blameRanges
                               currentAuthor currentDate maxDeltaDays l))
                lines)
           (FileAnalysis.summary acc))
        (FileAnalysis.details acc
         ++ map (detailOf dateParse filename blameRanges currentAuthor
                   currentDate maxDeltaDays) lines).
Proof.
  induction lines as [|l lines IH]; intros [s d]; simpl.
  - rewrite app_nil_r. reflexivity.
  - rewrite IH. unfold analyzeLine at 1 2. simpl.
    rewrite <- app_assoc. reflexivity.
Qed.

(** [analyzeFile] on a file with a patch. *)
Lemma analyzeFile_patch (file : PRFile.t) (graphqlClient : GraphqlClient)
    (baseRef : jsstring) (prShas : list jsstring)
    (lastCommitByFile : jsmap LastCommit.t) (prAuthor : option jsstring)
    (prDate : jsdate) (maxDeltaDays : jsnum) (owner repo : jsstring)
    (patch : jsstring) :
  orNull (PRFile.patch file) = Some patch ->
  analyzeFile dateParse file graphqlClient baseRef prShas lastCommitByFile
    prAuthor prDate maxDeltaDays owner repo
  = let ds :=
      map (detailOf dateParse (PRFile.filename file)
             (BlameResult.ranges
                (getFileBlameFiltered graphqlClient (PRFile.filename file)
                   baseRef prShas owner repo))
             (currentAuthorOf file lastCommitByFile prAuthor)
             (currentDateOf file lastCommitByFile prDate) maxDeltaDays)
          (parsePatch patch) in
    FileAnalysis.mk
      (fold_left (fun s c => summaryAdd c 1 s) (map Detail.categoria ds) [])
      ds.
Proof.
  intros Hp. unfold analyzeFile. rewrite Hp. cbv zeta.
  rewrite analyzeLine_fold. cbn [FileAnalysis.summary FileAnalysis.details app].
  rewrite map_map. reflexivity.
Qed.

End AnalysisFacts.

Section DetailFacts.

Lemma filter_map_length {A B} (p : B -> bool) (f : A -> B) (l : list A) :
  length (filter p (map f l)) = length (filter (fun x => p (f x)) l).
Proof.
  induction l as [|x l IH]; simpl; [reflexivity|].
  destruct (p (f x)); simpl; rewrite IH; reflexivity.
Qed.

Lemma countCategory_total (details : list Detail.t) :
  countCategory CHURN details + countCategory REWORK details
  + countCategory NEW_WORK details + countCategory HELP_OTHERS details
  = Z.of_nat (length details).
Proof.
  unfold countCategory. induction details as [|d ds IH]; [reflexivity|].
  cbn [filter]. destruct (Detail.categoria d); cbn [Category_eqb length];
    rewrite ?Nat2Z.inj_succ; lia.
Qed.

End DetailFacts.



(** X13. The summary of a file counts its details by category: a category
    has an entry exactly when some detail has it, the entry is the number
    of those details, and the four numbers add up to the number of
    details. *)
Theorem analysis_summary_counts_details
    (dateParse : jsstring -> option Z) (file : PRFile.t)
    (graphqlClient : GraphqlClient) (baseRef : jsstring)
    (prShas : list jsstring) (lastCommitByFile : jsmap LastCommit.t)
    (prAuthor : option jsstring) (prDate : jsdate) (maxDeltaDays : jsnum)
    (owner repo : jsstring) (res : FileAnalysis.t) :
  res = analyzeFile dateParse file graphqlClient baseRef prShas
          lastCommitByFile prAuthor prDate maxDeltaDays owner repo ->
  (forall c,
      summaryGet c (FileAnalysis.summary res)
      = if countCategory c (FileAnalysis.details res) =? 0 then None
        else Some (countCategory c (FileAnalysis.details res)))
  /\ countCategory CHURN (FileAnalysis.details res)
     + countCategory REWORK (FileAnalysis.details res)
     + countCategory NEW_WORK (FileAnalysis.details res)
     + countCategory HELP_OTHERS (FileAnalysis.details res)
     = Z.of_nat (length (FileAnalysis.details res)).
Proof.
  intros ->. split; [|apply countCategory_total].
  intro c. destruct (orNull (PRFile.patch file)) as [patch|] eqn:Hp.
  - rewrite (analyzeFile_patch dateParse _ _ _ _ _ _ _ _ _ _ patch Hp).
    cbv zeta. cbn [FileAnalysis.details FileAnalysis.summary].
    rewrite summary_counts. cbn [summaryGet].
    unfold countCategory. rewrite filter_map_length.
    destruct (length (filter _ _)) as [|n]; [reflexivity|].
    destruct (Z.eqb_spec (Z.of_nat (S n)) 0) as [E|E]; [lia | reflexivity].
  - unfold analyzeFile. rewrite Hp. reflexivity.
Qed.

Lemma analysis_summary_counts_details_witness :
  FileAnalysis.summary
    (analyzeFile sampleDateParse file_app sampleClient (lit "base")
       sample_prShas sample_lastCommits (Some (lit "carol")) jan22 (Num 21)
       (lit "o") (lit "r"))
  = [(HELP_OTHERS, 1); (NEW_WORK, 1)]
  /\ summaryGet CHURN
       (FileAnalysis.summary
          (analyzeFile sampleDateParse file_app sampleClient (lit "base")
             sample_prShas sample_lastCommits (Some (lit "carol")) jan22
             (Num 21) (lit "o") (lit "r"))) = None.
Proof.
  split; [reflexivity|].
  destruct (analysis_summary_counts_details sampleDateParse file_app
              sampleClient (lit "base") sample_prShas sample_lastCommits
              (Some (lit "carol")) jan22 (Num 21) (lit "o") (lit "r") _
              eq_refl) as (H & _).
  rewrite (H CHURN). reflexivity.
Defined.

(** Every detail of a file with a patch is [detailOf] of a record of the
    parser. *)
Lemma analysis_detail_origin (dateParse : jsstring -> option Z)
    (file : PRFile.t) (graphqlClient : GraphqlClient) (baseRef : jsstring)
    (prShas : list jsstring) (lastCommitByFile : jsmap LastCommit.t)
    (prAuthor : option jsstring) (prDate : jsdate) (maxDeltaDays : jsnum)
    (owner repo : jsstring) (d : Detail.t) :
  In d (FileAnalysis.details
          (analyzeFile dateParse file graphqlClient baseRef prShas
             lastCommitByFile prAuthor prDate maxDeltaDays owner repo)) ->
  exists patch l,
    orNull (PRFile.patch file) = Some patch
    /\ In l (parsePatch patch)
    /\ d = detailOf dateParse (PRFile.filename file)
             (BlameResult.ranges
                (getFileBlameFiltered graphqlClient (PRFile.filename file)
                   baseRef prShas owner repo))
             (currentAuthorOf file lastCommitByFile prAuthor)
             (currentDateOf file lastCommitByFile prDate) maxDeltaDays l.
Proof.
  destruct (orNull (PRFile.patch file)) as [patch|] eqn:Hp.
  - rewrite (analyzeFile_patch dateParse _ _ _ _ _ _ _ _ _ _ patch Hp).
    cbv zeta. cbn [FileAnalysis.details]. intros Hd.
    apply in_map_iff in Hd as (l & <- & Hl).
    exists patch, l. repeat split. exact Hl.
  - unfold analyzeFile. rewrite Hp. intros [].
Qed.

(** X14. In every detail of an analysed file the delta is present exactly
    when the category is not New Work, the previous commit is never a
    commit of the pull request, and a line of a hunk that is not a replace
    hunk is New Work with no previous author and no previous commit. *)
Theorem analysis_details_are_consistent
    (dateParse : jsstring -> option Z) (file : PRFile.t)
    (graphqlClient : GraphqlClient) (baseRef : jsstring)
    (prShas : list jsstring) (lastCommitByFile : jsmap LastCommit.t)
    (prAuthor : option jsstring) (prDate : jsdate) (maxDeltaDays : jsnum)
    (owner repo : jsstring) (d : Detail.t) :
  In d (FileAnalysis.details
          (analyzeFile dateParse file graphqlClient baseRef prShas
             lastCommitByFile prAuthor prDate maxDeltaDays owner repo)) ->
  (Detail.categoria d = NEW_WORK <-> Detail.deltaDias d = None)
  /\ (forall oid, Detail.commitPrevio d = Some oid -> ~ In oid prShas)
  /\ (Detail.tipoHunk d <> REPLACE ->
      Detail.categoria d = NEW_WORK
      /\ Detail.autorPrevio d = None /\ Detail.commitPrevio d = None).
Proof.
  intros Hd.
  apply analysis_detail_origin in Hd as (patch & l & _ & _ & ->).
  cbn [detailOf Detail.categoria Detail.deltaDias Detail.commitPrevio
       Detail.tipoHunk Detail.autorPrevio].
  split.
  { apply (classification_evidence_parts dateParse). }
  split.
  { intros oid Hc Hoid.
    apply prevCommit_of_range in Hc as (r & Hin & Hr).
    apply getFileBlameFiltered_ranges in Hin.
    apply Hin. exists oid. split; assumption. }
  intros Hne.
  destruct (AddedLine.hunkType l); try congruence; repeat split.
Qed.

Lemma analysis_details_are_consistent_witness :
  In (Detail.mk (lit "src/app.js") 20 (lit "new();") REPLACE HELP_OTHERS
        (lit "bob-gh") (Some (lit "Alice")) (Some (lit "a1b2c3d"))
        (Some (Num ((1705881600000 - 1704067200000) # MILLISECONDS_PER_DAY))))
     (FileAnalysis.details
        (analyzeFile sampleDateParse file_app sampleClient (lit "base")
           sample_prShas sample_lastCommits (Some (lit "carol")) jan22
           (Num 21) (lit "o") (lit "r")))
  /\ ~ In (lit "a1b2c3d") sample_prShas.
Proof.
  assert (H : In (Detail.mk (lit "src/app.js") 20 (lit "new();") REPLACE
                    HELP_OTHERS (lit "bob-gh") (Some (lit "Alice"))
                    (Some (lit "a1b2c3d"))
                    (Some (Num ((1705881600000 - 1704067200000)
                                # MILLISECONDS_PER_DAY))))
                 (FileAnalysis.details
                    (analyzeFile sampleDateParse file_app sampleClient
                       (lit "base") sample_prShas sample_lastCommits
                       (Some (lit "carol")) jan22 (Num 21) (lit "o")
                       (lit "r")))) by (left; reflexivity).
  split; [exact H|].
  apply (analysis_details_are_consistent _ _ _ _ _ _ _ _ _ _ _ _ H).
  reflexivity.
Defined.

Section NewWorkOnly.

Lemma summary_new_work_from (cats : list Category) :
  Forall (fun c => c = NEW_WORK) cats ->
  forall v,
    fold_left (fun s c => summaryAdd c 1 s) cats [(NEW_WORK, v)]
    = [(NEW_WORK, v + Z.of_nat (length cats))].
Proof.
  induction 1 as [|c cats -> _ IH]; intro v.
  - simpl. f_equal. f_equal. lia.
  - cbn [fold_left summaryAdd Category_eqb length].
    rewrite IH, Nat2Z.inj_succ. f_equal. f_equal. lia.
Qed.

Lemma summary_new_work_only (cats : list Category) :
  Forall (fun c => c = NEW_WORK) cats ->
  fold_left (fun s c => summaryAdd c 1 s) cats []
  = match cats with
    | [] => []
    | _ :: _ => [(NEW_WORK, Z.of_nat (length cats))]
    end.
Proof.
  intros Hall. destruct Hall as [|c cats -> Hrest]; [reflexivity|].
  cbn [fold_left summaryAdd length].
  rewrite (summary_new_work_from _ Hrest), Nat2Z.inj_succ.
  f_equal. f_equal. lia.
Qed.

End NewWorkOnly.

(** X15. When the blame query throws, or the blame retrieval returns no
    range, or the patch removes nothing but blank lines, every detail of
    the file is New Work with no previous author, no previous commit and no
    delta, and the summary of the file has the single entry New Work with
    the number of added lines (no entry when there is none). *)
Theorem analysis_without_history_is_new_work
    (dateParse : jsstring -> option Z) (file : PRFile.t)
    (graphqlClient : GraphqlClient) (baseRef : jsstring)
    (prShas : list jsstring) (lastCommitByFile : jsmap LastCommit.t)
    (prAuthor : option jsstring) (prDate : jsdate) (maxDeltaDays : jsnum)
    (owner repo : jsstring) (res : FileAnalysis.t) :
  res = analyzeFile dateParse file graphqlClient baseRef prShas
          lastCommitByFile prAuthor prDate maxDeltaDays owner repo ->
  graphqlClient owner repo baseRef (PRFile.filename file) = GraphqlThrows
  \/ BlameResult.ranges
       (getFileBlameFiltered graphqlClient (PRFile.filename file) baseRef
          prShas owner repo) = []
  \/ (forall patch,
         PRFile.patch file = Some patch ->
         Forall (fun l => lineKind l = RemovedLineK ->
                          isBlankLine (substring1 l) = true)
                (split_lines patch)) ->
  Forall (fun d => Detail.categoria d = NEW_WORK
                   /\ Detail.autorPrevio d = None
                   /\ Detail.commitPrevio d = None
                   /\ Detail.deltaDias d = None)
         (FileAnalysis.details res)
  /\ FileAnalysis.summary res
     = match FileAnalysis.details res with
       | [] => []
       | _ :: _ =>
           [(NEW_WORK, Z.of_nat (length (FileAnalysis.details res)))]
       end.
Proof.
  intros -> Hcase.
  assert (Hall : Forall (fun d => Detail.categoria d = NEW_WORK
                                  /\ Detail.autorPrevio d = None
                                  /\ Detail.commitPrevio d = None
                                  /\ Detail.deltaDias d = None)
                   (FileAnalysis.details
                      (analyzeFile dateParse file graphqlClient baseRef prShas
                         lastCommitByFile prAuthor prDate maxDeltaDays owner
                         repo))).
  { apply Forall_forall. intros d Hd.
    apply analysis_detail_origin in Hd as (patch & l & Hp & Hl & ->).
    cbn [detailOf Detail.categoria Detail.deltaDias Detail.commitPrevio
         Detail.autorPrevio].
    assert (Hr : BlameResult.ranges
                   (getFileBlameFiltered graphqlClient (PRFile.filename file)
                      baseRef prShas owner repo) = []
                 \/ AddedLine.hunkType l = ADD_ONLY).
    { destruct Hcase as [Ht | [Hr | Hb]].
      - left. unfold getFileBlameFiltered. rewrite Ht. reflexivity.
      - left. exact Hr.
      - right. apply orNull_some in Hp as [Hp _].
        pose proof (blank_removals_only_add patch (Hb patch Hp)) as Ha.
        rewrite Forall_forall in Ha. apply (Ha l Hl). }
    destruct Hr as [-> | ->]; [|repeat split].
    destruct (AddedLine.hunkType l); repeat split. }
  split; [exact Hall|].
  destruct (orNull (PRFile.patch file)) as [patch|] eqn:Hp.
  - rewrite (analyzeFile_patch dateParse _ _ _ _ _ _ _ _ _ _ patch Hp) in *.
    cbv zeta in *. cbn [FileAnalysis.details FileAnalysis.summary] in *.
    rewrite summary_new_work_only.
    + destruct (parsePatch patch) as [|x xs]; [reflexivity|].
      cbn [map length]. rewrite !length_map. reflexivity.
    + rewrite Forall_map. eapply Forall_impl; [|exact Hall].
      intros d Hd. apply Hd.
  - unfold analyzeFile. rewrite Hp. reflexivity.
Qed.

Lemma analysis_without_history_is_new_work_witness :
  analyzeFile sampleDateParse file_other sampleClient (lit "base")
    sample_prShas sample_lastCommits (Some (lit "carol")) jan22 (Num 21)
    (lit "o") (lit "r")
  = FileAnalysis.mk [(NEW_WORK, 1)]
      [Detail.mk (lit "lib/util.js") 1 (lit "b") REPLACE NEW_WORK (lit "carol")
         None None None]
  /\ FileAnalysis.summary
       (analyzeFile sampleDateParse file_other sampleClient (lit "base")
          sample_prShas sample_lastCommits (Some (lit "carol")) jan22
          (Num 21) (lit "o") (lit "r")) = [(NEW_WORK, Z.of_nat 1)].
Proof.
  split; [reflexivity|].
  destruct (analysis_without_history_is_new_work sampleDateParse file_other
              sampleClient (lit "base") sample_prShas sample_lastCommits
              (Some (lit "carol")) jan22 (Num 21) (lit "o") (lit "r") _
              eq_refl (or_introl eq_refl)) as (_ & H).
  exact H.
Defined.

(* ================================================================== *)
(** * Properties of the accumulation over the files *)

(** The sum of the counts that a summary holds for a category. *)
Definition sumFor (c : Category) (s : Summary) : Z :=
  fold_right
    (fun (e : Category * Z) acc =>
       (if Category_eqb (fst e) c then snd e else 0) + acc)
    0 s.

(** The summary with the four categories in the order of [main]. *)
Definition fourCounts (a b c d : Z) : Summary :=
  [(CHURN, a); (REWORK, b); (NEW_WORK, c); (HELP_OTHERS, d)].

Definition totals (details : list Detail.t) : Summary :=
  fourCounts (countCategory CHURN details) (countCategory REWORK details)
    (countCategory NEW_WORK details) (countCategory HELP_OTHERS details).

Section Accumulation.

Lemma sumFor_summaryAdd (c' : Category) (n : Z) (s : Summary) (c : Category) :
  sumFor c (summaryAdd c' n s)
  = sumFor c s + (if Category_eqb c' c then n else 0).
Proof.
  induction s as [|[k v] rest IH]; simpl.
  - destruct (Category_eqb c' c); lia.
  - destruct (Category_eqb k c') eqn:E; simpl.
    + apply Category_eqb_eq in E. subst k.
      destruct (Category_eqb c' c); lia.
    + rewrite IH. destruct (Category_eqb k c), (Category_eqb c' c); lia.
Qed.

Lemma sumFor_counts (cats : list Category) (c : Category) :
  forall s,
    sumFor c (fold_left (fun s c' => summaryAdd c' 1 s) cats s)
    = sumFor c s
      + Z.of_nat (length (filter (fun c' => Category_eqb c' c) cats)).
Proof.
  induction cats as [|c' cats IH]; intro s; cbn [fold_left filter].
  - simpl. lia.
  - rewrite IH, sumFor_summaryAdd.
    destruct (Category_eqb c' c); cbn [length]; rewrite ?Nat2Z.inj_succ; lia.
Qed.

Lemma sumFor_cons (c k : Category) (v : Z) (s : Summary) :
  sumFor c ((k, v) :: s) = (if Category_eqb k c then v else 0) + sumFor c s.
Proof. reflexivity. Qed.

Lemma fourCounts_add (cat : Category) (n a b c d : Z) :
  summaryAdd cat n (fourCounts a b c d)
  = fourCounts (a + (if Category_eqb cat CHURN then n else 0))
               (b + (if Category_eqb cat REWORK then n else 0))
               (c + (if Category_eqb cat NEW_WORK then n else 0))
               (d + (if Category_eqb cat HELP_OTHERS then n else 0)).
Proof.
  destruct cat; unfold fourCounts; cbn [summaryAdd Category_eqb];
    rewrite !Z.add_0_r; reflexivity.
Qed.

Lemma fourCounts_merge (fs : Summary) :
  forall a b c d,
    fold_left (fun s (e : Category * Z) => summaryAdd (fst e) (snd e) s) fs
      (fourCounts a b c d)
    = fourCounts (a + sumFor CHURN fs) (b + sumFor REWORK fs)
                 (c + sumFor NEW_WORK fs) (d + sumFor HELP_OTHERS fs).
Proof.
  induction fs as [|[k v] fs IH]; intros a b c d; cbn [fold_left fst snd].
  - simpl. rewrite !Z.add_0_r. reflexivity.
  - rewrite fourCounts_add, IH, !sumFor_cons.
    destruct k; cbn [Category_eqb]; rewrite ?Z.add_0_l, ?Z.add_0_r, ?Z.add_assoc;
      reflexivity.
Qed.

Lemma countCategory_app (c : Category) (ds ds' : list Detail.t) :
  countCategory c (ds ++ ds') = countCategory c ds + countCategory c ds'.
Proof.
  unfold countCategory. rewrite filter_app, length_app. lia.
Qed.

Variable dateParse : jsstring -> option Z.

(** The summary of a file adds up, per category, to the count of its
    details. *)
Lemma analyzeFile_sumFor (file : PRFile.t) (graphqlClient : GraphqlClient)
    (baseRef : jsstring) (prShas : list jsstring)
    (lastCommitByFile : jsmap LastCommit.t) (prAuthor : option jsstring)
    (prDate : jsdate) (maxDeltaDays : jsnum) (owner repo : jsstring)
    (c : Category) :
  sumFor c
    (FileAnalysis.summary
       (analyzeFile dateParse file graphqlClient baseRef prShas
          lastCommitByFile prAuthor prDate maxDeltaDays owner repo))
  = countCategory c
      (FileAnalysis.details
         (analyzeFile dateParse file graphqlClient baseRef prShas
            lastCommitByFile prAuthor prDate maxDeltaDays owner repo)).
Proof.
  destruct (orNull (PRFile.patch file)) as [patch|] eqn:Hp.
  - rewrite (analyzeFile_patch dateParse _ _ _ _ _ _ _ _ _ _ patch Hp).
    cbv zeta. cbn [FileAnalysis.details FileAnalysis.summary].
    rewrite sumFor_counts. unfold countCategory.
    rewrite filter_map_length. simpl. reflexivity.
  - unfold analyzeFile. rewrite Hp. reflexivity.
Qed.

Lemma analyzeFiles_fold (graphqlClient : GraphqlClient)
    (baseRef : jsstring) (prShas : list jsstring)
    (lastCommitByFile : jsmap LastCommit.t) (prAuthor : option jsstring)
    (prDate : jsdate) (maxDeltaDays : jsnum) (owner repo : jsstring)
    (prFiles : list PRFile.t) :
  forall ds,
    fold_left
      (fun (acc : Summary * list Detail.t) file =>
         let (summary, allDetails) := acc in
         let r := analyzeFile dateParse file graphqlClient baseRef prShas
                    lastCommitByFile prAuthor prDate maxDeltaDays owner repo in
         (fold_left (fun s (e : Category * Z) => summaryAdd (fst e) (snd e) s)
            (FileAnalysis.summary r) summary,
          allDetails ++ FileAnalysis.details r))
      prFiles (totals ds, ds)
    = (totals
         (ds ++ concat
                  (map (fun f =>
                          FileAnalysis.details
                            (analyzeFile dateParse f graphqlClient baseRef
                               prShas lastCommitByFile prAuthor prDate
                               maxDeltaDays owner repo))
                       prFiles)),
       ds ++ concat
               (map (fun f =>
                       FileAnalysis.details
                         (analyzeFile dateParse f graphqlClient baseRef
                            prShas lastCommitByFile prAuthor prDate
                            maxDeltaDays owner repo))
                    prFiles)).
Proof.
  induction prFiles as [|f fs IH]; intro ds; cbn [fold_left map concat].
  - rewrite app_nil_r. reflexivity.
  - unfold totals at 1. rewrite fourCounts_merge, !analyzeFile_sumFor.
    rewrite <- !countCategory_app. fold (totals (ds ++ FileAnalysis.details
      (analyzeFile dateParse f graphqlClient baseRef prShas lastCommitByFile
         prAuthor prDate maxDeltaDays owner repo))).
    rewrite IH, <- app_assoc. reflexivity.
Qed.

End Accumulation.

(** X16. Over the files of a pull request the details are the details of
    the files one after the other, and the final summary holds the four
    categories, in the order Churn, Rework, New Work, Help Others, each
    with the number of details of that category; the four numbers add up to
    the number of details. *)
Theorem pull_request_totals (dateParse : jsstring -> option Z)
    (prFiles : list PRFile.t) (graphqlClient : GraphqlClient)
    (baseRef : jsstring) (prShas : list jsstring)
    (lastCommitByFile : jsmap LastCommit.t) (prAuthor : option jsstring)
    (prDate : jsdate) (maxDeltaDays : jsnum) (owner repo : jsstring)
    (summary : Summary) (allDetails : list Detail.t) :
  (summary, allDetails)
  = analyzeFiles dateParse prFiles graphqlClient baseRef prShas
      lastCommitByFile prAuthor prDate maxDeltaDays owner repo ->
  allDetails
  = concat (map (fun f =>
                   FileAnalysis.details
                     (analyzeFile dateParse f graphqlClient baseRef prShas
                        lastCommitByFile prAuthor prDate maxDeltaDays owner
                        repo))
                prFiles)
  /\ summary
     = [(CHURN, countCategory CHURN allDetails);
        (REWORK, countCategory REWORK allDetails);
        (NEW_WORK, countCategory NEW_WORK allDetails);
        (HELP_OTHERS, countCategory HELP_OTHERS allDetails)]
  /\ countCategory CHURN allDetails + countCategory REWORK allDetails
     + countCategory NEW_WORK allDetails
     + countCategory HELP_OTHERS allDetails
     = Z.of_nat (length allDetails).
Proof.
  unfold analyzeFiles.
  change initialSummary with (totals []).
  rewrite analyzeFiles_fold. cbn [app].
  intros [= -> ->].
  split; [reflexivity|]. split; [reflexivity | apply countCategory_total].
Qed.

Lemma pull_request_totals_witness :
  fst (analyzeFiles sampleDateParse [file_app; file_binary; file_other]
         sampleClient (lit "base") sample_prShas sample_lastCommits
         (Some (lit "carol")) jan22 (Num 21) (lit "o") (lit "r"))
  = [(CHURN, 0); (REWORK, 0); (NEW_WORK, 2); (HELP_OTHERS, 1)]
  /\ length
       (snd (analyzeFiles sampleDateParse [file_app; file_binary; file_other]
               sampleClient (lit "base") sample_prShas sample_lastCommits
               (Some (lit "carol")) jan22 (Num 21) (lit "o") (lit "r")))
     = 3%nat.
Proof.
  pose (X := analyzeFiles sampleDateParse [file_app; file_binary; file_other]
               sampleClient (lit "base") sample_prShas sample_lastCommits
               (Some (lit "carol")) jan22 (Num 21) (lit "o") (lit "r")).
  destruct (pull_request_totals sampleDateParse
              [file_app; file_binary; file_other] sampleClient (lit "base")
              sample_prShas sample_lastCommits (Some (lit "carol")) jan22
              (Num 21) (lit "o") (lit "r") (fst X) (snd X)
              (surjective_pairing X))
    as (_ & H & _).
  split; [|reflexivity].
  etransitivity; [exact H | reflexivity].
Defined.

(* ================================================================== *)
(** * Properties of the configuration *)

Section ConfigFacts.

Lemma truthyStr_true (s : option jsstring) :
  truthyStr s = true <-> exists v, s = Some v /\ v <> [].
Proof.
  unfold truthyStr. destruct (orNull s) as [v|] eqn:E.
  - apply orNull_some in E. split; [intros _; exists v; exact E | reflexivity].
  - split; [discriminate|]. intros (v & Hs & Hv).
    rewrite (orNull_present _ _ Hs Hv) in E. discriminate.
Qed.

Lemma truthyInt_true (n : jsint) :
  truthyInt n = true <-> exists v, n = IntNum v /\ v <> 0.
Proof.
  destruct n as [v| |]; simpl.
  - rewrite negb_true_iff, Z.eqb_neq. split.
    + intros Hv. exists v. split; [reflexivity | exact Hv].
    + intros (v' & [= <-] & Hv). exact Hv.
  - split; [discriminate | intros (v & Hv & _); discriminate].
  - split; [discriminate | intros (v & Hv & _); discriminate].
Qed.

(** With a threshold that is not a number no line is Churn. *)
Lemma nan_threshold_never_churn (dateParse : jsstring -> option Z)
    (lineNum : Z) (hunkType : HunkType) (blameRanges : BlameInput)
    (cur : option jsstring) (curDate : jsdate) :
  Classification.category
    (classifyLine dateParse lineNum hunkType blameRanges cur curDate NaN)
  <> CHURN.
Proof.
  destruct (classifyLine_form dateParse lineNum hunkType blameRanges cur
              curDate NaN) as [Hn | [r Hr]].
  - rewrite Hn. discriminate.
  - rewrite Hr. unfold classifyFound.
    destruct (option_map (newDate dateParse) (orNull (rangeCommittedDate r)))
      as [d|]; cbn [Classification.category]; [|discriminate].
    destruct (sameAuthor (orNull (rangeAuthorName r)) cur); [|discriminate].
    destruct (calculateDeltaDays curDate d); discriminate.
Qed.

End ConfigFacts.

(** The required variables of the environment are set and not empty. *)
Definition requiredSet (env : Env.t) : Prop :=
  (exists v, Env.APP_ID env = Some v /\ v <> [])
  /\ ((exists v, Env.PRIVATE_KEY_PATH env = Some v /\ v <> [])
      \/ (exists v, Env.PRIVATE_KEY env = Some v /\ v <> []))
  /\ (exists v, Env.INSTALLATION_ID env = Some v /\ v <> [])
  /\ (exists v, Env.REPO_OWNER env = Some v /\ v <> [])
  /\ (exists v, Env.REPO_NAME env = Some v /\ v <> []).

(** X17. The configuration is returned exactly when the application
    identifier, the installation identifier, the owner, the repository and
    one of the two private key variables are set and not empty and the pull
    request number, read by [parseInt], is a number other than zero; in
    every other case the process exits.  The returned configuration holds
    the variables as they are, and an output directory that is never
    empty. *)
Theorem configuration_is_validated (env : Env.t) :
  (forall config,
      loadConfiguration env = Some config ->
      requiredSet env
      /\ (exists s n, Env.PR_NUMBER env = Some s /\ parseIntJS s = Some n
                      /\ n <> 0 /\ Config.prNumber config = IntNum n)
      /\ Config.appId config = Env.APP_ID env
      /\ Config.privateKeyPath config = Env.PRIVATE_KEY_PATH env
      /\ Config.privateKeyRaw config = Env.PRIVATE_KEY env
      /\ Config.installationId config = Env.INSTALLATION_ID env
      /\ Config.owner config = Env.REPO_OWNER env
      /\ Config.repo config = Env.REPO_NAME env
      /\ Config.outputPath config = Env.OUTPUT_JSON env
      /\ Config.outputDir config <> [])
  /\ (requiredSet env ->
      (exists s n, Env.PR_NUMBER env = Some s /\ parseIntJS s = Some n
                   /\ n <> 0) ->
      loadConfiguration env <> None).
Proof.
  unfold loadConfiguration, requiredSet.
  cbn [Config.appId Config.privateKeyPath Config.privateKeyRaw
       Config.installationId Config.owner Config.repo Config.prNumber].
  split.
  - intros config Hc.
    destruct (truthyStr (Env.APP_ID env)) eqn:H1; [|discriminate].
    destruct (truthyStr (Env.INSTALLATION_ID env)) eqn:H3;
      [|rewrite !orb_true_r in Hc; discriminate].
    destruct (truthyStr (Env.REPO_OWNER env)) eqn:H4;
      [|rewrite !orb_true_r in Hc; discriminate].
    destruct (truthyStr (Env.REPO_NAME env)) eqn:H5;
      [|rewrite !orb_true_r in Hc; discriminate].
    destruct (truthyStr (Env.PRIVATE_KEY_PATH env)
              || truthyStr (Env.PRIVATE_KEY env)) eqn:H2.
    2:{ apply orb_false_iff in H2 as [H2a H2b]. rewrite H2a, H2b in Hc.
        discriminate. }
    destruct (truthyInt
                match orNull (Env.PR_NUMBER env) with
                | Some s => parseIntNum s
                | None => IntUndefined
                end) eqn:H6.
    2:{ rewrite !orb_true_r in Hc. discriminate. }
    assert (Hkeys : negb (truthyStr (Env.PRIVATE_KEY_PATH env))
                    && negb (truthyStr (Env.PRIVATE_KEY env)) = false).
    { rewrite <- negb_orb, H2. reflexivity. }
    cbn [negb orb] in Hc. rewrite Hkeys in Hc. cbn [orb] in Hc.
    injection Hc as <-.
    cbn [Config.appId Config.privateKeyPath Config.privateKeyRaw
         Config.installationId Config.owner Config.repo Config.prNumber
         Config.outputPath Config.outputDir].
    apply truthyStr_true in H1. apply truthyStr_true in H3.
    apply truthyStr_true in H4. apply truthyStr_true in H5.
    apply truthyInt_true in H6 as (n & Hn & Hn0).
    split.
    { split; [exact H1|]. split.
      - apply orb_true_iff in H2 as [H2 | H2]; apply truthyStr_true in H2;
          [left | right]; exact H2.
      - repeat split; assumption. }
    split.
    { destruct (orNull (Env.PR_NUMBER env)) as [s|] eqn:Es; [|discriminate].
      apply orNull_some in Es as [Es _].
      unfold parseIntNum in *.
      destruct (parseIntJS s) as [m|] eqn:Em; [|discriminate].
      injection Hn as ->. exists s, n.
      split; [exact Es|]. split; [exact Em|].
      split; [exact Hn0 | reflexivity]. }
    repeat split.
    destruct (orNull (Env.OUTPUT_DIR env)) as [s|] eqn:Eo; [|discriminate].
    apply orNull_some in Eo as [_ Hne]. exact Hne.
  - intros (H1 & H2 & H3 & H4 & H5) (s & n & Hs & Hn & Hn0).
    apply truthyStr_true in H1. apply truthyStr_true in H3.
    apply truthyStr_true in H4. apply truthyStr_true in H5.
    assert (H2' : truthyStr (Env.PRIVATE_KEY_PATH env)
                  || truthyStr (Env.PRIVATE_KEY env) = true).
    { apply orb_true_iff.
      destruct H2 as [H2 | H2]; apply truthyStr_true in H2; tauto. }
    assert (Hs' : orNull (Env.PR_NUMBER env) = Some s).
    { apply orNull_present; [exact Hs|].
      intros ->. vm_compute in Hn. discriminate. }
    rewrite H1, H3, H4, H5, <- negb_orb, H2', Hs'.
    unfold parseIntNum. rewrite Hn. cbn [truthyInt negb orb].
    rewrite (proj2 (Z.eqb_neq n 0) Hn0). discriminate.
Qed.

Lemma configuration_is_validated_witness :
  (exists config,
      loadConfiguration sample_env = Some config
      /\ Config.prNumber config = IntNum 42
      /\ Config.outputDir config = lit "output")
  /\ loadConfiguration env_without_pr = None.
Proof.
  split.
  - destruct (loadConfiguration sample_env) as [config|] eqn:E.
    + destruct (configuration_is_validated sample_env) as [H _].
      destruct (H config E) as (_ & (s & n & Hs & Hn & _ & Hp) & _).
      exists config. split; [reflexivity|].
      vm_compute in E. injection E as <-. split; reflexivity.
    + vm_compute in E. discriminate.
  - reflexivity.
Defined.

(** A returned configuration holds a key path or a raw key that is not
    empty. *)
Lemma configuration_keys (env : Env.t) (config : Config.t) :
  loadConfiguration env = Some config ->
  (exists v, Config.privateKeyPath config = Some v /\ v <> [])
  \/ (exists v, Config.privateKeyRaw config = Some v /\ v <> []).
Proof.
  intros Hc. unfold loadConfiguration in Hc.
  cbn [Config.appId Config.privateKeyPath Config.privateKeyRaw
       Config.installationId Config.owner Config.repo Config.prNumber] in Hc.
  destruct (truthyStr (Env.PRIVATE_KEY_PATH env)) eqn:Hp.
  - destruct (_ || _) in Hc; [discriminate|]. injection Hc as <-.
    left. apply truthyStr_true. exact Hp.
  - destruct (truthyStr (Env.PRIVATE_KEY env)) eqn:Hr.
    + destruct (_ || _) in Hc; [discriminate|]. injection Hc as <-.
      right. apply truthyStr_true. exact Hr.
    + cbn [negb andb] in Hc. rewrite !orb_true_r in Hc. cbn [orb] in Hc.
      discriminate.
Qed.

(** X18. The threshold of a configuration is 21 when the variable
    [MAX_DELTA_DAYS] is not set or empty.  When the variable holds a text
    that [parseInt] does not read as a number the threshold is
    not-a-number, the configuration is returned all the same, and the
    analysis of any file with it never yields Churn. *)
Theorem threshold_from_environment (env : Env.t) (config : Config.t) :
  loadConfiguration env = Some config ->
  (Env.MAX_DELTA_DAYS env = None \/ Env.MAX_DELTA_DAYS env = Some [] ->
   Config.maxDeltaDays config = IntNum 21
   /\ thresholdOf (Config.maxDeltaDays config) = Num 21)
  /\ (forall s n, Env.MAX_DELTA_DAYS env = Some s -> parseIntJS s = Some n ->
      thresholdOf (Config.maxDeltaDays config) = Num (inject_Z n))
  /\ (forall s, Env.MAX_DELTA_DAYS env = Some s -> s <> [] ->
      parseIntJS s = None ->
      Config.maxDeltaDays config = IntNaN
      /\ forall dateParse file graphqlClient baseRef prShas lastCommitByFile
                prAuthor prDate owner repo,
           Forall (fun d => Detail.categoria d <> CHURN)
             (FileAnalysis.details
                (analyzeFile dateParse file graphqlClient baseRef prShas
                   lastCommitByFile prAuthor prDate
                   (thresholdOf (Config.maxDeltaDays config)) owner repo))).
Proof.
  intros Hc.
  assert (Hm : Config.maxDeltaDays config
               = parseIntNum
                   match orNull (Env.MAX_DELTA_DAYS env) with
                   | Some s => s
                   | None => DEFAULT_MAX_DELTA_DAYS
                   end).
  { unfold loadConfiguration in Hc.
    destruct (_ || _) in Hc; [discriminate|].
    injection Hc as <-. reflexivity. }
  rewrite Hm. split.
  { intros Hd. rewrite (orNull_absent _ Hd). split; reflexivity. }
  split.
  { intros s n Hs Hn. destruct s as [|c s'].
    - vm_compute in Hn. discriminate.
    - rewrite Hs. cbn [orNull]. unfold parseIntNum. rewrite Hn. reflexivity. }
  intros s Hs Hne Hn. rewrite (orNull_present _ _ Hs Hne).
  unfold parseIntNum. rewrite Hn. split; [reflexivity|].
  intros. cbn [thresholdOf]. apply Forall_forall. intros d Hd.
  apply analysis_detail_origin in Hd as (patch & l & _ & _ & ->).
  cbn [detailOf Detail.categoria]. apply nan_threshold_never_churn.
Qed.

Lemma threshold_from_environment_witness :
  (exists config,
      loadConfiguration sample_env = Some config
      /\ Config.maxDeltaDays config = IntNaN)
  /\ (exists config,
         loadConfiguration
           (Env.mk (Some (lit "1")) (Some (lit "key.pem")) None
              (Some (lit "2")) (Some (lit "o")) (Some (lit "r"))
              (Some (lit "7")) None None None) = Some config
         /\ Config.maxDeltaDays config = IntNum 21).
Proof.
  split.
  - destruct (loadConfiguration sample_env) as [config|] eqn:E;
      [|vm_compute in E; discriminate].
    exists config. split; [reflexivity|].
    destruct (threshold_from_environment sample_env config E) as (_ & _ & H).
    apply (H (lit "three weeks")); [reflexivity | discriminate | reflexivity].
  - destruct (loadConfiguration
                (Env.mk (Some (lit "1")) (Some (lit "key.pem")) None
                   (Some (lit "2")) (Some (lit "o")) (Some (lit "r"))
                   (Some (lit "7")) None None None)) as [config|] eqn:E;
      [|vm_compute in E; discriminate].
    exists config. split; [reflexivity|].
    destruct (threshold_from_environment _ config E) as (H & _).
    apply H. left. reflexivity.
Defined.

(* ================================================================== *)
(** * Properties of the private key loading *)

(** A backslash directly followed by the letter n occurs in the text. *)
Fixpoint hasEscapedNewline (s : jsstring) : bool :=
  match s with
  | c :: rest =>
      match rest with
      | d :: _ => (N.eqb c 92 && N.eqb d 110) || hasEscapedNewline rest
      | [] => false
      end
  | [] => false
  end.

Section Unescape.

Lemma unescape_cons2 (c d : jschar) (rest : jsstring) :
  unescapeNewlines (c :: d :: rest)
  = if N.eqb c 92 && N.eqb d 110 then LF :: unescapeNewlines rest
    else c :: unescapeNewlines (d :: rest).
Proof. reflexivity. Qed.

Lemma hasEscaped_cons (c : jschar) (out : jsstring) :
  hasEscapedNewline (c :: out)
  = match out with
    | d :: _ => (N.eqb c 92 && N.eqb d 110) || hasEscapedNewline out
    | [] => false
    end.
Proof. reflexivity. Qed.

(** The output has no escaped newline, starts with the letter n only when
    the input does, and is not longer than the input. *)
Lemma unescape_invariant (n : nat) :
  forall s, (length s <= n)%nat ->
    hasEscapedNewline (unescapeNewlines s) = false
    /\ (forall out, unescapeNewlines s = 110%N :: out ->
        exists rest, s = 110%N :: rest)
    /\ (length (unescapeNewlines s) <= length s)%nat.
Proof.
  induction n as [|n IH]; intros s Hlen.
  - destruct s; [|simpl in Hlen; lia].
    split; [reflexivity|]. split; [discriminate | simpl; lia].
  - destruct s as [|c [|d rest]].
    + split; [reflexivity|]. split; [discriminate | simpl; lia].
    + split; [reflexivity|]. split; [|simpl; lia].
      simpl. intros out [= -> _]. exists []. reflexivity.
    + rewrite unescape_cons2. cbn [length] in Hlen.
      destruct (N.eqb c 92 && N.eqb d 110) eqn:E.
      * destruct (IH rest) as (H1 & H2 & H3); [lia|].
        split.
        { rewrite hasEscaped_cons.
          destruct (unescapeNewlines rest) as [|x out']; [reflexivity|].
          rewrite H1. reflexivity. }
        split; [discriminate | cbn [length]; lia].
      * destruct (IH (d :: rest)) as (H1 & H2 & H3); [cbn [length]; lia|].
        split.
        { rewrite hasEscaped_cons.
          destruct (unescapeNewlines (d :: rest)) as [|x out'] eqn:Eo;
            [reflexivity|].
          rewrite H1, orb_false_r.
          destruct (N.eqb c 92) eqn:Ec; [|reflexivity].
          destruct (N.eqb x 110) eqn:Ex; [|reflexivity].
          apply N.eqb_eq in Ex. subst x.
          destruct (H2 out' eq_refl) as (rest' & [= -> _]).
          simpl in E. discriminate. }
        split; [|cbn [length] in *; lia].
        intros out [= -> _]. exists (d :: rest). reflexivity.
Qed.

Lemma unescape_plain (s : jsstring) :
  Forall (fun c => c <> 92%N) s -> unescapeNewlines s = s.
Proof.
  induction 1 as [|c s Hc _ IH]; [reflexivity|].
  destruct s as [|d rest]; [reflexivity|].
  rewrite unescape_cons2.
  destruct (N.eqb_spec c 92) as [E|E]; [contradiction|].
  cbn [andb]. f_equal. exact IH.
Qed.

End Unescape.

(** The pieces of a text joined by the escaped newline, a backslash
    followed by the letter n. *)
Fixpoint joinEscaped (pieces : list jsstring) : jsstring :=
  match pieces with
  | [] => []
  | [p] => p
  | p :: rest => p ++ 92%N :: 110%N :: joinEscaped rest
  end.

Section UnescapePieces.

Lemma unescape_free (p : jsstring) :
  hasEscapedNewline p = false -> unescapeNewlines p = p.
Proof.
  induction p as [|c p IH]; [reflexivity|].
  destruct p as [|d p']; [reflexivity|].
  rewrite hasEscaped_cons, unescape_cons2. intros H.
  apply orb_false_iff in H as [Hcd Hrest].
  rewrite Hcd. f_equal. apply IH. exact Hrest.
Qed.

(** A piece without an escaped newline is copied, and the escaped newline
    after it becomes one line feed. *)
Lemma unescape_piece (p rest : jsstring) :
  hasEscapedNewline p = false ->
  unescapeNewlines (p ++ 92%N :: 110%N :: rest)
  = p ++ LF :: unescapeNewlines rest.
Proof.
  induction p as [|c p IH]; intros H; [reflexivity|].
  destruct p as [|d p'].
  - cbn [app]. rewrite unescape_cons2.
    destruct (N.eqb c 92); reflexivity.
  - rewrite hasEscaped_cons in H. apply orb_false_iff in H as [Hcd Hrest].
    cbn [app]. rewrite unescape_cons2, Hcd. f_equal.
    apply (IH Hrest).
Qed.

Lemma unescape_joinEscaped (pieces : list jsstring) :
  Forall (fun p => hasEscapedNewline p = false) pieces ->
  unescapeNewlines (joinEscaped pieces) = unlines pieces.
Proof.
  induction 1 as [|p pieces Hp _ IH]; [reflexivity|].
  destruct pieces as [|q pieces].
  - cbn [joinEscaped unlines]. apply unescape_free. exact Hp.
  - change (joinEscaped (p :: q :: pieces))
      with (p ++ 92%N :: 110%N :: joinEscaped (q :: pieces)).
    change (unlines (p :: q :: pieces))
      with (p ++ LF :: unlines (q :: pieces)).
    rewrite (unescape_piece _ _ Hp), IH. reflexivity.
Qed.

End UnescapePieces.

(** X19. For a configuration that passed the validation, loading the
    private key never ends in a type error.  A key path that is set and not
    empty is read and the raw key is ignored; when the read fails the
    process exits without falling back to the raw key.  A raw key comes
    back with every escaped newline replaced by one line feed and the rest
    of the text unchanged: when the raw key is pieces without an escaped
    newline joined by escaped newlines, the key is the same pieces joined
    by line feeds.  No backslash followed by the letter n is left, the text
    is not longer than before, and a text without an escaped newline is
    unchanged. *)
Theorem private_key_loading (readFileSync : jsstring -> option jsstring)
    (env : Env.t) (config : Config.t) :
  loadConfiguration env = Some config ->
  loadPrivateKey readFileSync (Config.privateKeyPath config)
    (Config.privateKeyRaw config) <> KeyTypeError
  /\ (forall path,
         Config.privateKeyPath config = Some path -> path <> [] ->
         loadPrivateKey readFileSync (Config.privateKeyPath config)
           (Config.privateKeyRaw config)
         = match readFileSync path with
           | Some content => KeyLoaded content
           | None => KeyExit
           end)
  /\ (forall raw,
         Config.privateKeyPath config = None
         \/ Config.privateKeyPath config = Some [] ->
         Config.privateKeyRaw config = Some raw ->
         exists key,
           loadPrivateKey readFileSync (Config.privateKeyPath config)
             (Config.privateKeyRaw config) = KeyLoaded key
           /\ (forall pieces,
                  raw = joinEscaped pieces ->
                  Forall (fun p => hasEscapedNewline p = false) pieces ->
                  key = unlines pieces)
           /\ hasEscapedNewline key = false
           /\ (length key <= length raw)%nat
           /\ (hasEscapedNewline raw = false -> key = raw)
           /\ (Forall (fun c => c <> 92%N) raw -> key = raw)).
Proof.
  intros Hc.
  destruct (configuration_keys env config Hc) as [Hp | Hr].
  - destruct Hp as (path & Hp & Hne).
    unfold loadPrivateKey. rewrite (orNull_present _ _ Hp Hne).
    split; [destruct (readFileSync path); discriminate|].
    split.
    + intros path' Hp' _. rewrite Hp in Hp'. injection Hp' as <-. reflexivity.
    + intros raw [Hn | Hn]; rewrite Hp in Hn; congruence.
  - destruct Hr as (raw & Hr & Hne).
    unfold loadPrivateKey. rewrite Hr.
    split; [destruct (orNull (Config.privateKeyPath config)) as [p|];
            [destruct (readFileSync p)|]; discriminate|].
    split.
    + intros path Hp Hpne. rewrite (orNull_present _ _ Hp Hpne). reflexivity.
    + intros raw' Hn [= <-]. rewrite (orNull_absent _ Hn).
      exists (unescapeNewlines raw). split; [reflexivity|].
      destruct (unescape_invariant (length raw) raw (Nat.le_refl _))
        as (H1 & _ & H3).
      split.
      { intros pieces -> Hfree. apply unescape_joinEscaped. exact Hfree. }
      split; [exact H1|]. split; [exact H3|].
      split; [apply unescape_free | apply unescape_plain].
Qed.

(** The raw key of [sample_env] is three pieces joined by escaped
    newlines; it is loaded as three lines. *)
Lemma private_key_loading_witness :
  Env.PRIVATE_KEY sample_env
  = Some (joinEscaped [lit "-----BEGIN"; lit "KEY"; lit "-----END"])
  /\ loadPrivateKey sampleReadFile (Env.PRIVATE_KEY_PATH sample_env)
       (Env.PRIVATE_KEY sample_env)
     = KeyLoaded (unlines [lit "-----BEGIN"; lit "KEY"; lit "-----END"])
  /\ loadPrivateKey sampleReadFile (Env.PRIVATE_KEY_PATH sample_env)
       (Env.PRIVATE_KEY sample_env) <> KeyTypeError.
Proof.
  destruct (loadConfiguration sample_env) as [config|] eqn:E;
    [|vm_compute in E; discriminate].
  destruct (private_key_loading sampleReadFile sample_env config E)
    as (H1 & _ & H3).
  assert (Hc : config
               = Config.mk (Env.APP_ID sample_env)
                   (Env.PRIVATE_KEY_PATH sample_env)
                   (Env.PRIVATE_KEY sample_env)
                   (Env.INSTALLATION_ID sample_env)
                   (Env.REPO_OWNER sample_env) (Env.REPO_NAME sample_env)
                   (IntNum 42) IntNaN None DEFAULT_OUTPUT_DIR).
  { vm_compute in E. injection E as <-. reflexivity. }
  subst config.
  cbn [Config.privateKeyPath Config.privateKeyRaw] in H1, H3.
  split; [reflexivity|]. split; [|exact H1].
  destruct (H3 _ (or_introl eq_refl) eq_refl) as (key & Hk & Hpieces & _).
  rewrite Hk. f_equal.
  apply (Hpieces [lit "-----BEGIN"; lit "KEY"; lit "-----END"]);
    [reflexivity | repeat constructor].
Defined.

(* ================================================================== *)
(** * The old-file numbers of the removed lines *)

(** [n] consecutive integers from [first]. *)
Definition zseq (first : Z) (n : nat) : list Z :=
  map (fun i => first + Z.of_nat i) (seq 0 n).

(** The removed lines are numbered consecutively from a number that is
    not negative. *)
Definition consecutive (entries : list HunkLine.t) : Prop :=
  exists first,
    0 <= first
    /\ map HunkLine.lineNum entries = zseq first (length entries).

Section OldNumbers.

Lemma zseq_snoc (first : Z) (n : nat) :
  zseq first (S n) = zseq first n ++ [first + Z.of_nat n].
Proof. unfold zseq. rewrite seq_S, map_app. reflexivity. Qed.

Lemma headerOldStart_nonneg (line : jsstring) : 0 <= headerOldStart line.
Proof.
  unfold headerOldStart.
  destruct (execHeader line) as [[g1 g2]|] eqn:E; [|lia].
  apply parseInt10_nonneg. apply (execHeader_digits _ _ _ E).
Qed.

(** The buffer holds consecutive removed lines that end just below the
    old-file counter, and so do the records already pushed. *)
Definition oldNumbered (st : Parser.t) : Prop :=
  (exists first,
      0 <= first
      /\ map HunkLine.lineNum (Hunk.removedLines (Parser.currentHunk st))
         = zseq first (length (Hunk.removedLines (Parser.currentHunk st)))
      /\ first + Z.of_nat (length (Hunk.removedLines (Parser.currentHunk st)))
         = Parser.oldLineNum st)
  /\ Forall (fun r => consecutive (AddedLine.removedLines r))
            (Parser.addedLines st).

Lemma consecutive_nil : consecutive [].
Proof. exists 0. split; [lia | reflexivity]. Qed.

Lemma finalizeHunk_consecutive (h : Hunk.t) (out : list AddedLine.t) :
  consecutive (Hunk.removedLines h) ->
  Forall (fun r => consecutive (AddedLine.removedLines r)) out ->
  Forall (fun r => consecutive (AddedLine.removedLines r))
         (snd (finalizeHunk h out)).
Proof.
  intros Hh Hout. rewrite finalizeHunk_snd. apply Forall_app.
  split; [exact Hout|]. rewrite Forall_map. apply Forall_forall.
  intros a _. cbn [AddedLine.removedLines].
  destruct (HunkType_eqb (hunkTypeOf h) REPLACE);
    [exact Hh | apply consecutive_nil].
Qed.

Lemma parseLine_oldNumbered (st : Parser.t) (l : jsstring) :
  oldNumbered st -> oldNumbered (parseLine st l).
Proof.
  intros [(first & Hf & Hseq & Hend) Hout].
  assert (Hcons : consecutive (Hunk.removedLines (Parser.currentHunk st)))
    by (exists first; split; assumption).
  unfold oldNumbered. destruct (lineKind l) eqn:Hk.
  - rewrite (parseLine_header st l Hk).
    cbn [Parser.currentHunk Parser.oldLineNum Parser.addedLines
         Hunk.removedLines map length].
    split; [|apply finalizeHunk_consecutive; assumption].
    exists (headerOldStart l).
    split; [apply headerOldStart_nonneg|]. split; [reflexivity | simpl; lia].
  - rewrite (parseLine_added st l Hk).
    cbn [Parser.currentHunk Parser.oldLineNum Parser.addedLines
         Hunk.removedLines].
    split; [|exact Hout]. exists first. repeat split; assumption.
  - rewrite (parseLine_removed st l Hk).
    cbn [Parser.currentHunk Parser.oldLineNum Parser.addedLines
         Hunk.removedLines].
    split; [|exact Hout]. exists first. split; [exact Hf|].
    rewrite map_app, length_app, Nat.add_1_r, zseq_snoc, Hseq.
    cbn [map HunkLine.lineNum]. split; [|lia].
    f_equal. f_equal. lia.
  - rewrite (parseLine_context st l Hk).
    cbn [Parser.currentHunk Parser.oldLineNum Parser.addedLines].
    split; [|apply finalizeHunk_consecutive; assumption].
    exists (Parser.oldLineNum st + 1).
    assert (Hnil : Hunk.removedLines
                     match Hunk.addedLines (Parser.currentHunk st),
                           Hunk.removedLines (Parser.currentHunk st) with
                     | [], [] => Parser.currentHunk st
                     | _, _ => createEmptyHunk
                     end = []).
    { destruct (Hunk.addedLines (Parser.currentHunk st)),
               (Hunk.removedLines (Parser.currentHunk st)) eqn:Er;
        try reflexivity. exact Er. }
    rewrite Hnil. split; [lia|]. split; [reflexivity | simpl; lia].
  - rewrite (parseLine_annotation st l Hk).
    split; [|exact Hout]. exists first. repeat split; assumption.
Qed.

Lemma parseLines_oldNumbered (lines : list jsstring) :
  forall st, oldNumbered st -> oldNumbered (parseLines st lines).
Proof.
  induction lines as [|l lines IH]; intros st Hst; [exact Hst|].
  apply IH. apply parseLine_oldNumbered. exact Hst.
Qed.

End OldNumbers.

(** X20. For every diff text on which the old-file counter stays within
    the safe integers, the removed lines that a record carries are numbered
    consecutively in the old file: their numbers are a run of successive
    integers that starts at a number that is not negative. *)
Theorem removed_lines_are_consecutive (patch : jsstring) (r : AddedLine.t) :
  oldCounterSafe parserInit (split_lines patch) = true ->
  In r (parsePatch patch) ->
  exists first,
    0 <= first
    /\ map HunkLine.lineNum (AddedLine.removedLines r)
       = zseq first (length (AddedLine.removedLines r)).
Proof.
  intros _ Hr.
  assert (Hinit : oldNumbered parserInit).
  { split; [|constructor]. exists 0. split; [lia|]. split; reflexivity. }
  destruct (parseLines_oldNumbered (split_lines patch) _ Hinit)
    as [(first & Hf & Hseq & _) Hout].
  assert (Hall : Forall (fun r => consecutive (AddedLine.removedLines r))
                   (parsePatch patch)).
  { unfold parsePatch, parseEnd. apply finalizeHunk_consecutive;
      [|exact Hout]. exists first. split; assumption. }
  rewrite Forall_forall in Hall. apply (Hall r Hr).
Qed.

Lemma removed_lines_are_consecutive_witness :
  In (AddedLine.mk (lit "c") 8 REPLACE [entry "a" 5; entry "b" 6])
     (parsePatch
        (unlines [lit "@@ -5,2 +8,1 @@"; lit "-a"; lit "-b"; lit "+c"]))
  /\ exists first,
       0 <= first
       /\ map HunkLine.lineNum [entry "a" 5; entry "b" 6] = zseq first 2.
Proof.
  assert (H : In (AddedLine.mk (lit "c") 8 REPLACE [entry "a" 5; entry "b" 6])
                 (parsePatch
                    (unlines [lit "@@ -5,2 +8,1 @@"; lit "-a"; lit "-b";
                              lit "+c"]))) by (left; reflexivity).
  split; [exact H|].
  apply (removed_lines_are_consecutive
           (unlines [lit "@@ -5,2 +8,1 @@"; lit "-a"; lit "-b"; lit "+c"])
           _ eq_refl H).
Defined.

(* ================================================================== *)
(** * An invalid current date *)

(** X21. The last commit of a file gets the invalid date when its author
    date is a text that does not parse.  With an invalid current date no
    line is Churn, whatever the threshold: the delta of every line with a
    dated range is not-a-number. *)
Theorem invalid_current_date_never_churn (dateParse : jsstring -> option Z)
    (lineNum : Z) (hunkType : HunkType) (blameRanges : BlameInput)
    (currentAuthor : option jsstring) (maxDeltaDays : jsnum)
    (res : Classification.t) :
  res = classifyLine dateParse lineNum hunkType blameRanges currentAuthor
          InvalidDate maxDeltaDays ->
  Classification.category res <> CHURN
  /\ (Classification.deltaDays res = None
      \/ Classification.deltaDays res = Some NaN)
  /\ (forall now details summary fallback s,
         CommitDetails.authorDate details = Some s -> s <> [] ->
         dateParse s = None ->
         snd (extractCommitAuthorAndDate dateParse now (Some details) summary
                fallback) = InvalidDate).
Proof.
  intros ->. split; [|split].
  - destruct (classifyLine_form dateParse lineNum hunkType blameRanges
                currentAuthor InvalidDate maxDeltaDays) as [Hn | [r Hr]].
    + rewrite Hn. discriminate.
    + rewrite Hr. unfold classifyFound.
      destruct (option_map (newDate dateParse) (orNull (rangeCommittedDate r)))
        as [d|]; cbn [Classification.category]; [|discriminate].
      destruct (sameAuthor (orNull (rangeAuthorName r)) currentAuthor);
        [|discriminate].
      cbn [calculateDeltaDays jsle]. discriminate.
  - destruct (classifyLine_form dateParse lineNum hunkType blameRanges
                currentAuthor InvalidDate maxDeltaDays) as [Hn | [r Hr]].
    + rewrite Hn. left. reflexivity.
    + rewrite Hr. unfold classifyFound.
      destruct (option_map (newDate dateParse) (orNull (rangeCommittedDate r)))
        as [d|]; cbn [Classification.deltaDays];
        [right; reflexivity | left; reflexivity].
  - intros now details summary fallback s Hs Hne Hp.
    unfold extractCommitAuthorAndDate. cbn [snd].
    rewrite (orNull_present _ _ Hs Hne). unfold newDate. rewrite Hp.
    reflexivity.
Qed.

Lemma invalid_current_date_never_churn_witness :
  classifyLine sampleDateParse 20 REPLACE (BlameArray [range_alice])
    (Some (lit "Alice"))
    (snd (extractCommitAuthorAndDate sampleDateParse jan22
            (Some (CommitDetails.mk (Some (lit "Alice"))
                     (Some (lit "yesterday")) None))
            (CommitSummary.mk (lit "0ddba11") None) None))
    (Num 1000)
  = Classification.mk REWORK (Some (lit "Alice")) (Some (lit "a1b2c3d"))
      (Some NaN).
Proof.
  destruct (invalid_current_date_never_churn sampleDateParse 20 REPLACE
              (BlameArray [range_alice]) (Some (lit "Alice")) (Num 1000) _
              eq_refl) as (_ & _ & H).
  rewrite (H jan22 (CommitDetails.mk (Some (lit "Alice"))
                      (Some (lit "yesterday")) None)
             (CommitSummary.mk (lit "0ddba11") None) None (lit "yesterday")
             eq_refl);
    [reflexivity | discriminate | reflexivity].
Defined.
